(** * SpeedSentry polling server: probe engine, timing wheel and aggregator

    A shallow embedding of the C++ sources under [ps/source] and
    [ps/include], and the properties of the natural-language specification
    checked against it.

    Conventions.
    - Qt objects that the code reaches through pointers ([Monitor*],
      [QNetworkReply*]) live in explicit stores keyed by address; a pointer
      is an address, and a pointer that outlives its object is dangling.
    - [QHash] and [QSet] are finite maps and sets ([gmap], [gset]); their
      iteration order is the order of [map_to_list] and [elements], which,
      like the order of a hash table, is fixed by the container and carries
      no meaning.  An iterator is a [Cursor]: the key it designates, the
      end sentinel, or a default-constructed (singular) iterator.
    - Operations the C++ standard or Qt leave undefined (dereferencing
      [end()], using a deleted object, dividing by zero) are [Fault]s.
    - Fixed-width unsigned integers are [Z] with the wrap-around written
      out; byte strings ([QByteArray]) are [list byte]. *)

From Stdlib Require Import ZArith Lia List Sorting.Sorted.
From Stdlib Require Import Strings.String Strings.Ascii Strings.Byte.
From stdpp Require Import base option list gmap sets strings pretty.

Local Open Scope Z_scope.

(** ** Bytes and fixed-width words *)

Definition QByteArray : Type := list byte.
Definition QString : Type := string.

Definition wrap (bits : Z) (z : Z) : Z := z mod 2 ^ bits.
Definition u8 : Z -> Z := wrap 8.
Definition u16 : Z -> Z := wrap 16.
Definition u32 : Z -> Z := wrap 32.
Definition u64 : Z -> Z := wrap 64.

Definition byte_of_Z (z : Z) : byte :=
  match Byte.of_N (Z.to_N (z mod 256)) with
  | Some b => b
  | None => x00
  end.

(** Little-endian images of the integer types of the wire format (the
    hosts the server runs on are little-endian, so these are also the
    in-memory images that [reinterpret_cast<const char*>] exposes). *)
Definition le8 (z : Z) : QByteArray := [byte_of_Z z].
Definition le16 (z : Z) : QByteArray :=
  [byte_of_Z z; byte_of_Z (Z.shiftr z 8)].
Definition le32 (z : Z) : QByteArray :=
  [byte_of_Z z; byte_of_Z (Z.shiftr z 8);
   byte_of_Z (Z.shiftr z 16); byte_of_Z (Z.shiftr z 24)].

Definition byte_eqb (a b : byte) : bool := Byte.eqb a b.

Fixpoint startsWith (hay needle : QByteArray) : bool :=
  match needle, hay with
  | [], _ => true
  | _ :: _, [] => false
  | n :: needle', h :: hay' => byte_eqb n h && startsWith hay' needle'
  end.

(** [QByteArray::contains(const QByteArray&)]: [indexOf(needle) != -1].
    The empty needle is found in every array, the empty one included. *)
Fixpoint contains (hay needle : QByteArray) : bool :=
  match hay with
  | [] => startsWith [] needle
  | _ :: hay' => startsWith hay needle || contains hay' needle
  end.

Definition bytes_of_string (s : string) : QByteArray := list_byte_of_string s.

(** A loop [do body while (cond)], bounded by [fuel] iterations of the
    body; [None] when the bound is exhausted with the condition still
    true. *)
Fixpoint do_while {S : Type} (body : S -> S) (cond : S -> bool)
    (fuel : nat) (s : S) : option S :=
  match fuel with
  | O => None
  | Datatypes.S fuel' =>
      let s' := body s in
      if cond s' then do_while body cond fuel' s' else Some s'
  end.

(** ** Enumerations of [monitor.h], [host_scheme.h], [service_thread_tracker.h] *)

Module Method.
Inductive t := GET | HEAD | POST | PUT | DELETE | OPTIONS | PATCH.
End Method.

Module ContentCheckMode.
Inductive t :=
    NO_CHECK | CONTENT_MATCH | ANY_KEYWORDS | ALL_KEYWORDS | SMART_CONTENT_MATCH.
End ContentCheckMode.

Module ContentType.
Inductive t := JSON | XML | TEXT.
End ContentType.

Module MonitorStatus.
Inductive t := UNKNOWN | WORKING | FAILED.
Definition eqb (a b : t) : bool :=
    match a, b with
    | UNKNOWN, UNKNOWN | WORKING, WORKING | FAILED, FAILED => true
    | _, _ => false
    end.
End MonitorStatus.

Module EventType.
Inductive t :=
    INVALID | WORKING | NO_RESPONSE | CONTENT_CHANGED | KEYWORDS | SSL_CERTIFICATE.
Definition eqb (a b : t) : bool :=
    match a, b with
    | INVALID, INVALID | WORKING, WORKING | NO_RESPONSE, NO_RESPONSE
    | CONTENT_CHANGED, CONTENT_CHANGED | KEYWORDS, KEYWORDS
    | SSL_CERTIFICATE, SSL_CERTIFICATE => true
    | _, _ => false
    end.
End EventType.

Module Status.
Inductive t := ALL_UNKNOWN | ACTIVE | INACTIVE | DEFUNCT.
Definition code (s : t) : Z :=
    match s with ALL_UNKNOWN => 0 | ACTIVE => 1 | INACTIVE => 2 | DEFUNCT => 3 end.
End Status.

#[global] Instance MonitorStatus_eq_dec : EqDecision MonitorStatus.t.
Proof. solve_decision. Defined.
#[global] Instance EventType_eq_dec : EqDecision EventType.t.
Proof. solve_decision. Defined.
#[global] Instance byte_eq_dec : EqDecision byte.
Proof. intros a b. destruct (Byte.eqb a b) eqn:E.
  - left. by apply Byte.byte_dec_bl.
  - right. intros ->. rewrite Byte.byte_dec_lb in E; done.
Defined.

(** ** Undefined behaviour and the state monad of the model *)

Inductive Fault :=
  | DerefEnd        (* an end() iterator dereferenced or incremented *)
  | DerefSingular   (* a default-constructed iterator used *)
  | UseAfterFree    (* a deleted object, or an iterator to an erased node, used *)
  | NullDeref       (* a null pointer dereferenced *)
  | DoubleFree      (* delete of an object already deleted *)
  | DivideByZero
  | LoopBound.      (* a loop ran past the bound the model gives it *)

Inductive Result (A : Type) :=
  | Ok (a : A)
  | Crash (f : Fault).
Arguments Ok {A} a.
Arguments Crash {A} f.

Definition M (S A : Type) : Type := S -> Result (A * S).

#[global] Instance M_ret {S} : MRet (M S) := fun A a s => Ok (a, s).
#[global] Instance M_bind {S} : MBind (M S) := fun A B f m s =>
  match m s with
  | Ok (a, s') => f a s'
  | Crash e => Crash e
  end.

Definition get {S} : M S S := fun s => Ok (s, s).
Definition modify {S} (f : S -> S) : M S unit := fun s => Ok (tt, f s).
Definition crash {S A} (e : Fault) : M S A := fun _ => Crash e.
Definition liftR {S A} (r : Result A) : M S A := fun s =>
  match r with Ok a => Ok (a, s) | Crash e => Crash e end.
Definition when {S} (b : bool) (m : M S unit) : M S unit :=
  if b then m else mret tt.

(** The state a run ends in, when it returns. *)
Definition finalState {S A} (r : Result (A * S)) : option S :=
  match r with
  | Ok (_, s) => Some s
  | Crash _ => None
  end.

(** ** Iterators into [QHash] and [QSet] *)

Inductive Cursor (K : Type) :=
  | Singular
  | AtEnd
  | At (k : K).
Arguments Singular {K}.
Arguments AtEnd {K}.
Arguments At {K} k.

Section Cursors.
Context {K : Type} `{EqDecision K}.

  (** [begin()] of a container whose elements are iterated in [order]. *)
Definition cbegin (order : list K) : Cursor K :=
    match order with
    | [] => AtEnd
    | k :: _ => At k
    end.

  (** [it == end()]. *)
Definition is_end (c : Cursor K) : bool :=
    match c with AtEnd => true | _ => false end.

  (** The position after [k], when [k] is in the container. *)
Fixpoint after (k : K) (order : list K) : option (Cursor K) :=
    match order with
    | [] => None
    | x :: rest => if decide (x = k) then Some (cbegin rest) else after k rest
    end.

  (** [++it]. *)
Definition cnext (order : list K) (c : Cursor K) : Result (Cursor K) :=
    match c with
    | Singular => Crash DerefSingular
    | AtEnd => Crash DerefEnd
    | At k => match after k order with
              | Some c' => Ok c'
              | None => Crash UseAfterFree
              end
    end.

  (** The key an iterator designates ([*it], [it.key()]). *)
Definition ckey (order : list K) (c : Cursor K) : Result K :=
    match c with
    | Singular => Crash DerefSingular
    | AtEnd => Crash DerefEnd
    | At k => if decide (k ∈ order) then Ok k else Crash UseAfterFree
    end.

  (** The idiom [if (it == c.end()) it = c.begin();]. *)
Definition wrap_to_begin (order : list K) (c : Cursor K) : Cursor K :=
    if is_end c then cbegin order else c.
End Cursors.

(** ** Objects of the probe engine ([monitor.h], [host_scheme.h], [customer.h]) *)

Definition ptr : Type := positive.

Record Monitor := mkMonitor {
  currentMonitorId : Z;
  currentPath : QString;
  currentMethod : Method.t;
  currentContentCheckMode : ContentCheckMode.t;
  currentKeywords : list QByteArray;
  currentContentType : ContentType.t;
  currentUserAgent : QByteArray;
  currentPostContent : QByteArray;
  currentMonitorStatus : MonitorStatus.t;
  pendingReply : option ptr;         (* [nullptr] is [None] *)
  lastHash : QByteArray;
  startTimestamp : Z;
  hasHostScheme : bool               (* [parent() != nullptr] *)
}.

Definition setMonitorStatus (s : MonitorStatus.t) (m : Monitor) : Monitor :=
  mkMonitor (currentMonitorId m) (currentPath m) (currentMethod m)
    (currentContentCheckMode m) (currentKeywords m) (currentContentType m)
    (currentUserAgent m) (currentPostContent m) s (pendingReply m)
    (lastHash m) (startTimestamp m) (hasHostScheme m).
Definition setPendingReply (r : option ptr) (m : Monitor) : Monitor :=
  mkMonitor (currentMonitorId m) (currentPath m) (currentMethod m)
    (currentContentCheckMode m) (currentKeywords m) (currentContentType m)
    (currentUserAgent m) (currentPostContent m) (currentMonitorStatus m) r
    (lastHash m) (startTimestamp m) (hasHostScheme m).
Definition setLastHash (h : QByteArray) (m : Monitor) : Monitor :=
  mkMonitor (currentMonitorId m) (currentPath m) (currentMethod m)
    (currentContentCheckMode m) (currentKeywords m) (currentContentType m)
    (currentUserAgent m) (currentPostContent m) (currentMonitorStatus m)
    (pendingReply m) h (startTimestamp m) (hasHostScheme m).
Definition setStartTimestamp (t : Z) (m : Monitor) : Monitor :=
  mkMonitor (currentMonitorId m) (currentPath m) (currentMethod m)
    (currentContentCheckMode m) (currentKeywords m) (currentContentType m)
    (currentUserAgent m) (currentPostContent m) (currentMonitorStatus m)
    (pendingReply m) (lastHash m) t (hasHostScheme m).
Definition setParent (b : bool) (m : Monitor) : Monitor :=
  mkMonitor (currentMonitorId m) (currentPath m) (currentMethod m)
    (currentContentCheckMode m) (currentKeywords m) (currentContentType m)
    (currentUserAgent m) (currentPostContent m) (currentMonitorStatus m)
    (pendingReply m) (lastHash m) (startTimestamp m) b.

Record HostScheme := mkHostScheme {
  currentHostSchemeId : Z;
  currentUrl : QString;
  currentSslExpirationTimestamp : Z;
  currentNetworkAccessManager : bool;            (* non-null *)
  monitorsByMonitorId : gmap Z ptr;
  monitorIterator : Cursor Z;
  nonResponsiveMonitors : gset ptr;
  nonResponsiveMonitorsIterator : Cursor ptr
}.

Definition invalidSslExpirationTimestamp : Z := 0.

(** [HostScheme::HostScheme]: no monitors; the constructor sets the
    iterator into the set of non-responsive monitors to [end()] and leaves
    [monitorIterator] default-constructed. *)
Definition newHostScheme (hostSchemeId : Z) (url : QString) : HostScheme :=
  mkHostScheme hostSchemeId url invalidSslExpirationTimestamp false ∅ Singular ∅ AtEnd.

Record Customer := mkCustomer {
  currentCustomerId : Z;
  currentSupportsPingTesting : bool;
  currentSupportsSslExpirationChecking : bool;
  currentSupportsLatencyMeasurements : bool;
  currentSupportsMultiRegionTesting : bool;
  currentPollingInterval : Z;
  currentlyPaused : bool
}.

(** What the monitor hands to a [QNetworkAccessManager]. *)
Record Request := mkRequest {
  reqMethod : Method.t;
  reqBaseUrl : QString;
  reqPath : QString;
  reqRawHeaders : list (QByteArray * QByteArray);
  reqUserAgent : QByteArray;
  reqContentType : option QByteArray;
  reqContentLength : Z;
  reqTransferTimeout : option Z;
  reqBody : option QByteArray
}.

(** What a finished [QNetworkReply] holds. *)
Record Reply := mkReply {
  replyError : option QString;       (* [None] is [NoError] *)
  replyBody : QByteArray;
  replyCertificateExpiry : option Z  (* peer certificate [expiryDate()], when there is one *)
}.

(** The arguments of [DataAggregator::reportEvent]. *)
Record Event := mkEvent {
  evMonitorId : Z;
  evTimestamp : Z;
  evType : EventType.t;
  evMonitorStatus : MonitorStatus.t;
  evHash : QByteArray;
  evMessage : QString
}.

(** One host/scheme with its customer, its monitors, and what the engine
    has sent to the network and to the data aggregator. *)
Record World := mkWorld {
  monitors : gmap ptr Monitor;                 (* the live [Monitor] objects *)
  replies : gset ptr;                          (* the live [QNetworkReply] objects *)
  nextReply : ptr;                             (* allocator of reply objects *)
  hostScheme : HostScheme;
  customer : option Customer;                  (* [hostScheme->parent()] *)
  currentDefaultHeaders : list (QByteArray * QByteArray);
  clock : Z;                                   (* [QDateTime::currentSecsSinceEpoch()] *)
  sentRequests : list (ptr * ptr * Request);   (* monitor, reply, request *)
  reportedEvents : list Event;
  recordedLatencies : list (Z * Z * Z);        (* monitor id, Unix timestamp, microseconds *)
  reportedCertificates : list (Z * Z * Z)      (* monitor id, host/scheme id, expiry *)
}.

Definition withMonitors (f : gmap ptr Monitor -> gmap ptr Monitor) (w : World) : World :=
  mkWorld (f (monitors w)) (replies w) (nextReply w) (hostScheme w) (customer w)
    (currentDefaultHeaders w) (clock w) (sentRequests w) (reportedEvents w)
    (recordedLatencies w) (reportedCertificates w).
Definition withReplies (f : gset ptr -> gset ptr) (w : World) : World :=
  mkWorld (monitors w) (f (replies w)) (nextReply w) (hostScheme w) (customer w)
    (currentDefaultHeaders w) (clock w) (sentRequests w) (reportedEvents w)
    (recordedLatencies w) (reportedCertificates w).
Definition withNextReply (r : ptr) (w : World) : World :=
  mkWorld (monitors w) (replies w) r (hostScheme w) (customer w)
    (currentDefaultHeaders w) (clock w) (sentRequests w) (reportedEvents w)
    (recordedLatencies w) (reportedCertificates w).
Definition withHostScheme (f : HostScheme -> HostScheme) (w : World) : World :=
  mkWorld (monitors w) (replies w) (nextReply w) (f (hostScheme w)) (customer w)
    (currentDefaultHeaders w) (clock w) (sentRequests w) (reportedEvents w)
    (recordedLatencies w) (reportedCertificates w).
Definition withSentRequests (f : list (ptr * ptr * Request) -> list (ptr * ptr * Request))
    (w : World) : World :=
  mkWorld (monitors w) (replies w) (nextReply w) (hostScheme w) (customer w)
    (currentDefaultHeaders w) (clock w) (f (sentRequests w)) (reportedEvents w)
    (recordedLatencies w) (reportedCertificates w).
Definition withReportedEvents (f : list Event -> list Event) (w : World) : World :=
  mkWorld (monitors w) (replies w) (nextReply w) (hostScheme w) (customer w)
    (currentDefaultHeaders w) (clock w) (sentRequests w) (f (reportedEvents w))
    (recordedLatencies w) (reportedCertificates w).
Definition withRecordedLatencies (f : list (Z * Z * Z) -> list (Z * Z * Z)) (w : World) : World :=
  mkWorld (monitors w) (replies w) (nextReply w) (hostScheme w) (customer w)
    (currentDefaultHeaders w) (clock w) (sentRequests w) (reportedEvents w)
    (f (recordedLatencies w)) (reportedCertificates w).
Definition withReportedCertificates (f : list (Z * Z * Z) -> list (Z * Z * Z)) (w : World) : World :=
  mkWorld (monitors w) (replies w) (nextReply w) (hostScheme w) (customer w)
    (currentDefaultHeaders w) (clock w) (sentRequests w) (reportedEvents w)
    (recordedLatencies w) (f (reportedCertificates w)).

Definition setMonitorIterator (c : Cursor Z) (h : HostScheme) : HostScheme :=
  mkHostScheme (currentHostSchemeId h) (currentUrl h) (currentSslExpirationTimestamp h)
    (currentNetworkAccessManager h) (monitorsByMonitorId h) c
    (nonResponsiveMonitors h) (nonResponsiveMonitorsIterator h).
Definition setNonResponsiveMonitorsIterator (c : Cursor ptr) (h : HostScheme) : HostScheme :=
  mkHostScheme (currentHostSchemeId h) (currentUrl h) (currentSslExpirationTimestamp h)
    (currentNetworkAccessManager h) (monitorsByMonitorId h) (monitorIterator h)
    (nonResponsiveMonitors h) c.
Definition setMonitorsByMonitorId (m : gmap Z ptr) (h : HostScheme) : HostScheme :=
  mkHostScheme (currentHostSchemeId h) (currentUrl h) (currentSslExpirationTimestamp h)
    (currentNetworkAccessManager h) m (monitorIterator h)
    (nonResponsiveMonitors h) (nonResponsiveMonitorsIterator h).
Definition setNonResponsiveMonitors (s : gset ptr) (h : HostScheme) : HostScheme :=
  mkHostScheme (currentHostSchemeId h) (currentUrl h) (currentSslExpirationTimestamp h)
    (currentNetworkAccessManager h) (monitorsByMonitorId h) (monitorIterator h)
    s (nonResponsiveMonitorsIterator h).
Definition setSslExpirationTimestamp (t : Z) (h : HostScheme) : HostScheme :=
  mkHostScheme (currentHostSchemeId h) (currentUrl h) t
    (currentNetworkAccessManager h) (monitorsByMonitorId h) (monitorIterator h)
    (nonResponsiveMonitors h) (nonResponsiveMonitorsIterator h).

(** ** Library routines the engine calls but does not define *)

Class External := {
  (** [QCryptographicHash(Sha256)]: the digest of all the data added. *)
  Sha256 : QByteArray -> QByteArray;
  (** [HtmlScrubber::Hasher]: the digest after [scrubAndHash()] of the body
      (first argument) and [addData] of the second. *)
  HtmlScrubberHash : QByteArray -> QByteArray -> QByteArray;
  (** [QString::fromUtf8]. *)
  fromUtf8 : QByteArray -> QString
}.

(** ** [Monitor] and [HostScheme] ([monitor.cpp], [host_scheme.cpp]) *)

Definition transferTimeout : Z := 60000.
Definition maximumAllowedLatencyMicroseconds : Z := 1000 * transferTimeout.
Definition defaultUserAgent : QByteArray := bytes_of_string "InesonicBot".
Definition defaultUserAgentHeaderString : QByteArray := bytes_of_string "user-agent".
Definition textPlainContentType : QByteArray := bytes_of_string "text/plain".
Definition applicationJsonContentType : QByteArray := bytes_of_string "application/json".
Definition applicationXmlContentType : QByteArray := bytes_of_string "application/xml".

Definition doubleQuote : string := String (ascii_of_nat 34) EmptyString.

(** [QString("Missing keyword \"%1\"").arg(missingKeyword)]. *)
Definition missingKeywordMessage (missingKeyword : QString) : QString :=
  ("Missing keyword " ++ doubleQuote ++ missingKeyword ++ doubleQuote)%string.

Definition getMonitor (this : ptr) : M World Monitor := fun w =>
  match monitors w !! this with
  | Some m => Ok (m, w)
  | None => Crash UseAfterFree
  end.

Definition updateMonitor (this : ptr) (f : Monitor -> Monitor) : M World unit :=
  modify (withMonitors (alter f this)).

Definition getHostScheme : M World HostScheme := fun w => Ok (hostScheme w, w).

(** [static_cast<Customer*>(hostScheme->parent())], dereferenced. *)
Definition getCustomer : M World Customer := fun w =>
  match customer w with
  | Some c => Ok (c, w)
  | None => Crash NullDeref
  end.

Definition currentSecsSinceEpoch : M World Z := fun w => Ok (clock w, w).

(** [DataAggregator::reportEvent]. *)
Definition reportEvent (monitorId timestamp : Z) (eventType : EventType.t)
    (monitorStatus : MonitorStatus.t) (hash : QByteArray) (message : QString)
    : M World unit :=
  modify (withReportedEvents
            (fun l => l ++ [mkEvent monitorId timestamp eventType monitorStatus hash message])).

(** [DataAggregator::recordLatency], seen from the monitor. *)
Definition recordLatencySample (monitorId timestamp latency : Z) : M World unit :=
  modify (withRecordedLatencies (fun l => l ++ [(monitorId, timestamp, latency)])).

Definition reportSslCertificateExpirationChange (monitorId hostSchemeId expiry : Z)
    : M World unit :=
  modify (withReportedCertificates (fun l => l ++ [(monitorId, hostSchemeId, expiry)])).

(** The header loop of [Monitor::startCheck]: the user agent that the
    default headers select, and the raw headers set on the request. *)
Fixpoint headerLoop (headers : list (QByteArray * QByteArray))
    (userAgent : QByteArray) (raw : list (QByteArray * QByteArray))
    : QByteArray * list (QByteArray * QByteArray) :=
  match headers with
  | [] => (userAgent, raw)
  | (k, v) :: rest =>
      if decide (k = defaultUserAgentHeaderString)
      then headerLoop rest v raw
      else headerLoop rest userAgent (raw ++ [(k, v)])
  end.

Definition bodyless (m : Method.t) : bool :=
  match m with
  | Method.GET | Method.HEAD | Method.DELETE | Method.OPTIONS => true
  | _ => false
  end.

Definition contentTypeBytes (c : ContentType.t) : QByteArray :=
  match c with
  | ContentType.TEXT => textPlainContentType
  | ContentType.JSON => applicationJsonContentType
  | ContentType.XML => applicationXmlContentType
  end.

Definition buildRequest (m : Monitor) (hs : HostScheme)
    (headers : list (QByteArray * QByteArray)) : Request :=
  let '(userAgent, raw) := headerLoop headers defaultUserAgent [] in
  if bodyless (currentMethod m) then
    mkRequest (currentMethod m) (currentUrl hs) (currentPath m) raw userAgent
      None 0 None None
  else
    mkRequest (currentMethod m) (currentUrl hs) (currentPath m) raw
      (match currentUserAgent m with [] => userAgent | _ => currentUserAgent m end)
      (Some (contentTypeBytes (currentContentType m)))
      (Z.of_nat (length (currentPostContent m)))
      (Some transferTimeout)
      (Some (currentPostContent m)).

(** [Monitor::startCheck]. *)
Definition startCheck (this : ptr) : M World unit :=
  m ← getMonitor this;
  match pendingReply m with
  | Some _ => mret tt
  | None =>
      if hasHostScheme m then
        hs ← getHostScheme;
        c ← getCustomer;
        if currentlyPaused c then mret tt
        else
          headers ← (fun w => Ok (currentDefaultHeaders w, w));
          t ← currentSecsSinceEpoch;
          if currentNetworkAccessManager hs then
            r ← (fun w => Ok (nextReply w, w));
            modify (withNextReply (Pos.succ r));;
            modify (withReplies (union {[ r ]}));;
            modify (withSentRequests (fun l => l ++ [(this, r, buildRequest m hs headers)]));;
            updateMonitor this (fun m => setPendingReply (Some r) (setStartTimestamp t m))
          else crash NullDeref
      else
        updateMonitor this (setLastHash [])
  end.

(** [Monitor::abort]. *)
Definition abort (this : ptr) : M World unit :=
  m ← getMonitor this;
  match pendingReply m with
  | Some r =>
      (* delete pendingReply; *)
      (fun w => if decide (r ∈ replies w)
                then Ok (tt, withReplies (fun s => s ∖ {[ r ]}) w)
                else Crash DoubleFree)
  | None => mret tt
  end;;
  updateMonitor this (setMonitorStatus MonitorStatus.UNKNOWN).

(** [HostScheme::monitorNonResponsive]. *)
Definition monitorNonResponsive (monitor : ptr) : M World unit :=
  hs ← getHostScheme;
  if decide (nonResponsiveMonitors hs = ∅) then
    modify (withHostScheme (fun h =>
      let s := {[ monitor ]} ∪ nonResponsiveMonitors h in
      setNonResponsiveMonitorsIterator (cbegin (elements s)) (setNonResponsiveMonitors s h)))
  else
    modify (withHostScheme (fun h =>
      setNonResponsiveMonitors ({[ monitor ]} ∪ nonResponsiveMonitors h) h)).

(** The removal with which [HostScheme::monitorNowResponsive] and
    [HostScheme::monitorAboutToBeRemoved] take a monitor out of the set of
    non-responsive monitors, keeping the iterator usable. *)
Definition eraseNonResponsive (monitor : ptr) : M World unit :=
  hs ← getHostScheme;
  let s := nonResponsiveMonitors hs in
  let it := nonResponsiveMonitorsIterator hs in
  atMonitor ← (if is_end it then mret false
               else p ← liftR (ckey (elements s) it); mret (bool_decide (p = monitor)));
  if atMonitor : bool then
    (* it = set.erase(it); if (it == end && !empty) it = begin; *)
    it' ← liftR (cnext (elements s) it);
    let s' := s ∖ {[ monitor ]} in
    let it'' := if is_end it' && negb (bool_decide (s' = ∅))
                then cbegin (elements s') else it' in
    modify (withHostScheme (fun h =>
      setNonResponsiveMonitorsIterator it'' (setNonResponsiveMonitors s' h)))
  else
    modify (withHostScheme (setNonResponsiveMonitors (s ∖ {[ monitor ]}))).

(** [HostScheme::monitorNowResponsive]. *)
Definition monitorNowResponsive (monitor : ptr) : M World unit :=
  eraseNonResponsive monitor;;
  hs ← getHostScheme;
  let s := nonResponsiveMonitors hs in
  if decide (s = ∅) then mret tt
  else
    nextMonitorToTest ← liftR (ckey (elements s) (cbegin (elements s)));
    it ← liftR (cnext (elements s) (nonResponsiveMonitorsIterator hs));
    modify (withHostScheme
              (setNonResponsiveMonitorsIterator (wrap_to_begin (elements s) it)));;
    startCheck nextMonitorToTest.

(** [HostScheme::monitorAdded]; the customer's flattened index of
    monitors, which the call goes on to update, is outside the model. *)
Definition monitorAdded (monitor : ptr) : M World unit :=
  m ← getMonitor monitor;
  hs ← getHostScheme;
  let isFirstMonitor := bool_decide (monitorsByMonitorId hs = ∅) in
  let byId := <[ currentMonitorId m := monitor ]> (monitorsByMonitorId hs) in
  let isFirstNonResponsiveMonitor := bool_decide (nonResponsiveMonitors hs = ∅) in
  let s := {[ monitor ]} ∪ nonResponsiveMonitors hs in
  modify (withHostScheme (fun h =>
    setNonResponsiveMonitors s (setMonitorsByMonitorId byId h)));;
  when isFirstMonitor
    (modify (withHostScheme (setMonitorIterator (cbegin (map_to_list byId).*1))));;
  when isFirstNonResponsiveMonitor
    (modify (withHostScheme (setNonResponsiveMonitorsIterator (cbegin (elements s))))).

(** [HostScheme::addMonitor]. *)
Definition addMonitor (monitor : ptr) : M World unit :=
  _ ← getMonitor monitor;
  updateMonitor monitor (setParent true);;
  monitorAdded monitor.

(** [Monitor::Monitor]: a new object, [UNKNOWN], with no reply pending,
    registered with the host/scheme when one is given. *)
Definition newMonitor (monitorId : Z) (path : QString) (method : Method.t)
    (contentCheckMode : ContentCheckMode.t) (keywords : list QByteArray)
    (contentType : ContentType.t) (userAgent postContent : QByteArray)
    (withHost : bool) : M World ptr :=
  w ← get;
  let this := fresh (dom (monitors w)) in
  modify (withMonitors
    (insert this (mkMonitor monitorId path method contentCheckMode keywords
                    contentType userAgent postContent MonitorStatus.UNKNOWN
                    None [] 0 false)));;
  when withHost (updateMonitor this (setParent true);; monitorAdded this);;
  mret this.

(** [HostScheme::serviceNextMonitor]. *)
Definition serviceNextMonitor : M World unit :=
  hs ← getHostScheme;
  let byId := monitorsByMonitorId hs in
  let order := (map_to_list byId).*1 in
  let it := wrap_to_begin order (monitorIterator hs) in
  (* Monitor* monitor = monitorIterator.value(); *)
  k ← liftR (ckey order it);
  monitor ← match byId !! k with Some p => mret p | None => crash UseAfterFree end;
  it ← liftR (cnext order it);
  modify (withHostScheme (setMonitorIterator (wrap_to_begin order it)));;
  let s := nonResponsiveMonitors hs in
  if decide (s = ∅) then startCheck monitor
  else
    let sit := wrap_to_begin (elements s) (nonResponsiveMonitorsIterator hs) in
    nonResponsiveMonitor ← liftR (ckey (elements s) sit);
    sit ← liftR (cnext (elements s) sit);
    modify (withHostScheme
              (setNonResponsiveMonitorsIterator (wrap_to_begin (elements s) sit)));;
    startCheck monitor;;
    when (negb (bool_decide (monitor = nonResponsiveMonitor)))
      (startCheck nonResponsiveMonitor).

(** *** Content checks *)

(** The state of the keyword loops: the index [i], the flag [success],
    the data added to the hash so far, and the missing keyword. *)
Record KeywordLoop := mkKeywordLoop {
  loopIndex : nat;
  loopSuccess : bool;
  loopHashData : QByteArray;
  loopMissingKeyword : QString
}.

Section ContentChecks.
Context `{External}.

(** [Monitor::checkContentChange]. *)
Definition checkContentChange (this : ptr) (receivedData : QByteArray) : M World unit :=
  m ← getMonitor this;
  let hash := le32 (currentMonitorId m) ++ receivedData in
  match lastHash m with
  | [] => updateMonitor this (setLastHash (Sha256 hash))
  | _ =>
      let thisHash := Sha256 hash in
      if decide (lastHash m = thisHash) then mret tt
      else
        t ← currentSecsSinceEpoch;
        reportEvent (currentMonitorId m) t EventType.CONTENT_CHANGED
          (currentMonitorStatus m) thisHash "";;
        updateMonitor this (setLastHash thisHash)
  end.

(** The body and the condition of the loop of [Monitor::checkAnyKeywordMatch]. *)
Definition anyKeywordBody (keywords : list QByteArray) (receivedData : QByteArray)
    (s : KeywordLoop) : KeywordLoop :=
  let keyword := nth (loopIndex s) keywords [] in
  let success := contains receivedData keyword in
  mkKeywordLoop (S (loopIndex s)) success
    (if success then loopHashData s ++ keyword else loopHashData s)
    (loopMissingKeyword s).

Definition anyKeywordCond (numberKeywords : nat) (s : KeywordLoop) : bool :=
  negb (loopSuccess s) && bool_decide (loopIndex s < numberKeywords)%nat.

(** The body and the condition of the loop of [Monitor::checkAllKeywordMatch]. *)
Definition allKeywordBody (keywords : list QByteArray) (receivedData : QByteArray)
    (s : KeywordLoop) : KeywordLoop :=
  let keyword := nth (loopIndex s) keywords [] in
  let success := contains receivedData keyword in
  if success
  then mkKeywordLoop (S (loopIndex s)) true (loopHashData s ++ keyword)
         (loopMissingKeyword s)
  else mkKeywordLoop (loopIndex s) false (loopHashData s)
         (fromUtf8 (nth (loopIndex s) keywords [])).

Definition allKeywordCond (numberKeywords : nat) (s : KeywordLoop) : bool :=
  loopSuccess s && bool_decide (loopIndex s < numberKeywords)%nat.

(** The keyword scan of [checkAnyKeywordMatch]: the hash is seeded with
    the monitor id and the received data, and the loop runs at most once
    per keyword. *)
Definition anyKeywordScan (m : Monitor) (receivedData : QByteArray) : option KeywordLoop :=
  let numberKeywords := length (currentKeywords m) in
  do_while (anyKeywordBody (currentKeywords m) receivedData)
    (anyKeywordCond numberKeywords) numberKeywords
    (mkKeywordLoop 0 false (le32 (currentMonitorId m) ++ receivedData) "").

Definition allKeywordScan (m : Monitor) (receivedData : QByteArray) : option KeywordLoop :=
  let numberKeywords := length (currentKeywords m) in
  do_while (allKeywordBody (currentKeywords m) receivedData)
    (allKeywordCond numberKeywords) numberKeywords
    (mkKeywordLoop 0 true (le32 (currentMonitorId m) ++ receivedData) "").

(** [Monitor::checkAnyKeywordMatch]. *)
Definition checkAnyKeywordMatch (this : ptr) (receivedData : QByteArray) : M World unit :=
  m ← getMonitor this;
  if bool_decide (0 < length (currentKeywords m))%nat then
    match anyKeywordScan m receivedData with
    | None => crash LoopBound
    | Some s =>
        let thisHash := Sha256 (loopHashData s) in
        when (negb (loopSuccess s) && negb (bool_decide (lastHash m = thisHash)))
          (t ← currentSecsSinceEpoch;
           reportEvent (currentMonitorId m) t EventType.KEYWORDS
             (currentMonitorStatus m) thisHash "");;
        updateMonitor this (setLastHash thisHash)
    end
  else mret tt.

(** [Monitor::checkAllKeywordMatch]. *)
Definition checkAllKeywordMatch (this : ptr) (receivedData : QByteArray) : M World unit :=
  m ← getMonitor this;
  if bool_decide (0 < length (currentKeywords m))%nat then
    match allKeywordScan m receivedData with
    | None => crash LoopBound
    | Some s =>
        let thisHash := Sha256 (loopHashData s) in
        when (negb (loopSuccess s) && negb (bool_decide (lastHash m = thisHash)))
          (t ← currentSecsSinceEpoch;
           reportEvent (currentMonitorId m) t EventType.KEYWORDS
             (currentMonitorStatus m) thisHash
             (missingKeywordMessage (loopMissingKeyword s)));;
        updateMonitor this (setLastHash thisHash)
    end
  else mret tt.

(** [Monitor::checkContentChangeSmart]. *)
Definition checkContentChangeSmart (this : ptr) (receivedData : QByteArray) : M World unit :=
  m ← getMonitor this;
  let hash := HtmlScrubberHash receivedData (le32 (currentMonitorId m)) in
  match lastHash m with
  | [] => updateMonitor this (setLastHash hash)
  | _ =>
      if decide (lastHash m = hash) then mret tt
      else
        t ← currentSecsSinceEpoch;
        reportEvent (currentMonitorId m) t EventType.CONTENT_CHANGED
          (currentMonitorStatus m) hash "";;
        updateMonitor this (setLastHash hash)
  end.

(** [Monitor::processValidResponse]. *)
Definition processValidResponse (this : ptr) (elapsedTimeNanoseconds : Z)
    (reply : Reply) : M World unit :=
  m ← getMonitor this;
  when (negb (bool_decide (currentMonitorStatus m = MonitorStatus.WORKING)))
    ((if hasHostScheme m then monitorNowResponsive this else crash NullDeref);;
     t ← currentSecsSinceEpoch;
     reportEvent (currentMonitorId m) t EventType.WORKING (currentMonitorStatus m) [] "");;
  updateMonitor this (setMonitorStatus MonitorStatus.WORKING);;
  match currentContentCheckMode m with
  | ContentCheckMode.NO_CHECK => mret tt
  | ContentCheckMode.CONTENT_MATCH => checkContentChange this (replyBody reply)
  | ContentCheckMode.ANY_KEYWORDS => checkAnyKeywordMatch this (replyBody reply)
  | ContentCheckMode.ALL_KEYWORDS => checkAllKeywordMatch this (replyBody reply)
  | ContentCheckMode.SMART_CONTENT_MATCH => checkContentChangeSmart this (replyBody reply)
  end;;
  (if hasHostScheme m then mret tt else crash NullDeref);;
  c ← getCustomer;
  m' ← getMonitor this;
  when (currentSupportsLatencyMeasurements c)
    (let elapsedTimeMicroseconds := u64 (elapsedTimeNanoseconds + 500) / 1000 in
     when (bool_decide (elapsedTimeMicroseconds <= maximumAllowedLatencyMicroseconds))
       (recordLatencySample (currentMonitorId m) (startTimestamp m')
          elapsedTimeMicroseconds));;
  match replyCertificateExpiry reply with
  | None => mret tt
  | Some expiry =>
      hs ← getHostScheme;
      let newExpirationTimestamp := u64 expiry in
      let oldExpirationTimestamp := currentSslExpirationTimestamp hs in
      when (negb (bool_decide (oldExpirationTimestamp = newExpirationTimestamp)))
        (modify (withHostScheme (setSslExpirationTimestamp newExpirationTimestamp));;
         reportSslCertificateExpirationChange (currentMonitorId m)
           (currentHostSchemeId hs) newExpirationTimestamp)
  end.

(** [Monitor::processErrorResponse]. *)
Definition processErrorResponse (this : ptr) (errorString : QString) : M World unit :=
  m ← getMonitor this;
  when (negb (bool_decide (currentMonitorStatus m = MonitorStatus.FAILED)))
    (t ← currentSecsSinceEpoch;
     reportEvent (currentMonitorId m) t EventType.NO_RESPONSE
       (currentMonitorStatus m) [] errorString;;
     updateMonitor this (setMonitorStatus MonitorStatus.FAILED);;
     (if hasHostScheme m then monitorNonResponsive this else crash NullDeref)).

(** [Monitor::responseReceived], for the reply [reply] that the network
    has completed after [elapsedNanoseconds]. *)
Definition responseReceived (this : ptr) (elapsedNanoseconds : Z) (reply : Reply)
    : M World unit :=
  m ← getMonitor this;
  r ← match pendingReply m with
      | None => crash NullDeref
      | Some r => fun w => if decide (r ∈ replies w) then Ok (r, w) else Crash UseAfterFree
      end;
  match replyError reply with
  | None => processValidResponse this elapsedNanoseconds reply
  | Some errorString => processErrorResponse this errorString
  end;;
  (* pendingReply->deleteLater() takes effect once the slot has returned *)
  modify (withReplies (fun s => s ∖ {[ r ]}));;
  updateMonitor this (setPendingReply None).

End ContentChecks.

(** ** [bit_functions.h] *)

Definition bitReverse32 (v : Z) : Z :=
  let v := u32 (Z.lor (Z.land (Z.shiftr v 1) 0x55555555) (Z.land (Z.shiftl v 1) 0xAAAAAAAA)) in
  let v := u32 (Z.lor (Z.land (Z.shiftr v 2) 0x33333333) (Z.land (Z.shiftl v 2) 0xCCCCCCCC)) in
  let v := u32 (Z.lor (Z.land (Z.shiftr v 4) 0x0F0F0F0F) (Z.land (Z.shiftl v 4) 0xF0F0F0F0)) in
  let v := u32 (Z.lor (Z.land (Z.shiftr v 8) 0x00FF00FF) (Z.land (Z.shiftl v 8) 0xFF00FF00)) in
  u32 (Z.lor (Z.land (Z.shiftr v 16) 0x0000FFFF) (Z.land (Z.shiftl v 16) 0xFFFF0000)).

(** ** [HostSchemeTimer] ([host_scheme_timer.cpp]) *)

(** The [double] arithmetic of the timer, which the model takes from the
    host. *)
Class DoubleArithmetic := {
  Double : Type;
  doubleZero : Double;
  (** [static_cast<unsigned long>(period * (static_cast<double>(key) / 4294967296.0) + 0.5)] *)
  timeOffsetOf : Z -> Z -> Z;
  (** [sum / (1000.0 * count)] *)
  averageMissOf : Z -> Z -> Double
}.

Definition missedTimingMarkResetInterval : Z := 2 * 1000 * 3600.

Record LoadingData `{DoubleArithmetic} := mkLoadingData {
  numberHostSchemes : Z;
  numberMissedTimingMarks : Z;
  averageTimingError : Double
}.
Arguments mkLoadingData {_} _ _ _.

Record HostSchemeTimer `{DoubleArithmetic} := mkHostSchemeTimer {
  currentMultiRegion : bool;
  currentAggregatePeriodSeconds : Z;
  currentPeriodMilliseconds : Z;
  currentRegionIndex : Z;
  currentNumberRegions : Z;
  regionTimeOffsetMilliseconds : Z;
  pollingCycleStartTime : Z;
  nextTimingMarkReset : Z;
  numberMissedTimingWindows : Z;
  sumMillisecondsMissedTimingMarks : Z;
  forceTimerResync : bool;
  currentLoadingData : LoadingData;
  (** [QMap<std::uint32_t, QPointer<HostScheme>>], in ascending key order *)
  hostSchemesByTimeOrder : list (Z * ptr);
  hostSchemeIterator : Cursor Z;
  (** the single-shot [serviceTimer]: its interval while it is active *)
  serviceTimer : option Z
}.
Arguments mkHostSchemeTimer {_} _ _ _ _ _ _ _ _ _ _ _ _ _ _ _.

Section Timer.
Context `{DoubleArithmetic}.

Definition setCycle (it : Cursor Z) (start : Z) (t : HostSchemeTimer) : HostSchemeTimer :=
  mkHostSchemeTimer (currentMultiRegion t) (currentAggregatePeriodSeconds t)
    (currentPeriodMilliseconds t) (currentRegionIndex t) (currentNumberRegions t)
    (regionTimeOffsetMilliseconds t) start (nextTimingMarkReset t)
    (numberMissedTimingWindows t) (sumMillisecondsMissedTimingMarks t)
    (forceTimerResync t) (currentLoadingData t) (hostSchemesByTimeOrder t) it
    (serviceTimer t).

Definition setServiceTimer (interval : option Z) (t : HostSchemeTimer) : HostSchemeTimer :=
  mkHostSchemeTimer (currentMultiRegion t) (currentAggregatePeriodSeconds t)
    (currentPeriodMilliseconds t) (currentRegionIndex t) (currentNumberRegions t)
    (regionTimeOffsetMilliseconds t) (pollingCycleStartTime t) (nextTimingMarkReset t)
    (numberMissedTimingWindows t) (sumMillisecondsMissedTimingMarks t)
    (forceTimerResync t) (currentLoadingData t) (hostSchemesByTimeOrder t)
    (hostSchemeIterator t) interval.

Definition setMissed (reset windows sum : Z) (data : LoadingData) (t : HostSchemeTimer)
    : HostSchemeTimer :=
  mkHostSchemeTimer (currentMultiRegion t) (currentAggregatePeriodSeconds t)
    (currentPeriodMilliseconds t) (currentRegionIndex t) (currentNumberRegions t)
    (regionTimeOffsetMilliseconds t) (pollingCycleStartTime t) reset windows sum
    (forceTimerResync t) data (hostSchemesByTimeOrder t)
    (hostSchemeIterator t) (serviceTimer t).

(** The period and the region offset that the constructor and
    [updateRegionData] compute, in the [unsigned] arithmetic of the source. *)
Definition periodMilliseconds (multiRegion : bool) (period numberRegions : Z) : Z :=
  if multiRegion then u32 (u32 (1000 * period) * numberRegions) else u32 (1000 * period).

Definition regionOffset (periodMs regionIndex numberRegions : Z) : Z :=
  if decide (numberRegions = 0) then 0
  else u64 (periodMs * regionIndex) / numberRegions.

(** [HostSchemeTimer::scheduleNextHostScheme].  [clock] is the reading of
    [QDateTime::currentMSecsSinceEpoch()], a [qint64], which the routine
    converts to [unsigned long long]. *)
Definition scheduleNextHostScheme (clock : Z) : M HostSchemeTimer unit :=
  t ← get;
  key ← liftR (ckey (hostSchemesByTimeOrder t).*1 (hostSchemeIterator t));
  let timeOffset := timeOffsetOf (currentPeriodMilliseconds t) key in
  let nextEvent := u64 (pollingCycleStartTime t + timeOffset) in
  let currentTime := u64 clock in
  (if bool_decide (currentTime < nextEvent)
   then modify (setServiceTimer (Some (nextEvent - currentTime)))
   else
     let missedBy := currentTime - nextEvent in
     when (bool_decide (1 < missedBy))
       (modify (fun t => setMissed (nextTimingMarkReset t)
                           (numberMissedTimingWindows t + 1)
                           (u64 (sumMillisecondsMissedTimingMarks t + missedBy))
                           (currentLoadingData t) t));;
     modify (setServiceTimer (Some 0)));;
  t ← get;
  when (bool_decide (nextTimingMarkReset t < currentTime))
    (let averageMissedTimingMarks :=
       if bool_decide (0 < numberMissedTimingWindows t)
       then averageMissOf (sumMillisecondsMissedTimingMarks t) (numberMissedTimingWindows t)
       else doubleZero in
     modify (setMissed (u64 (nextTimingMarkReset t + missedTimingMarkResetInterval)) 0 0
               (mkLoadingData (Z.of_nat (length (hostSchemesByTimeOrder t)))
                  (numberMissedTimingWindows t) averageMissedTimingMarks))).

(** [HostSchemeTimer::restartTimingCycle]; [clock] is the clock reading
    of the routine itself, a [qint64] converted to [unsigned long long],
    [scheduleClock] the later one of [scheduleNextHostScheme]. *)
Definition restartTimingCycle (clock scheduleClock : Z) : M HostSchemeTimer unit :=
  t ← get;
  let it := cbegin (hostSchemesByTimeOrder t).*1 in
  let currentTime := u64 clock in
  if decide (currentPeriodMilliseconds t = 0) then crash DivideByZero
  else
    let cycleIndex := currentTime / currentPeriodMilliseconds t in
    modify (setCycle it
              (u64 (currentPeriodMilliseconds t * (cycleIndex + 1)
                    + regionTimeOffsetMilliseconds t)));;
    scheduleNextHostScheme scheduleClock.

(** [HostSchemeTimer::startTimer]; [currentTime] is read three times, by
    the routine and by the two it calls. *)
Definition startTimer (currentTime : Z) : M HostSchemeTimer unit :=
  t ← get;
  if bool_decide (0 < currentNumberRegions t)
     && negb (bool_decide (hostSchemesByTimeOrder t = []))
  then
    modify (setMissed (u64 (currentTime + missedTimingMarkResetInterval)) 0 0
              (currentLoadingData t));;
    restartTimingCycle currentTime currentTime
  else mret tt.

(** [HostSchemeTimer::updateRegionData]. *)
Definition updateRegionData (regionIndex numberRegions currentTime : Z)
    : M HostSchemeTimer unit :=
  modify (fun t =>
    let periodMs := periodMilliseconds (currentMultiRegion t)
                      (currentAggregatePeriodSeconds t) numberRegions in
    mkHostSchemeTimer (currentMultiRegion t) (currentAggregatePeriodSeconds t)
      periodMs regionIndex numberRegions
      (regionOffset periodMs regionIndex numberRegions)
      (pollingCycleStartTime t) (nextTimingMarkReset t)
      (numberMissedTimingWindows t) (sumMillisecondsMissedTimingMarks t)
      (match serviceTimer t with Some _ => true | None => forceTimerResync t end)
      (currentLoadingData t) (hostSchemesByTimeOrder t)
      (hostSchemeIterator t) (serviceTimer t));;
  t ← get;
  when (negb (bool_decide (hostSchemesByTimeOrder t = []))) (startTimer currentTime).

End Timer.

(** ** [DataAggregator] ([data_aggregator.h], [data_aggregator.cpp]) *)

Definition startOfZoranEpoch : Z := 1609484400.
Definition maximumReportDelayMilliseconds : Z := 60 * 1000.
Definition maximumNumberPendingEntries : Z := 1000.
Definition retryDelaySeconds : Z := 60.
Definition maximumIdentifierLength : nat := 48.

(** [DataAggregator::LatencyEntry]: the fields as stored. *)
Record LatencyEntry := mkLatencyEntry {
  entryMonitorId : Z;
  entryTimestamp : Z;               (* the Zoran timestamp *)
  entryLatencyMicroseconds : Z
}.

(** The constructor of [LatencyEntry]: the 64-bit difference is stored in
    a 32-bit field. *)
Definition newLatencyEntry (monitorId unixTimestamp latencyMicroseconds : Z) : LatencyEntry :=
  mkLatencyEntry (u32 monitorId) (u32 (u64 (unixTimestamp - startOfZoranEpoch)))
    (u32 latencyMicroseconds).

(** The packed [Header]: sizes and offsets of its fields. *)
Definition spareLength : nat := 64 - (2 + maximumIdentifierLength + 4 + 2 + 2 + 1).
Definition sizeofHeader : nat := 2 + maximumIdentifierLength + 4 + 2 + 2 + 1 + spareLength.
Definition sizeofEntry : nat := 4 + 4 + 4.
Definition offsetIdentifier : nat := 2.
Definition offsetMonitorsPerSecond : nat := offsetIdentifier + maximumIdentifierLength.
Definition offsetCpuLoading : nat := offsetMonitorsPerSecond + 4.
Definition offsetMemoryLoading : nat := offsetCpuLoading + 2.
Definition offsetServerStatusCode : nat := offsetMemoryLoading + 2.

(** A store of [data] into a buffer at byte offset [off]. *)
Definition writeAt (off : nat) (data : QByteArray) (buffer : QByteArray) : QByteArray :=
  take off buffer ++ take (length buffer - off) data ++ drop (off + length data) buffer.

(** What [sendReport] reads from the service thread tracker and from the
    resource monitors, after the conversions of the source:
    [static_cast<std::uint32_t>(monitorsPerSecond() * 256.0)],
    [static_cast<unsigned>(cpuUtilization() * 4096.0)],
    [static_cast<unsigned>(memoryUtilization() * 65536.0)], [status()]. *)
Record Telemetry := mkTelemetry {
  monitorsPerSecond256 : Z;
  cpuUtilization4096 : Z;
  memoryUtilization65536 : Z;
  trackerStatus : Status.t
}.

Record DataAggregator := mkDataAggregator {
  headerTemplate : QByteArray;                         (* the bytes of the [Header] object *)
  latencyEntryList : list LatencyEntry;
  inFlightLatencyEntryList : option (list LatencyEntry);  (* [nullptr] is [None] *)
  reportTimer : option Z;                              (* interval while active *)
  retryTimer : option Z;
  posted : list QByteArray                             (* bodies POSTed to /latency/record *)
}.

Definition setHeaderTemplate (h : QByteArray) (d : DataAggregator) : DataAggregator :=
  mkDataAggregator h (latencyEntryList d) (inFlightLatencyEntryList d)
    (reportTimer d) (retryTimer d) (posted d).
Definition setLists (current : list LatencyEntry) (inFlight : option (list LatencyEntry))
    (d : DataAggregator) : DataAggregator :=
  mkDataAggregator (headerTemplate d) current inFlight (reportTimer d) (retryTimer d)
    (posted d).
Definition setReportTimer (t : option Z) (d : DataAggregator) : DataAggregator :=
  mkDataAggregator (headerTemplate d) (latencyEntryList d) (inFlightLatencyEntryList d)
    t (retryTimer d) (posted d).
Definition setRetryTimer (t : option Z) (d : DataAggregator) : DataAggregator :=
  mkDataAggregator (headerTemplate d) (latencyEntryList d) (inFlightLatencyEntryList d)
    (reportTimer d) t (posted d).
Definition post (message : QByteArray) (d : DataAggregator) : DataAggregator :=
  mkDataAggregator (headerTemplate d) (latencyEntryList d) (inFlightLatencyEntryList d)
    (reportTimer d) (retryTimer d) (posted d ++ [message]).

(** [DataAggregator::configure]: empty lists, idle timers, a zeroed header
    template with [version = 0]. *)
Definition configure : DataAggregator :=
  mkDataAggregator (writeAt 0 (le16 0) (repeat x00 sizeofHeader)) [] None None None [].

(** [DataAggregator::setServerIdentifier], on the UTF-8 bytes of the new
    identifier. *)
Definition setServerIdentifier (rawData : QByteArray) (d : DataAggregator) : DataAggregator :=
  let rawDataLength := length rawData in
  let bytesToCopy :=
    if bool_decide (maximumIdentifierLength < rawDataLength)%nat
    then maximumIdentifierLength else rawDataLength in
  let h := writeAt offsetIdentifier (take bytesToCopy rawData) (headerTemplate d) in
  let h := if bool_decide (bytesToCopy < maximumIdentifierLength)%nat
           then writeAt (offsetIdentifier + bytesToCopy)
                  (repeat x00 (maximumIdentifierLength - bytesToCopy)) h
           else h in
  setHeaderTemplate h d.

(** The signals [triggerReporting(delay)] and [triggerRetry(delay)], which
    start the single-shot timers they are connected to. *)
Definition triggerReporting (delay : Z) : M DataAggregator unit :=
  modify (setReportTimer (Some delay)).
Definition triggerRetry (delay : Z) : M DataAggregator unit :=
  modify (setRetryTimer (Some delay)).

(** [DataAggregator::recordLatency]. *)
Definition recordLatency (monitorId timestamp latency : Z) : M DataAggregator unit :=
  modify (fun d => setLists (latencyEntryList d ++ [newLatencyEntry monitorId timestamp latency])
                     (inFlightLatencyEntryList d) d);;
  d ← get;
  match inFlightLatencyEntryList d with
  | None =>
      if bool_decide (maximumNumberPendingEntries <= Z.of_nat (length (latencyEntryList d)))
      then triggerReporting 0
      else match reportTimer d with
           | None => triggerReporting maximumReportDelayMilliseconds
           | Some _ => mret tt
           end
  | Some _ => mret tt
  end.

(** The bytes of one packed [Entry]. *)
Definition entryBytes (e : LatencyEntry) : QByteArray :=
  le32 (entryMonitorId e) ++ le32 (entryTimestamp e) ++ le32 (entryLatencyMicroseconds e).

(** The loop of [sendReport] that fills the entries, from byte offset
    [off] on. *)
Fixpoint writeEntries (off : nat) (entries : list LatencyEntry) (message : QByteArray)
    : QByteArray :=
  match entries with
  | [] => message
  | e :: rest => writeEntries (off + sizeofEntry) rest (writeAt off (entryBytes e) message)
  end.

(** The message that [DataAggregator::sendReport(const LatencyEntryList&)]
    builds. *)
Definition reportMessage (template : QByteArray) (tel : Telemetry)
    (entries : list LatencyEntry) : QByteArray :=
  let numberLatencyEntries := length entries in
  let message := repeat x00 (sizeofHeader + numberLatencyEntries * sizeofEntry) in
  let message := writeAt 0 (take sizeofHeader template) message in
  let message := writeAt offsetMonitorsPerSecond (le32 (u32 (monitorsPerSecond256 tel))) message in
  let message := writeAt offsetCpuLoading
                   (le16 (Z.min 65535 (u32 (cpuUtilization4096 tel)))) message in
  let message := writeAt offsetMemoryLoading
                   (le16 (Z.min 65535 (u32 (memoryUtilization65536 tel)))) message in
  let message := writeAt offsetServerStatusCode (le8 (Status.code (trackerStatus tel))) message in
  writeEntries sizeofHeader entries message.

Definition sendReport (tel : Telemetry) (entries : list LatencyEntry) : M DataAggregator unit :=
  modify (fun d => post (reportMessage (headerTemplate d) tel entries) d).

(** [DataAggregator::startReportingLatencyData]. *)
Definition startReportingLatencyData (tel : Telemetry) : M DataAggregator unit :=
  d ← get;
  match inFlightLatencyEntryList d with
  | None =>
      modify (setLists [] (Some (latencyEntryList d)));;
      sendReport tel (latencyEntryList d)
  | Some _ => mret tt
  end.

(** [DataAggregator::startRetry]. *)
Definition startRetry (tel : Telemetry) : M DataAggregator unit :=
  d ← get;
  match inFlightLatencyEntryList d with
  | Some inFlight => sendReport tel inFlight
  | None => mret tt
  end.

(** [DataAggregator::processRequestFailed]. *)
Definition processRequestFailed (errorString : QString) : M DataAggregator unit :=
  triggerRetry (1000 * retryDelaySeconds).

(** The reply of the controller as [processResponse] reads it: the JSON
    document is an object whose ["status"] member reads [status] as a
    string, or it is no object. *)
Inductive ResponseDocument :=
  | NotAnObject
  | StatusObject (status : QString).

(** [DataAggregator::processResponse]. *)
Definition processResponse (document : ResponseDocument) (contentType : QString)
    : M DataAggregator unit :=
  if decide (contentType = "application/json"%string) then
    match document with
    | StatusObject status =>
        if decide (status = "OK"%string) then
          d ← get;
          match inFlightLatencyEntryList d with
          | None => crash NullDeref
          | Some _ =>
              modify (setLists (latencyEntryList d) None);;
              let currentNumberEntries := Z.of_nat (length (latencyEntryList d)) in
              if bool_decide (maximumNumberPendingEntries <= currentNumberEntries)
              then triggerReporting 0
              else when (bool_decide (0 < currentNumberEntries))
                     (triggerReporting maximumReportDelayMilliseconds)
          end
        else
          processRequestFailed
            ("Database controller reported " ++ doubleQuote ++ status ++ doubleQuote)%string
    | NotAnObject => processRequestFailed "Expected JSON object."
    end
  else processRequestFailed "Unexpected response content type.".

(** The timers expire: a single-shot timer stops, then its slot runs. *)
Definition reportTimerTimeout (tel : Telemetry) : M DataAggregator unit :=
  modify (setReportTimer None);; startReportingLatencyData tel.
Definition retryTimerTimeout (tel : Telemetry) : M DataAggregator unit :=
  modify (setRetryTimer None);; startRetry tel.

(** The controller fails the request in flight once for each of [tels].
    The retry timer expires after a failure when the failure has armed
    it, and not otherwise, with the telemetry of that moment.  For each
    failure the run notes how the failure left the retry timer and the
    batch in flight. *)
Fixpoint failAndRetry (tels : list Telemetry)
    : M DataAggregator (list (option Z * option (list LatencyEntry))) :=
  match tels with
  | [] => mret []
  | tel :: rest =>
      processRequestFailed "Connection refused";;
      d ← get;
      match retryTimer d with
      | Some _ => retryTimerTimeout tel
      | None => mret tt
      end;;
      others ← failAndRetry rest;
      mret ((retryTimer d, inFlightLatencyEntryList d) :: others)
  end.

(** ** [InboundRestApi::CustomerAdd] ([inbound_rest_api.cpp]) *)

(** [QJsonValue]; a number keeps its value when it is an integer.  The
    members of an object are in key order, the keys distinct. *)
#[local] Set Warnings "-register-all".
Inductive QJsonValue :=
  | JUndefined
  | JNull
  | JBool (b : bool)
  | JNumber (integral : option Z)
  | JString (s : QString)
  | JArray (items : list QJsonValue)
  | JObject (members : list (QString * QJsonValue)).

Definition QJsonObject : Type := list (QString * QJsonValue).

Fixpoint jsonValue (key : QString) (o : QJsonObject) : QJsonValue :=
  match o with
  | [] => JUndefined
  | (k, v) :: rest => if decide (k = key) then v else jsonValue key rest
  end.

Definition jsonContains (key : QString) (o : QJsonObject) : bool :=
  bool_decide (key ∈ o.*1).

Definition jsonIsString (v : QJsonValue) : bool :=
  match v with JString _ => true | _ => false end.
Definition jsonToString (v : QJsonValue) : QString :=
  match v with JString s => s | _ => ""%string end.
Definition jsonToBool (v : QJsonValue) (defaultValue : bool) : bool :=
  match v with JBool b => b | _ => defaultValue end.
Definition jsonToInt (v : QJsonValue) (defaultValue : Z) : Z :=
  match v with
  | JNumber (Some z) =>
      if bool_decide (- 2 ^ 31 <= z < 2 ^ 31) then z else defaultValue
  | _ => defaultValue
  end.

(** The Qt text routines that the handler calls. *)
Class QtText := {
  (** [QString::toUInt(&ok)]: the value when [ok]. *)
  toUInt : QString -> option Z;
  (** [QString::trimmed().toLower()] *)
  trimmedToLower : QString -> QString;
  (** [QString::replace('-', '_')] *)
  dashesToUnderscores : QString -> QString;
  (** [QUrl(urlString).isValid()] *)
  urlIsValid : QString -> bool;
  (** [QByteArray::fromBase64Encoding(s.toUtf8(), AbortOnBase64DecodingErrors)] *)
  fromBase64Encoding : QString -> option QByteArray;
  (** [QString::toUtf8] *)
  toUtf8 : QString -> QByteArray;
  (** [QString::arg] of an unsigned number *)
  number : Z -> QString
}.

(** The trees that the handler builds and hands to the tracker: a customer
    with its host/schemes by id, each with its monitors by id. *)
Record HostSchemeTree := mkHostSchemeTree {
  treeHostSchemeId : Z;
  treeUrl : QString;
  treeMonitors : gmap Z Monitor
}.

Record CustomerTree := mkCustomerTree {
  treeCustomer : Customer;
  treeHostSchemes : gmap Z HostSchemeTree
}.

(** The [bool& success] and [QString& statusString] that the handler
    passes by reference through all its routines. *)
Record Verdict := mkVerdict {
  success : bool;
  statusString : QString
}.

Definition failed (message : QString) : Verdict := mkVerdict false message.

Section CustomerAdd.
Context `{QtText}.

(** [Monitor::toMethod(str, &ok)]: the method and [ok]. *)
Definition toMethod (str : QString) : Method.t * bool :=
  let l := trimmedToLower str in
  if decide (l = "get"%string) then (Method.GET, true)
  else if decide (l = "head"%string) then (Method.HEAD, true)
  else if decide (l = "post"%string) then (Method.POST, true)
  else if decide (l = "put"%string) then (Method.PUT, true)
  else if decide (l = "delete"%string) then (Method.DELETE, true)
  else if decide (l = "options"%string) then (Method.OPTIONS, true)
  else if decide (l = "patch"%string) then (Method.PATCH, true)
  else (Method.GET, false).

Definition toContentCheckMode (str : QString) : ContentCheckMode.t * bool :=
  let l := dashesToUnderscores (trimmedToLower str) in
  if decide (l = "no_check"%string) then (ContentCheckMode.NO_CHECK, true)
  else if decide (l = "content_match"%string) then (ContentCheckMode.CONTENT_MATCH, true)
  else if decide (l = "all_keywords"%string) then (ContentCheckMode.ALL_KEYWORDS, true)
  else if decide (l = "any_keywords"%string) then (ContentCheckMode.ANY_KEYWORDS, true)
  else if decide (l = "smart_content_match"%string)
       then (ContentCheckMode.SMART_CONTENT_MATCH, true)
  else (ContentCheckMode.NO_CHECK, false).

Definition toContentType (str : QString) : ContentType.t * bool :=
  let l := trimmedToLower str in
  if decide (l = "json"%string) then (ContentType.JSON, true)
  else if decide (l = "text"%string) then (ContentType.TEXT, true)
  else if decide (l = "xml"%string) then (ContentType.XML, true)
  else (ContentType.TEXT, false).

(** The keyword loop of [generateMonitor]. *)
Fixpoint keywordsLoop (monitorId : Z) (items : list QJsonValue) (v : Verdict)
    (keywords : list QByteArray) : Verdict * list QByteArray :=
  match items with
  | [] => (v, keywords)
  | item :: rest =>
      if success v then
        match fromBase64Encoding (jsonToString item) with
        | Some decoded => keywordsLoop monitorId rest v (keywords ++ [decoded])
        | None =>
            (failed ("failed, keyword entries should be base64 encoded as per RFC4648, monitor ID "
                     +:+ number monitorId), keywords)
        end
      else (v, keywords)
  end.

(** The state of [generateMonitor] between its field blocks. *)
Record MonitorFields := mkMonitorFields {
  verdict : Verdict;
  numberFields : nat;
  fieldMethod : Method.t;
  fieldContentCheckMode : ContentCheckMode.t;
  fieldContentType : ContentType.t;
  fieldUriString : QString;
  fieldKeywords : list QByteArray;
  fieldUserAgent : QString;
  fieldPostContent : QByteArray
}.

(** [InboundRestApi::CustomerAdd::generateMonitor]. *)
Definition generateMonitor (v : Verdict) (monitorId : Z) (jsonData : QJsonObject)
    : Verdict * option Monitor :=
  let id := number monitorId in
  let s := mkMonitorFields v 0 Method.GET ContentCheckMode.NO_CHECK ContentType.TEXT
             ""%string [] ""%string [] in
  (* "uri" *)
  let s :=
    if jsonContains "uri" jsonData then
      let uriValue := jsonValue "uri" jsonData in
      if jsonIsString uriValue then
        mkMonitorFields (verdict s) (S (numberFields s)) (fieldMethod s)
          (fieldContentCheckMode s) (fieldContentType s) (jsonToString uriValue)
          (fieldKeywords s) (fieldUserAgent s) (fieldPostContent s)
      else
        mkMonitorFields (failed ("failed, uri must be a string, monitor " +:+ id))
          (S (numberFields s)) (fieldMethod s)
          (fieldContentCheckMode s) (fieldContentType s) (fieldUriString s)
          (fieldKeywords s) (fieldUserAgent s) (fieldPostContent s)
    else
      mkMonitorFields
        (failed ("missing required field " +:+ doubleQuote +:+ "uri" +:+ doubleQuote
                 +:+ ", monitor ID " +:+ id))
        (numberFields s) (fieldMethod s)
        (fieldContentCheckMode s) (fieldContentType s) (fieldUriString s)
        (fieldKeywords s) (fieldUserAgent s) (fieldPostContent s) in
  (* "method" *)
  let s :=
    if jsonContains "method" jsonData then
      let methodValue := jsonValue "method" jsonData in
      if jsonIsString methodValue then
        let '(method, ok) := toMethod (jsonToString methodValue) in
        mkMonitorFields
          (if ok then mkVerdict true (statusString (verdict s))
           else failed ("failed, invalid method, use " +:+ doubleQuote +:+ "get" +:+ doubleQuote
                        +:+ " or " +:+ doubleQuote +:+ "post" +:+ doubleQuote
                        +:+ ", monitor ID " +:+ id))
          (S (numberFields s)) method
          (fieldContentCheckMode s) (fieldContentType s) (fieldUriString s)
          (fieldKeywords s) (fieldUserAgent s) (fieldPostContent s)
      else
        mkMonitorFields (failed ("failed, method fields must be a string, monitor ID " +:+ id))
          (S (numberFields s)) (fieldMethod s)
          (fieldContentCheckMode s) (fieldContentType s) (fieldUriString s)
          (fieldKeywords s) (fieldUserAgent s) (fieldPostContent s)
    else s in
  (* "content_check_mode" *)
  let s :=
    if jsonContains "content_check_mode" jsonData then
      let contentCheckModeValue := jsonValue "content_check_mode" jsonData in
      if jsonIsString contentCheckModeValue then
        let '(mode, ok) := toContentCheckMode (jsonToString contentCheckModeValue) in
        mkMonitorFields
          (if ok then mkVerdict true (statusString (verdict s))
           else failed ("failed, invalid content_check_mode, use " +:+ doubleQuote +:+ "no_check"
                        +:+ doubleQuote +:+ ", " +:+ doubleQuote +:+ "content_match" +:+ doubleQuote
                        +:+ ", " +:+ doubleQuote +:+ "all_keywords" +:+ doubleQuote +:+ ", or "
                        +:+ doubleQuote +:+ "any_keywords" +:+ doubleQuote
                        +:+ ", monitor ID " +:+ id))
          (S (numberFields s)) (fieldMethod s) mode (fieldContentType s) (fieldUriString s)
          (fieldKeywords s) (fieldUserAgent s) (fieldPostContent s)
      else
        mkMonitorFields
          (failed ("failed, content_check_mode fields must be a string, monitor ID " +:+ id))
          (S (numberFields s)) (fieldMethod s)
          (fieldContentCheckMode s) (fieldContentType s) (fieldUriString s)
          (fieldKeywords s) (fieldUserAgent s) (fieldPostContent s)
    else s in
  (* "post_content_type" *)
  let s :=
    if jsonContains "post_content_type" jsonData then
      let contentTypeValue := jsonValue "post_content_type" jsonData in
      if jsonIsString contentTypeValue then
        let '(contentType, ok) := toContentType (jsonToString contentTypeValue) in
        mkMonitorFields
          (if ok then mkVerdict true (statusString (verdict s))
           else failed ("failed, invalid post_content_type, use " +:+ doubleQuote +:+ "text"
                        +:+ doubleQuote +:+ ", " +:+ doubleQuote +:+ "json" +:+ doubleQuote
                        +:+ ", or " +:+ doubleQuote +:+ "xml" +:+ doubleQuote
                        +:+ ", monitor ID " +:+ id))
          (S (numberFields s)) (fieldMethod s) (fieldContentCheckMode s) contentType
          (fieldUriString s) (fieldKeywords s) (fieldUserAgent s) (fieldPostContent s)
      else
        mkMonitorFields
          (failed ("failed, post_content_type fields must be a string, monitor ID " +:+ id))
          (S (numberFields s)) (fieldMethod s)
          (fieldContentCheckMode s) (fieldContentType s) (fieldUriString s)
          (fieldKeywords s) (fieldUserAgent s) (fieldPostContent s)
    else s in
  (* "keywords" *)
  let s :=
    if jsonContains "keywords" jsonData then
      match jsonValue "keywords" jsonData with
      | JArray keywordsArray =>
          let '(v', keywords) :=
            keywordsLoop monitorId keywordsArray
              (mkVerdict true (statusString (verdict s))) (fieldKeywords s) in
          mkMonitorFields v' (S (numberFields s)) (fieldMethod s)
            (fieldContentCheckMode s) (fieldContentType s) (fieldUriString s)
            keywords (fieldUserAgent s) (fieldPostContent s)
      | _ =>
          mkMonitorFields
            (failed ("failed, keywords must be an array of RFC4648 base64 encoded values, monitor ID "
                     +:+ id))
            (S (numberFields s)) (fieldMethod s)
            (fieldContentCheckMode s) (fieldContentType s) (fieldUriString s)
            (fieldKeywords s) (fieldUserAgent s) (fieldPostContent s)
      end
    else s in
  (* "post_user_agent" *)
  let s :=
    if jsonContains "post_user_agent" jsonData then
      let userAgentValue := jsonValue "post_user_agent" jsonData in
      if jsonIsString userAgentValue then
        mkMonitorFields (verdict s) (S (numberFields s)) (fieldMethod s)
          (fieldContentCheckMode s) (fieldContentType s) (fieldUriString s)
          (fieldKeywords s) (jsonToString userAgentValue) (fieldPostContent s)
      else
        mkMonitorFields
          (failed ("failed, post_user_agent must be a string, monitor ID " +:+ id))
          (S (numberFields s)) (fieldMethod s)
          (fieldContentCheckMode s) (fieldContentType s) (fieldUriString s)
          (fieldKeywords s) (fieldUserAgent s) (fieldPostContent s)
    else s in
  (* "post_content" *)
  let s :=
    if jsonContains "post_content" jsonData then
      let postContentValue := jsonValue "post_content" jsonData in
      if jsonIsString postContentValue then
        match fromBase64Encoding (jsonToString postContentValue) with
        | Some decoded =>
            mkMonitorFields (verdict s) (S (numberFields s)) (fieldMethod s)
              (fieldContentCheckMode s) (fieldContentType s) (fieldUriString s)
              (fieldKeywords s) (fieldUserAgent s) decoded
        | None =>
            mkMonitorFields
              (failed ("failed, post_user_agent should be base64 encoded as per RFC4648, monitor ID "
                       +:+ id))
              (S (numberFields s)) (fieldMethod s)
              (fieldContentCheckMode s) (fieldContentType s) (fieldUriString s)
              (fieldKeywords s) (fieldUserAgent s) (fieldPostContent s)
        end
      else
        mkMonitorFields
          (failed ("failed, post_user_agent must be a string holding RFC4648 base64 encoded values, monitor ID "
                   +:+ id))
          (S (numberFields s)) (fieldMethod s)
          (fieldContentCheckMode s) (fieldContentType s) (fieldUriString s)
          (fieldKeywords s) (fieldUserAgent s) (fieldPostContent s)
    else s in
  let v :=
    if bool_decide (numberFields s = length jsonData)
    then verdict s
    else failed ("failed, unexpected entries, monitor ID " +:+ id) in
  if success v then
    (v, Some (mkMonitor monitorId (fieldUriString s) (fieldMethod s)
                (fieldContentCheckMode s) (fieldKeywords s) (fieldContentType s)
                (toUtf8 (fieldUserAgent s)) (fieldPostContent s)
                MonitorStatus.UNKNOWN None [] 0 false))
  else (v, None).

End CustomerAdd.

Section CustomerAddTrees.
Context `{QtText}.

(** The monitor loop of [generateHostScheme]. *)
Fixpoint monitorsLoop (members : QJsonObject) (v : Verdict) (result : HostSchemeTree)
    : Verdict * HostSchemeTree :=
  match members with
  | [] => (v, result)
  | (monitorIdString, monitorValue) :: rest =>
      if success v then
        let '(v', result') :=
          match toUInt monitorIdString with
          | Some monitorId =>
              if decide (monitorId = 0) then
                (failed ("failed, invalid monitors ID " +:+ monitorIdString), result)
              else
                match monitorValue with
                | JObject monitorObject =>
                    let '(v1, monitor) :=
                      generateMonitor (mkVerdict true (statusString v)) monitorId monitorObject in
                    match monitor with
                    | Some m =>
                        (* result->addMonitor(monitor) *)
                        (v1, mkHostSchemeTree (treeHostSchemeId result) (treeUrl result)
                               (<[ monitorId := setParent true m ]> (treeMonitors result)))
                    | None => (v1, result)
                    end
                | _ => (failed ("failed, expected object, monitor ID " +:+ number monitorId),
                        result)
                end
          | None => (failed ("failed, invalid monitors ID " +:+ monitorIdString), result)
          end in
        monitorsLoop rest v' result'
      else (v, result)
  end.

(** [InboundRestApi::CustomerAdd::generateHostScheme]. *)
Definition generateHostScheme (v : Verdict) (hostSchemeId : Z) (jsonData : QJsonObject)
    : Verdict * option HostSchemeTree :=
  let id := number hostSchemeId in
  if jsonContains "url" jsonData && jsonContains "monitors" jsonData then
    match jsonValue "monitors" jsonData with
    | JObject monitorsObject =>
        let urlString := jsonToString (jsonValue "url" jsonData) in
        if urlIsValid urlString then
          let '(v', result) :=
            monitorsLoop monitorsObject v (mkHostSchemeTree hostSchemeId urlString ∅) in
          (v', Some result)
        else (failed ("failed, invalid URL, host/scheme " +:+ id), None)
    | _ => (failed ("failed, expected object, host/scheme " +:+ id), None)
    end
  else (failed ("failed, missing required fields, host/scheme " +:+ id), None).

(** The host/scheme loop of [generateCustomer]. *)
Fixpoint hostSchemesLoop (members : QJsonObject) (v : Verdict) (result : CustomerTree)
    : Verdict * CustomerTree :=
  match members with
  | [] => (v, result)
  | (hostSchemeIdString, hostSchemeValue) :: rest =>
      if success v then
        let '(v', result') :=
          match toUInt hostSchemeIdString with
          | Some hostSchemeId =>
              if decide (hostSchemeId = 0) then
                (failed ("failed, invalid host/scheme ID " +:+ hostSchemeIdString), result)
              else
                match hostSchemeValue with
                | JObject hostSchemeObject =>
                    let '(v1, hostScheme) :=
                      generateHostScheme (mkVerdict true (statusString v)) hostSchemeId
                        hostSchemeObject in
                    match hostScheme with
                    | Some h =>
                        (* result->addHostScheme(hostScheme) *)
                        (v1, mkCustomerTree (treeCustomer result)
                               (<[ hostSchemeId := h ]> (treeHostSchemes result)))
                    | None => (v1, result)
                    end
                | _ => (failed ("failed, expected object, host/scheme ID "
                                +:+ number hostSchemeId), result)
                end
          | None => (failed ("failed, invalid host/scheme ID " +:+ hostSchemeIdString), result)
          end in
        hostSchemesLoop rest v' result'
      else (v, result)
  end.

(** [InboundRestApi::CustomerAdd::generateCustomer]. *)
Definition generateCustomer (v : Verdict) (customerId : Z) (jsonObject : QJsonObject)
    : Verdict * option CustomerTree :=
  let id := number customerId in
  if jsonContains "polling_interval" jsonObject && jsonContains "host_schemes" jsonObject then
    match jsonValue "host_schemes" jsonObject with
    | JObject hostSchemesObject =>
        let pollingIntervalInt := jsonToInt (jsonValue "polling_interval" jsonObject) (-1) in
        if bool_decide (20 <= pollingIntervalInt) then
          let result :=
            mkCustomerTree
              (mkCustomer customerId
                 (jsonToBool (jsonValue "ping" jsonObject) false)
                 (jsonToBool (jsonValue "ssl_expiration" jsonObject) false)
                 (jsonToBool (jsonValue "latency" jsonObject) false)
                 (jsonToBool (jsonValue "multi_region" jsonObject) false)
                 pollingIntervalInt false)
              ∅ in
          let '(v', result') := hostSchemesLoop hostSchemesObject v result in
          (v', Some result')
        else (failed ("failed, invalid polling interval, customer " +:+ id), None)
    | _ => (failed ("failed, expected host/schemes object, customer " +:+ id), None)
    end
  else (failed ("failed, missing required fields, customer " +:+ id), None).

(** The customer loop of [processAuthenticatedRequest]. *)
Fixpoint customersLoop (members : QJsonObject) (v : Verdict) (customers : list CustomerTree)
    : Verdict * list CustomerTree :=
  match members with
  | [] => (v, customers)
  | (customerIdString, customerDataValue) :: rest =>
      if success v then
        let '(v', customers') :=
          match toUInt customerIdString with
          | Some customerId =>
              if decide (customerId = 0) then
                (failed ("Invalid customer ID " +:+ customerIdString), customers)
              else
                match customerDataValue with
                | JObject customerObject =>
                    let '(v1, customer) :=
                      generateCustomer (mkVerdict true (statusString v)) customerId
                        customerObject in
                    match customer with
                    | Some c => (v1, customers ++ [c])
                    | None => (v1, customers)
                    end
                | _ => (failed ("Expected object for customer " +:+ number customerId),
                        customers)
                end
          | None => (failed ("Invalid customer ID " +:+ customerIdString), customers)
          end in
        customersLoop rest v' customers'
      else (v, customers)
  end.

(** [ServiceThreadTracker]: the customers of each HTTP service thread, by
    customer id.  The ping service thread is outside the model. *)
Definition ServiceThreadTracker : Type := list (gmap Z CustomerTree).

(** The choice of [ServiceThreadTracker::addCustomer] among the threads,
    by their [float] load: the index of the thread chosen. *)
Variable bestHttpThread : ServiceThreadTracker -> nat.

(** [ServiceThreadTracker::removeCustomer]: the first thread that knows
    the id removes it. *)
Fixpoint removeCustomer (customerId : Z) (threads : ServiceThreadTracker)
    : ServiceThreadTracker :=
  match threads with
  | [] => []
  | customersByCustomerId :: rest =>
      match customersByCustomerId !! customerId with
      | Some _ => delete customerId customersByCustomerId :: rest
      | None => customersByCustomerId :: removeCustomer customerId rest
      end
  end.

(** [ServiceThreadTracker::addCustomer]. *)
Definition addCustomer (c : CustomerTree) (threads : ServiceThreadTracker)
    : ServiceThreadTracker :=
  alter (insert (currentCustomerId (treeCustomer c)) c) (bestHttpThread threads) threads.

Definition installCustomers (customers : list CustomerTree) (threads : ServiceThreadTracker)
    : ServiceThreadTracker :=
  fold_left (fun t c => addCustomer c (removeCustomer (currentCustomerId (treeCustomer c)) t))
    customers threads.

(** The response of the handler: [BAD_REQUEST], or a JSON object with the
    member ["status"]. *)
Inductive JsonResponse :=
  | BadRequest
  | StatusResponse (status : QString).

(** [InboundRestApi::CustomerAdd::processAuthenticatedRequest]. *)
Definition processAuthenticatedRequest (request : QJsonValue)
    (threads : ServiceThreadTracker) : JsonResponse * ServiceThreadTracker :=
  match request with
  | JObject requestObject =>
      let '(v, customers) := customersLoop requestObject (mkVerdict true "OK") [] in
      if success v
      then (StatusResponse (statusString v), installCustomers customers threads)
      else (StatusResponse (statusString v), threads)
  | _ => (BadRequest, threads)
  end.

(** The customers a tracker holds, whatever the thread. *)
Definition trackedCustomer (customerId : Z) (threads : ServiceThreadTracker)
    : option CustomerTree :=
  list_find (fun m => is_Some (m !! customerId)) threads ≫= fun '(_, m) => m !! customerId.

End CustomerAddTrees.

(** ** [bit_functions.h], the narrower reversals *)

(** [bitReverse8]: each assignment to the [std::uint8_t] truncates the
    [int] that the expression is computed in. *)
Definition bitReverse8 (v : Z) : Z :=
  let v := u8 (Z.lor (Z.land (Z.shiftr v 1) 0x55) (Z.land (Z.shiftl v 1) 0xAA)) in
  let v := u8 (Z.lor (Z.land (Z.shiftr v 2) 0x33) (Z.land (Z.shiftl v 2) 0xCC)) in
  u8 (Z.lor (Z.land (Z.shiftr v 4) 0x0F) (Z.land (Z.shiftl v 4) 0xF0)).

(** [bitReverse16]. *)
Definition bitReverse16 (v : Z) : Z :=
  let v := u16 (Z.lor (Z.land (Z.shiftr v 1) 0x5555) (Z.land (Z.shiftl v 1) 0xAAAA)) in
  let v := u16 (Z.lor (Z.land (Z.shiftr v 2) 0x3333) (Z.land (Z.shiftl v 2) 0xCCCC)) in
  let v := u16 (Z.lor (Z.land (Z.shiftr v 4) 0x0F0F) (Z.land (Z.shiftl v 4) 0xF0F0)) in
  u16 (Z.lor (Z.land (Z.shiftr v 8) 0x00FF) (Z.land (Z.shiftl v 8) 0xFF00)).

(** ** [HostSchemeTimer]: the wheel and its ticks ([host_scheme_timer.cpp]) *)

#[global] Instance Cursor_eq_dec {K : Type} `{EqDecision K} : EqDecision (Cursor K).
Proof. solve_decision. Defined.

(** [QMap::insert], [QMap::value] and [QMap::erase] on the entries in
    ascending key order. *)
Fixpoint qmapInsert (k : Z) (v : ptr) (m : list (Z * ptr)) : list (Z * ptr) :=
  match m with
  | [] => [(k, v)]
  | (k', v') :: rest =>
      if decide (k < k') then (k, v) :: m
      else if decide (k = k') then (k, v) :: rest
      else (k', v') :: qmapInsert k v rest
  end.

Fixpoint qmapValue (k : Z) (m : list (Z * ptr)) : option ptr :=
  match m with
  | [] => None
  | (k', v) :: rest => if decide (k' = k) then Some v else qmapValue k rest
  end.

Definition qmapErase (k : Z) (m : list (Z * ptr)) : list (Z * ptr) :=
  filter (fun e => e.1 <> k) m.

Section Wheel.
Context `{DoubleArithmetic}.

Definition setHostSchemes (m : list (Z * ptr)) (it : Cursor Z) (t : HostSchemeTimer)
    : HostSchemeTimer :=
  mkHostSchemeTimer (currentMultiRegion t) (currentAggregatePeriodSeconds t)
    (currentPeriodMilliseconds t) (currentRegionIndex t) (currentNumberRegions t)
    (regionTimeOffsetMilliseconds t) (pollingCycleStartTime t) (nextTimingMarkReset t)
    (numberMissedTimingWindows t) (sumMillisecondsMissedTimingMarks t)
    (forceTimerResync t) (currentLoadingData t) m it (serviceTimer t).

Definition setForceTimerResync (b : bool) (t : HostSchemeTimer) : HostSchemeTimer :=
  mkHostSchemeTimer (currentMultiRegion t) (currentAggregatePeriodSeconds t)
    (currentPeriodMilliseconds t) (currentRegionIndex t) (currentNumberRegions t)
    (regionTimeOffsetMilliseconds t) (pollingCycleStartTime t) (nextTimingMarkReset t)
    (numberMissedTimingWindows t) (sumMillisecondsMissedTimingMarks t)
    b (currentLoadingData t) (hostSchemesByTimeOrder t) (hostSchemeIterator t)
    (serviceTimer t).

(** The constructor, for a timer that is not started. *)
Definition newHostSchemeTimer (multiRegion : bool) (period regionIndex numberRegions : Z)
    (loading : LoadingData) : HostSchemeTimer :=
  let periodMs := periodMilliseconds multiRegion period numberRegions in
  mkHostSchemeTimer multiRegion period periodMs regionIndex numberRegions
    (regionOffset periodMs regionIndex numberRegions) 0 0 0 0 false loading [] Singular None.

(** [HostSchemeTimer::addHostScheme]; the signal [start] runs
    [startTimer]. *)
Definition addHostScheme (hostSchemeId : Z) (hostScheme : ptr) (currentTime : Z)
    : M HostSchemeTimer unit :=
  modify (fun t => setHostSchemes
                     (qmapInsert (bitReverse32 hostSchemeId) hostScheme (hostSchemesByTimeOrder t))
                     (hostSchemeIterator t) t);;
  t ← get;
  match serviceTimer t with
  | Some _ => mret tt
  | None =>
      modify (setHostSchemes (hostSchemesByTimeOrder t) (cbegin (hostSchemesByTimeOrder t).*1));;
      startTimer currentTime
  end.

(** [HostSchemeTimer::removeHostScheme]. *)
Definition removeHostScheme (hostSchemeId : Z) : M HostSchemeTimer bool :=
  t ← get;
  let key := bitReverse32 hostSchemeId in
  match qmapValue key (hostSchemesByTimeOrder t) with
  | Some _ =>
      (if decide (hostSchemeIterator t = At key) then
         (* hostSchemeIterator = hostSchemesByTimeOrder.erase(it) *)
         it ← liftR (cnext (hostSchemesByTimeOrder t).*1 (At key));
         modify (setHostSchemes (qmapErase key (hostSchemesByTimeOrder t)) it)
       else
         modify (setHostSchemes (qmapErase key (hostSchemesByTimeOrder t))
                   (hostSchemeIterator t)));;
      mret true
  | None => mret false
  end.

(** [HostSchemeTimer::getHostScheme]: [None] is the null [QPointer]. *)
Definition getHostSchemeOfTimer (hostSchemeId : Z) (t : HostSchemeTimer) : option ptr :=
  qmapValue (bitReverse32 hostSchemeId) (hostSchemesByTimeOrder t).

(** [HostSchemeTimer::startNextHostScheme]: the host/scheme whose
    [serviceNextMonitor] it calls, if any.  [currentTime] and
    [scheduleTime] are the clock readings of the routines it calls. *)
Definition startNextHostScheme (currentTime scheduleTime : Z)
    : M HostSchemeTimer (option ptr) :=
  t ← get;
  let order := (hostSchemesByTimeOrder t).*1 in
  let numberHostSchemes := length (hostSchemesByTimeOrder t) in
  if is_end (hostSchemeIterator t) || forceTimerResync t then
    modify (setForceTimerResync false);;
    (if bool_decide (0 < numberHostSchemes)%nat
     then restartTimingCycle currentTime scheduleTime
     else mret tt);;
    mret None
  else
    key ← liftR (ckey order (hostSchemeIterator t));
    hostScheme ← match qmapValue key (hostSchemesByTimeOrder t) with
                 | Some p => mret p
                 | None => crash UseAfterFree
                 end;
    it ← liftR (cnext order (hostSchemeIterator t));
    modify (setHostSchemes (hostSchemesByTimeOrder t) it);;
    (if is_end it
     then restartTimingCycle currentTime scheduleTime
     else scheduleNextHostScheme scheduleTime);;
    mret (Some hostScheme).

(** The single-shot [serviceTimer] expires: it stops, then its slot runs. *)
Definition serviceTimerTimeout (currentTime : Z) : M HostSchemeTimer (option ptr) :=
  modify (setServiceTimer None);; startNextHostScheme currentTime currentTime.

(** [goInactive] and [goActive]: the signals [stop] and [start]. *)
Definition timerGoInactive : M HostSchemeTimer unit := modify (setServiceTimer None).
Definition timerGoActive (currentTime : Z) : M HostSchemeTimer unit := startTimer currentTime.

(** One expiry of the timer at each of the clock readings [times]: the
    host/schemes that were serviced. *)
Fixpoint ticks (times : list Z) : M HostSchemeTimer (list (option ptr)) :=
  match times with
  | [] => mret []
  | now :: rest =>
      serviced ← serviceTimerTimeout now;
      others ← ticks rest;
      mret (serviced :: others)
  end.

End Wheel.

(** ** [DataAggregator]: the rest of the interface ([data_aggregator.h],
       [data_aggregator.cpp]) *)

(** [LatencyEntry::toZoranTimestamp], [LatencyEntry::toUnixTimestamp] and
    [LatencyEntry::unixTimestamp]. *)
Definition toZoranTimestamp (unixTimestamp : Z) : Z :=
  u32 (u64 (unixTimestamp - startOfZoranEpoch)).
Definition toUnixTimestamp (zoranTimestamp : Z) : Z :=
  u64 (zoranTimestamp + startOfZoranEpoch).
Definition unixTimestamp (e : LatencyEntry) : Z :=
  u64 (entryTimestamp e + startOfZoranEpoch).

(** [DataAggregator::serverIdentifier], before the decoding
    [QString::fromUtf8(identifier, maximumIdentifierLength)]: the bytes of
    the identifier field. *)
Definition serverIdentifierBytes (d : DataAggregator) : QByteArray :=
  take maximumIdentifierLength (drop offsetIdentifier (headerTemplate d)).



(** What happens to an aggregator: a monitor records a sample, one of the
    two timers expires, or the request in flight ends. *)
Inductive AggregatorEvent :=
  | Sample (monitorId timestamp latency : Z)
  | ReportTimerExpired (tel : Telemetry)
  | RetryTimerExpired (tel : Telemetry)
  | RequestFailed (errorString : QString)
  | ResponseReceived (document : ResponseDocument) (contentType : QString).

Definition handleEvent (e : AggregatorEvent) : M DataAggregator unit :=
  match e with
  | Sample monitorId timestamp latency => recordLatency monitorId timestamp latency
  | ReportTimerExpired tel => reportTimerTimeout tel
  | RetryTimerExpired tel => retryTimerTimeout tel
  | RequestFailed errorString => processRequestFailed errorString
  | ResponseReceived document contentType => processResponse document contentType
  end.

Fixpoint handleEvents (events : list AggregatorEvent) : M DataAggregator unit :=
  match events with
  | [] => mret tt
  | e :: rest => handleEvent e;; handleEvents rest
  end.

(** ** [EventReporter] ([event_reporter.cpp]) *)

(** [EventReporter::toString] of an event type and of a monitor status. *)
Definition eventTypeToString (eventType : EventType.t) : QString :=
  match eventType with
  | EventType.INVALID => "invalid"
  | EventType.WORKING => "working"
  | EventType.NO_RESPONSE => "no_response"
  | EventType.CONTENT_CHANGED => "content_changed"
  | EventType.KEYWORDS => "keywords"
  | EventType.SSL_CERTIFICATE => "ssl_certificate"
  end.

Definition monitorStatusToString (monitorStatus : MonitorStatus.t) : QString :=
  match monitorStatus with
  | MonitorStatus.UNKNOWN => "unknown"
  | MonitorStatus.WORKING => "working"
  | MonitorStatus.FAILED => "failed"
  end.

(** What the reporters write with [logWrite]: that a message was sent, or
    why it was not. *)
Inductive ReportFailure :=
  | ServerReported (status : QString)
  | UnexpectedResponse
  | ExpectedJsonObject
  | Retrying (errorString : QString).

Inductive ReportLog :=
  | LogSent (message : QJsonObject)
  | LogFailed (message : QJsonObject) (why : ReportFailure).

Definition retryDelayInSeconds : Z := 60.

(** [QJsonObject::insert]: the members stay in key order, and a member
    with the same key is replaced. *)
Fixpoint jsonInsert (key : QString) (value : QJsonValue) (o : QJsonObject) : QJsonObject :=
  match o with
  | [] => [(key, value)]
  | (k, v) :: rest =>
      match String.compare key k with
      | Lt => (key, value) :: o
      | Eq => (key, value) :: rest
      | Gt => (k, v) :: jsonInsert key value rest
      end
  end.

(** [EventReporter]: the queue of messages, the single-shot retry timer
    (its interval while it is active), the bodies POSTed to
    [/event/report], and the log. *)
Record EventReporter := mkEventReporter {
  pendingMessages : list QJsonObject;
  eventRetryTimer : option Z;
  eventPosts : list QJsonObject;
  eventLog : list ReportLog
}.

Section EventReporting.
(** [QString::fromUtf8(hash.toBase64())] *)
Variable toBase64 : QByteArray -> QString.

(** The JSON object that [sendEvent] builds. *)
Definition eventJson (e : Event) : QJsonObject :=
  let jsonMessage := [] in
  let jsonMessage := jsonInsert "monitor_id" (JNumber (Some (evMonitorId e))) jsonMessage in
  let jsonMessage := jsonInsert "timestamp" (JNumber (Some (evTimestamp e))) jsonMessage in
  let jsonMessage :=
    jsonInsert "event_type" (JString (eventTypeToString (evType e))) jsonMessage in
  let jsonMessage :=
    jsonInsert "monitor_status" (JString (monitorStatusToString (evMonitorStatus e)))
      jsonMessage in
  let jsonMessage := jsonInsert "message" (JString (evMessage e)) jsonMessage in
  match evHash e with
  | [] => jsonMessage
  | _ => jsonInsert "hash" (JString (toBase64 (evHash e))) jsonMessage
  end.

(** [EventReporter::resend]. *)
Definition eventResend : M EventReporter unit :=
  r ← get;
  match pendingMessages r with
  | [] => mret tt
  | first :: _ =>
      modify (fun r => mkEventReporter (pendingMessages r) (eventRetryTimer r)
                         (eventPosts r ++ [first]) (eventLog r))
  end.

(** [EventReporter::sendEvent]. *)
Definition sendEvent (e : Event) : M EventReporter unit :=
  r ← get;
  let startSending := match pendingMessages r with [] => true | _ => false end in
  modify (fun r => mkEventReporter (pendingMessages r ++ [eventJson e]) (eventRetryTimer r)
                     (eventPosts r) (eventLog r));;
  when startSending eventResend.

(** [EventReporter::processJsonResponse]: [takeFirst] on the queue, the
    log entry by the response, and [resend]. *)
Definition eventProcessJsonResponse (jsonData : QJsonValue) : M EventReporter unit :=
  r ← get;
  match pendingMessages r with
  | [] => crash DerefEnd
  | m :: rest =>
      let entry :=
        match jsonData with
        | JObject responseObject =>
            if bool_decide (length responseObject = 1%nat) then
              let statusString := jsonToString (jsonValue "status" responseObject) in
              if decide (statusString = "OK"%string) then LogSent m
              else LogFailed m (ServerReported statusString)
            else LogFailed m UnexpectedResponse
        | _ => LogFailed m ExpectedJsonObject
        end in
      modify (fun r => mkEventReporter rest (eventRetryTimer r) (eventPosts r)
                         (eventLog r ++ [entry]));;
      eventResend
  end.

(** [EventReporter::processRequestFailed]. *)
Definition eventProcessRequestFailed (errorString : QString) : M EventReporter unit :=
  r ← get;
  match pendingMessages r with
  | [] => crash DerefEnd
  | m :: _ =>
      modify (fun r => mkEventReporter (pendingMessages r)
                         (Some (1000 * retryDelayInSeconds)) (eventPosts r)
                         (eventLog r ++ [LogFailed m (Retrying errorString)]))
  end.

(** The retry timer expires: it stops, then [resend] runs. *)
Definition eventRetryTimeout : M EventReporter unit :=
  modify (fun r => mkEventReporter (pendingMessages r) None (eventPosts r) (eventLog r));;
  eventResend.

(** What the controller does with the request in flight: it fails it
    [failures] times, each followed by the expiry of the retry timer, and
    then answers with [response]. *)
Fixpoint eventOutcome (failures : list QString) (response : QJsonValue)
    : M EventReporter unit :=
  match failures with
  | [] => eventProcessJsonResponse response
  | errorString :: rest =>
      eventProcessRequestFailed errorString;;
      eventRetryTimeout;;
      eventOutcome rest response
  end.

Fixpoint sendEvents (events : list Event) : M EventReporter unit :=
  match events with
  | [] => mret tt
  | e :: rest => sendEvent e;; sendEvents rest
  end.

Fixpoint eventOutcomes (outcomes : list (list QString * QJsonValue)) : M EventReporter unit :=
  match outcomes with
  | [] => mret tt
  | (failures, response) :: rest => eventOutcome failures response;; eventOutcomes rest
  end.

End EventReporting.

(** ** [CertificateReporter] ([certificate_reporter.cpp]) *)











(** ** [Monitor] and [HostScheme]: names of the enumerations, and removal
       ([monitor.cpp], [host_scheme.cpp]) *)

(** [Monitor::toString] of a method, of a content check mode and of a
    content type. *)
Definition methodToString (method : Method.t) : QString :=
  match method with
  | Method.GET => "GET"
  | Method.HEAD => "HEAD"
  | Method.POST => "POST"
  | Method.PUT => "PUT"
  | Method.DELETE => "DELETE"
  | Method.OPTIONS => "OPTIONS"
  | Method.PATCH => "PATCH"
  end.

Definition contentCheckModeToString (contentCheckMode : ContentCheckMode.t) : QString :=
  match contentCheckMode with
  | ContentCheckMode.NO_CHECK => "NO_CHECK"
  | ContentCheckMode.CONTENT_MATCH => "CONTENT_MATCH"
  | ContentCheckMode.ALL_KEYWORDS => "ALL_KEYWORDS"
  | ContentCheckMode.ANY_KEYWORDS => "ANY_KEYWORDS"
  | ContentCheckMode.SMART_CONTENT_MATCH => "SMART_CONTENT_MATCH"
  end.

Definition contentTypeToString (contentType : ContentType.t) : QString :=
  match contentType with
  | ContentType.JSON => "JSON"
  | ContentType.TEXT => "TEXT"
  | ContentType.XML => "XML"
  end.

(** [HostScheme::monitorAboutToBeRemoved].  [find] gives [end()] for an
    id that the map does not hold, and [erase] is then given [end()]; the
    model stops there.  The customer's flattened index of monitors, which
    the call goes on to update, is outside the model. *)
Definition monitorAboutToBeRemoved (monitor : ptr) : M World unit :=
  m ← getMonitor monitor;
  let monitorId := currentMonitorId m in
  hs ← getHostScheme;
  let byId := monitorsByMonitorId hs in
  let order := (map_to_list byId).*1 in
  match byId !! monitorId with
  | None => crash DerefEnd
  | Some _ =>
      let byId' := delete monitorId byId in
      if decide (monitorIterator hs = At monitorId) then
        (* monitorIterator = monitorsByMonitorId.erase(it); *)
        it ← liftR (cnext order (At monitorId));
        modify (withHostScheme (fun h =>
          setMonitorIterator (wrap_to_begin (map_to_list byId').*1 it)
            (setMonitorsByMonitorId byId' h)))
      else
        modify (withHostScheme (setMonitorsByMonitorId byId'))
  end;;
  eraseNonResponsive monitor.

(** [HostScheme::removeMonitor]: the monitor leaves the map, the customer
    is told (it reads the monitor's id), and the monitor is deleted, and
    with it the reply that is its child.  Neither iterator and no part of
    the set of non-responsive monitors is touched. *)
Definition removeMonitor (monitorId : Z) : M World bool :=
  hs ← getHostScheme;
  match monitorsByMonitorId hs !! monitorId with
  | Some monitor =>
      modify (withHostScheme (setMonitorsByMonitorId (delete monitorId (monitorsByMonitorId hs))));;
      w ← get;
      (* customer->monitorAboutToBeRemoved(monitor); *)
      match customer w with
      | Some _ => _ ← getMonitor monitor; mret tt
      | None => mret tt
      end;;
      (* delete monitor; *)
      match monitors w !! monitor with
      | Some m =>
          modify (withReplies (fun s => match pendingReply m with
                                        | Some r => s ∖ {[ r ]}
                                        | None => s
                                        end));;
          modify (withMonitors (delete monitor))
      | None => crash DoubleFree
      end;;
      mret true
  | None => mret false
  end.

(** * The vocabulary of the properties

    The invariants, the readings of the specification that the code is
    compared with, and the inputs on which the model is run. *)

(** The keywords that the scan of [checkAllKeywordMatch] adds to the hash:
    those before the first keyword that the body does not contain. *)
Fixpoint foundPrefix (receivedData : QByteArray) (keywords : list QByteArray)
    : list QByteArray :=
  match keywords with
  | [] => []
  | k :: rest => if contains receivedData k then k :: foundPrefix receivedData rest else []
  end.

(** The first keyword that the body does not contain. *)
Fixpoint firstMissing (receivedData : QByteArray) (keywords : list QByteArray)
    : option QByteArray :=
  match keywords with
  | [] => None
  | k :: rest => if contains receivedData k then firstMissing receivedData rest else Some k
  end.

(** The hash data as the specification words it for [ALL_KEYWORDS]: the
    monitor id, the body, then every keyword that the body contains. *)
Definition specAllKeywordsHashData (m : Monitor) (receivedData : QByteArray) : QByteArray :=
  le32 (currentMonitorId m) ++ receivedData
  ++ concat (filter (fun k => contains receivedData k = true) (currentKeywords m)).

(** The scan of [checkAnyKeywordMatch] stops at the first keyword that
    the body contains, and adds that keyword alone. *)
Fixpoint firstFound (receivedData : QByteArray) (keywords : list QByteArray)
    : option QByteArray :=
  match keywords with
  | [] => None
  | k :: rest => if contains receivedData k then Some k else firstFound receivedData rest
  end.

(** The invariant of the specification: a monitor of the host/scheme is
    in the set of non-responsive monitors iff its status is not [WORKING]. *)
Definition suspectInvariant (w : World) : Prop :=
  forall id p, monitorsByMonitorId (hostScheme w) !! id = Some p ->
    exists m, monitors w !! p = Some m
              /\ (p ∈ nonResponsiveMonitors (hostScheme w)
                  <-> currentMonitorStatus m <> MonitorStatus.WORKING).

(** An iterator into the set of non-responsive monitors that can be
    dereferenced whenever the set has an element. *)
Definition cursorOk (s : gset ptr) (c : Cursor ptr) : Prop :=
  match c with
  | At q => q ∈ s
  | AtEnd => s = ∅
  | Singular => False
  end.

(** What the engine relies on besides: the host/scheme has its customer
    and its network access manager, the non-responsive monitors are live
    objects, and the iterator into their set designates one of them unless
    the set is empty. *)
Definition wellFormed (w : World) : Prop :=
  is_Some (customer w)
  /\ currentNetworkAccessManager (hostScheme w) = true
  /\ (forall p, p ∈ nonResponsiveMonitors (hostScheme w) -> is_Some (monitors w !! p))
  /\ cursorOk (nonResponsiveMonitors (hostScheme w))
       (nonResponsiveMonitorsIterator (hostScheme w)).

(** Two states of a monitor that differ at most in the pending reply, the
    start timestamp, and the hash; the hash only where this is said. *)
Definition similar (keepHash : bool) (m m' : Monitor) : Prop :=
  currentMonitorStatus m' = currentMonitorStatus m
  /\ hasHostScheme m' = hasHostScheme m
  /\ currentMonitorId m' = currentMonitorId m
  /\ currentKeywords m' = currentKeywords m
  /\ currentContentCheckMode m' = currentContentCheckMode m
  /\ (keepHash = true -> hasHostScheme m = true -> lastHash m' = lastHash m).

(** The same, for every monitor of two worlds. *)
Definition similarMonitors (keepHash : bool) (w w' : World) : Prop :=
  forall q, option_Forall2 (similar keepHash) (monitors w !! q) (monitors w' !! q).

(** The part of the host/scheme that a removal from the set of
    non-responsive monitors leaves alone. *)
Definition sameDirectory (w w' : World) : Prop :=
  monitorsByMonitorId (hostScheme w') = monitorsByMonitorId (hostScheme w)
  /\ currentNetworkAccessManager (hostScheme w') = currentNetworkAccessManager (hostScheme w)
  /\ currentSslExpirationTimestamp (hostScheme w') = currentSslExpirationTimestamp (hostScheme w)
  /\ currentHostSchemeId (hostScheme w') = currentHostSchemeId (hostScheme w)
  /\ customer w' = customer w
  /\ clock w' = clock w.

(** The invariant together with what the engine relies on. *)
Definition engineInvariant (w : World) : Prop := wellFormed w /\ suspectInvariant w.


(** The monitors of the host/scheme are live objects, and the iterator
    into their map is [end()] or designates one of them. *)
Definition directoryOk (w : World) : Prop :=
  (forall id p, monitorsByMonitorId (hostScheme w) !! id = Some p ->
                is_Some (monitors w !! p))
  /\ match monitorIterator (hostScheme w) with
     | At k => is_Some (monitorsByMonitorId (hostScheme w) !! k)
     | AtEnd => True
     | Singular => False
     end.

(** The [KEYWORDS] events reported so far. *)
Definition keywordEvents (w : World) : list Event :=
  filter (fun e => evType e = EventType.KEYWORDS) (reportedEvents w).

(** An instance of the library routines for running the model: the digest
    of some data is the data itself, and decoding is byte by byte. *)
Definition plainExternal : External :=
  {| Sha256 := fun data => data;
     HtmlScrubberHash := fun body extra => body ++ extra;
     fromUtf8 := string_of_list_byte |}.

(** A customer with polling interval 20 that supports content checking. *)
Definition exampleCustomer : Customer := mkCustomer 1 false false true false 20 false.

(** Monitor 7 of the example host/scheme, a [GET] of [/]. *)
Definition exampleMonitor (mode : ContentCheckMode.t) (keywords : list QByteArray)
    (status : MonitorStatus.t) (pending : option ptr) : Monitor :=
  mkMonitor 7 "/" Method.GET mode keywords ContentType.TEXT [] [] status pending [] 0 true.

(** A host/scheme with the single monitor [m] at address 1, under id 7;
    the monitor is in the set of non-responsive monitors when [suspect]. *)
Definition exampleWorld (m : Monitor) (suspect : bool) (live : gset ptr) : World :=
  mkWorld {[ 1%positive := m ]} live 9%positive
    (mkHostScheme 3 "http://x" 0 true {[ 7 := 1%positive ]} (At 7)
       (if suspect then {[ 1%positive ]} else ∅)
       (if suspect then At 1%positive else AtEnd))
    (Some exampleCustomer) [] 1700000000 [] [] [] [].

(** A host/scheme as [customer/add] leaves it when its ["monitors"] object
    is empty. *)
Definition emptyHostSchemeWorld : World :=
  mkWorld ∅ ∅ 1%positive (newHostScheme 3 "http://x") (Some exampleCustomer)
    [] 1700000000 [] [] [] [].

(** Monitor 7 with the reply object 5 in its slot. *)
Definition inFlightMonitor : Monitor :=
  exampleMonitor ContentCheckMode.NO_CHECK [] MonitorStatus.WORKING (Some 5%positive).

(** Monitor 7 at rest. *)
Definition workingMonitor : Monitor :=
  exampleMonitor ContentCheckMode.NO_CHECK [] MonitorStatus.WORKING None.

(** A monitor as [customer/add] builds it, before [addMonitor], and a
    world holding it at address 2 beside the host/scheme of [exampleWorld]. *)
Definition newcomer : Monitor :=
  mkMonitor 8 "/b" Method.GET ContentCheckMode.NO_CHECK [] ContentType.TEXT [] []
    MonitorStatus.UNKNOWN None [] 0 false.

Definition newcomerWorld : World :=
  withMonitors (insert 2%positive newcomer) (exampleWorld workingMonitor false ∅).

(** Two keywords, and monitors that look for them. *)
Definition alpha : QByteArray := bytes_of_string "alpha".
Definition beta : QByteArray := bytes_of_string "beta".

Definition allKeywordsMonitor : Monitor :=
  exampleMonitor ContentCheckMode.ALL_KEYWORDS [alpha; beta] MonitorStatus.WORKING None.

Definition emptyKeywordsMonitor : Monitor :=
  exampleMonitor ContentCheckMode.ANY_KEYWORDS [] MonitorStatus.UNKNOWN (Some 5%positive).

(** The cycle start as the specification words it, with the ceiling of
    [now_ms / T]. *)
Definition specCycleStart (T now offset : Z) : Z :=
  T * ((now + T - 1) / T + 1) + offset.

(** An instance of the [double] arithmetic for running the model: the
    offset into the period is rounded to the nearest millisecond, and an
    average is kept as the pair of the sum and the count. *)
Definition plainDouble : DoubleArithmetic :=
  {| Double := Z * Z;
     doubleZero := (0, 1);
     timeOffsetOf := fun period key => (2 * period * key + 2 ^ 32) / 2 ^ 33;
     averageMissOf := fun sum count => (sum, 1000 * count) |}.

(** A single-region wheel with a period of 20 seconds that holds the
    host/scheme with id 1. *)
Definition exampleTimer : @HostSchemeTimer plainDouble :=
  @mkHostSchemeTimer plainDouble false 20 (periodMilliseconds false 20 1) 0 1
    (regionOffset (periodMilliseconds false 20 1) 0 1) 0 0 0 0 false
    (@mkLoadingData plainDouble 0 0 (0, 1))
    [(bitReverse32 1, 1%positive)] AtEnd None.

(** The identifier field: the first 48 bytes of the identifier, padded
    with zero bytes. *)
Definition identifierField (rawData : QByteArray) : QByteArray :=
  take maximumIdentifierLength rawData
  ++ repeat x00 (maximumIdentifierLength - length rawData).

(** The layout as the specification words it, with three reserved bytes. *)
Definition specReportMessage (rawData : QByteArray) (tel : Telemetry)
    (samples : list (Z * Z * Z)) : QByteArray :=
  le16 0 ++ identifierField rawData
  ++ le32 (monitorsPerSecond256 tel)
  ++ le16 (Z.min 65535 (u32 (cpuUtilization4096 tel)))
  ++ le16 (Z.min 65535 (u32 (memoryUtilization65536 tel)))
  ++ le8 (Status.code (trackerStatus tel))
  ++ repeat x00 3
  ++ flat_map (fun '(monitorId, unixTimestamp, latency) =>
                 le32 monitorId ++ le32 (unixTimestamp - startOfZoranEpoch) ++ le32 latency)
       samples.

(** The entry [recordLatency] stores for a sample. *)
Definition sampleEntry (sample : Z * Z * Z) : LatencyEntry :=
  let '(monitorId, unixTimestamp, latency) := sample in
  newLatencyEntry monitorId unixTimestamp latency.

(** An aggregator configured with a 12-byte identifier, and two readings
    of the server metrics that differ in the CPU loading. *)
Definition exampleIdentifier : QByteArray := bytes_of_string "polling-eu-1".
Definition calmTelemetry : Telemetry := mkTelemetry 13 410 20000 Status.ACTIVE.
Definition busyTelemetry : Telemetry := mkTelemetry 13 3600 20000 Status.ACTIVE.
Definition exampleAggregator : DataAggregator :=
  setServerIdentifier exampleIdentifier configure.

(** The report timer after [record_latency] as the specification words
    it: an immediate flush when no batch is in flight and the current list
    is saturated; otherwise the timer is armed for 60 seconds unless it is
    armed already. *)
Definition specReportTimer (d : DataAggregator) (current : list LatencyEntry) : option Z :=
  if bool_decide (inFlightLatencyEntryList d = None)
     && bool_decide (maximumNumberPendingEntries <= Z.of_nat (length current))
  then Some 0
  else match reportTimer d with
       | None => Some maximumReportDelayMilliseconds
       | Some t => Some t
       end.

(** The example aggregator with two samples in its current list. *)
Definition loadedAggregator : DataAggregator :=
  setLists [newLatencyEntry 7 1700000000 50000; newLatencyEntry 8 1700000001 61000] None
    exampleAggregator.

(** Decimal numerals, as [QString::toUInt] reads them. *)
Definition digitValue (c : ascii) : option Z :=
  let n := Z.of_nat (nat_of_ascii c) in
  if bool_decide (48 <= n <= 57) then Some (n - 48) else None.

Fixpoint decimalValue (s : string) (acc : Z) : option Z :=
  match s with
  | EmptyString => Some acc
  | String c rest =>
      match digitValue c with
      | Some v => decimalValue rest (10 * acc + v)
      | None => None
      end
  end.

Definition decimalToUInt (s : string) : option Z :=
  match s with
  | EmptyString => None
  | _ => match decimalValue s 0 with
         | Some v => if bool_decide (v < 2 ^ 32) then Some v else None
         | None => None
         end
  end.

(** Lower-casing of the letters A to Z. *)
Fixpoint mapString (f : ascii -> ascii) (s : string) : string :=
  match s with
  | EmptyString => EmptyString
  | String c rest => String (f c) (mapString f rest)
  end.

Definition lowerAscii (c : ascii) : ascii :=
  let n := nat_of_ascii c in
  if bool_decide (65 <= n <= 90)%nat then ascii_of_nat (n + 32) else c.

(** An instance of the Qt text routines for running the model on ASCII
    payloads: decimal numbers, lower-casing of the letters A to Z, every
    non-empty URL valid, and base64 payloads taken byte for byte (the
    payloads run here carry none). *)
Definition asciiText : QtText :=
  {| toUInt := decimalToUInt;
     trimmedToLower := mapString lowerAscii;
     dashesToUnderscores :=
       mapString (fun c => if bool_decide (c = "-"%char) then "_"%char else c);
     urlIsValid := fun s => negb (bool_decide (s = ""%string));
     fromBase64Encoding := fun s => Some (bytes_of_string s);
     toUtf8 := bytes_of_string;
     number := fun z => pretty z |}.

(** A payload for customer 1 with one host/scheme and one monitor whose
    ["uri"] is a number. *)
Definition badUriPayload : QJsonValue :=
  JObject
    [("1"%string,
      JObject
        [("host_schemes"%string,
          JObject
            [("1"%string,
              JObject
                [("monitors"%string,
                  JObject
                    [("1"%string,
                      JObject [("method"%string, JString "get");
                               ("uri"%string, JNumber (Some 5))])]);
                 ("url"%string, JString "http://x")])]);
         ("polling_interval"%string, JNumber (Some 20))])].

(** The same request with a ["uri"] that is a string. *)
Definition goodPayload : QJsonValue :=
  JObject
    [("1"%string,
      JObject
        [("host_schemes"%string,
          JObject
            [("1"%string,
              JObject
                [("monitors"%string,
                  JObject
                    [("1"%string,
                      JObject [("method"%string, JString "get");
                               ("uri"%string, JString "/index.html")])]);
                 ("url"%string, JString "http://x")])]);
         ("polling_interval"%string, JNumber (Some 20))])].

(** A tracker with one HTTP service thread and no customer. *)
Definition emptyTracker : ServiceThreadTracker := [∅].

(** The tracker's choice of the least loaded thread, here the first. *)
Definition firstThread (threads : ServiceThreadTracker) : nat := 0.

(** What a tick leaves alone: the host/schemes of the wheel, the pending
    resynchronisation, the period, the region offset and the number of
    regions. *)
Definition sameWheel `{DoubleArithmetic} (t t' : HostSchemeTimer) : Prop :=
  hostSchemesByTimeOrder t' = hostSchemesByTimeOrder t
  /\ forceTimerResync t' = forceTimerResync t
  /\ currentPeriodMilliseconds t' = currentPeriodMilliseconds t
  /\ currentNumberRegions t' = currentNumberRegions t
  /\ regionTimeOffsetMilliseconds t' = regionTimeOffsetMilliseconds t.

(** The iterator of the wheel designates one of its host/schemes, or none. *)
Definition wheelCursorOk `{DoubleArithmetic} (t : HostSchemeTimer) : Prop :=
  match hostSchemeIterator t with
  | At k => k ∈ (hostSchemesByTimeOrder t).*1
  | AtEnd => True
  | Singular => hostSchemesByTimeOrder t = []
  end.

(** A single-region wheel with a period of 20 seconds that holds the
    host/schemes with ids 1, 2 and 3, at the addresses 11, 12 and 13; the
    keys are [0x80000000], [0x40000000] and [0xC0000000]. *)
Definition exampleWheel : @HostSchemeTimer plainDouble :=
  @mkHostSchemeTimer plainDouble false 20 (periodMilliseconds false 20 1) 0 1
    (regionOffset (periodMilliseconds false 20 1) 0 1) 0 0 0 0 false
    (@mkLoadingData plainDouble 0 0 (0, 1))
    (qmapInsert (bitReverse32 3) 13%positive
       (qmapInsert (bitReverse32 2) 12%positive
          (qmapInsert (bitReverse32 1) 11%positive [])))
    (At (bitReverse32 2)) (Some 0).

(** The same wheel in the course of a cycle, at its last host/scheme. *)
Definition exampleWheelAtLast : @HostSchemeTimer plainDouble :=
  setHostSchemes (hostSchemesByTimeOrder exampleWheel) (At (bitReverse32 3)) exampleWheel.

(** The entries that the controller has not acknowledged: the batch in
    flight, then the current list. *)
Definition pendingEntries (d : DataAggregator) : list LatencyEntry :=
  default [] (inFlightLatencyEntryList d) ++ latencyEntryList d.

(** The response that acknowledges a batch. *)
Definition acknowledges (e : AggregatorEvent) : Prop :=
  match e with
  | ResponseReceived (StatusObject status) contentType =>
      status = "OK"%string /\ contentType = "application/json"%string
  | _ => False
  end.

(** The entries of the samples among some events, in their order. *)
Definition samplesOf (events : list AggregatorEvent) : list LatencyEntry :=
  flat_map (fun e => match e with
                     | Sample monitorId timestamp latency =>
                         [newLatencyEntry monitorId timestamp latency]
                     | _ => []
                     end) events.

(** A stretch in which the controller is unreachable, then busy: two
    samples, an expiry of the report timer, a failure, a retry and a
    refusal. *)
Definition outageEvents : list AggregatorEvent :=
  [Sample 7 1700000000 50000; ReportTimerExpired calmTelemetry;
   Sample 8 1700000001 61000; RequestFailed "Connection refused";
   RetryTimerExpired busyTelemetry;
   ResponseReceived (StatusObject "busy") "application/json"].

(** The response that the reporters take for the acknowledgement: an
    object with the single member ["status"], which reads ["OK"]. *)
Definition isAcknowledgement (jsonData : QJsonValue) : Prop :=
  match jsonData with
  | JObject responseObject =>
      length responseObject = 1%nat
      /\ jsonToString (jsonValue "status" responseObject) = "OK"%string
  | _ => False
  end.


(** Every POST of an event whose request fails [failures] times: one, and
    one more after each failure. *)
Definition postsOf (message : QJsonObject) (outcome : list QString * QJsonValue)
    : list QJsonObject :=
  replicate (S (length outcome.1)) message.

(** Two events of monitor 7, and a reading of [toBase64] for running the
    model: the bytes as they are. *)
Definition failedEvent : Event :=
  mkEvent 7 1700000000 EventType.NO_RESPONSE MonitorStatus.WORKING [] "Connection refused".
Definition workingEvent : Event :=
  mkEvent 7 1700000020 EventType.WORKING MonitorStatus.FAILED [] "".
Definition plainBase64 (data : QByteArray) : QString := string_of_list_byte data.

Definition idleEventReporter : EventReporter := mkEventReporter [] None [] [].

Definition okResponse : QJsonValue := JObject [("status"%string, JString "OK")].
Definition busyResponse : QJsonValue := JObject [("status"%string, JString "busy")].

(** The user agent that the header loop of [startCheck] ends with: the
    value of the last default header named [user-agent], if there is one. *)
Fixpoint selectedUserAgent (headers : list (QByteArray * QByteArray))
    (userAgent : QByteArray) : QByteArray :=
  match headers with
  | [] => userAgent
  | (k, v) :: rest =>
      selectedUserAgent rest (if decide (k = defaultUserAgentHeaderString) then v else userAgent)
  end.

(** Every monitor of the host/scheme is a live object that the map holds
    under the monitor's own id. *)
Definition registeredUnderOwnId (w : World) : Prop :=
  forall id p, monitorsByMonitorId (hostScheme w) !! id = Some p ->
    exists m, monitors w !! p = Some m /\ currentMonitorId m = id.

(** What the trees that [customer/add] builds have in common: ids that
    are not zero, host/schemes filed under their own id with a valid URL,
    monitors that belong to their host/scheme, and a polling interval of
    20 seconds at least. *)
Definition wellFormedMonitor (monitorId : Z) (m : Monitor) : Prop :=
  monitorId <> 0 /\ hasHostScheme m = true.

Definition wellFormedHostSchemeTree `{QtText} (hostSchemeId : Z) (h : HostSchemeTree) : Prop :=
  hostSchemeId <> 0
  /\ treeHostSchemeId h = hostSchemeId
  /\ urlIsValid (treeUrl h) = true
  /\ map_Forall wellFormedMonitor (treeMonitors h).

Definition wellFormedCustomerTree `{QtText} (c : CustomerTree) : Prop :=
  20 <= currentPollingInterval (treeCustomer c)
  /\ currentCustomerId (treeCustomer c) <> 0
  /\ currentlyPaused (treeCustomer c) = false
  /\ map_Forall wellFormedHostSchemeTree (treeHostSchemes c).



(** Names in capital letters and underscores, and text without a dash. *)
Definition capitalName (s : string) : Prop :=
  Forall (fun c => c = "_"%char \/ (65 <= nat_of_ascii c <= 90)%nat) (list_ascii_of_string s).

Definition dashFree (s : string) : Prop := "-"%char ∉ list_ascii_of_string s.

(** Monitor 7, failed, and monitor 7 looking for either keyword. *)
Definition failedMonitor : Monitor :=
  exampleMonitor ContentCheckMode.NO_CHECK [] MonitorStatus.FAILED None.

Definition anyKeywordsMonitor : Monitor :=
  exampleMonitor ContentCheckMode.ANY_KEYWORDS [alpha; beta] MonitorStatus.WORKING None.

(** The example host/scheme after the first check of its monitor. *)
Definition afterFirstCheck : World :=
  default (exampleWorld workingMonitor false ∅)
    (finalState (startCheck 1%positive (exampleWorld workingMonitor false ∅))).

(** Monitor 7 watching its content for a change. *)
Definition contentMatchMonitor : Monitor :=
  exampleMonitor ContentCheckMode.CONTENT_MATCH [] MonitorStatus.WORKING None.

(** * Properties *)
Ltac monad :=
  unfold mbind, M_bind, mret, M_ret, get, modify, crash, liftR, when,
    getMonitor, updateMonitor, getHostScheme, getCustomer,
    currentSecsSinceEpoch, reportEvent, recordLatencySample,
    reportSslCertificateExpirationChange; simpl.

(** ** The keyword scans *)

Section KeywordScans.
Context `{External}.

Lemma allKeyword_loop (keywords : list QByteArray) (receivedData : QByteArray) :
  forall (rest seen : list QByteArray) (fuel : nat) (hash : QByteArray) (missing : QString),
    keywords = seen ++ rest -> rest <> [] -> (length rest <= fuel)%nat ->
    do_while (allKeywordBody keywords receivedData) (allKeywordCond (length keywords)) fuel
      (mkKeywordLoop (length seen) true hash missing)
    = Some (mkKeywordLoop
              (length seen + length (foundPrefix receivedData rest))
              (bool_decide (firstMissing receivedData rest = None))
              (hash ++ concat (foundPrefix receivedData rest))
              (match firstMissing receivedData rest with
               | Some k => fromUtf8 k
               | None => missing
               end)).
Proof.
  induction rest as [|k rest IH]; intros seen fuel hash missing Hk Hne Hfuel; [done|].
  destruct fuel as [|fuel]; [simpl in Hfuel; lia|].
  assert (Hnth : nth (length seen) keywords [] = k).
  { subst keywords. rewrite app_nth2 by lia. by rewrite Nat.sub_diag. }
  assert (Hlen : length keywords = (length seen + S (length rest))%nat).
  { subst keywords. rewrite length_app. done. }
  cbn [do_while foundPrefix firstMissing].
  destruct (contains receivedData k) eqn:Hc.
  - assert (Hbody : allKeywordBody keywords receivedData
                      (mkKeywordLoop (length seen) true hash missing)
                    = mkKeywordLoop (S (length seen)) true (hash ++ k) missing).
    { unfold allKeywordBody. cbn [loopIndex]. by rewrite Hnth, Hc. }
    rewrite !Hbody. unfold allKeywordCond. cbn [loopSuccess loopIndex andb].
    destruct (decide (rest = [])) as [->|Hrest].
    + rewrite bool_decide_eq_false_2 by (simpl in Hlen; lia).
      simpl. rewrite app_nil_r. do 2 f_equal. lia.
    + rewrite bool_decide_eq_true_2 by (destruct rest; [done|simpl in Hlen; lia]).
      specialize (IH (seen ++ [k]) fuel (hash ++ k) missing).
      rewrite length_app in IH. simpl in IH.
      replace (length seen + 1)%nat with (S (length seen)) in IH by lia.
      fold (allKeywordCond (length keywords)).
      rewrite IH.
      * f_equal. cbn [length concat]. f_equal; [lia|]. by rewrite <- app_assoc.
      * subst keywords. by rewrite <- app_assoc.
      * done.
      * simpl in Hfuel. simpl. lia.
  - assert (Hbody : allKeywordBody keywords receivedData
                      (mkKeywordLoop (length seen) true hash missing)
                    = mkKeywordLoop (length seen) false hash (fromUtf8 k)).
    { unfold allKeywordBody. cbn [loopIndex]. by rewrite Hnth, Hc. }
    rewrite !Hbody. unfold allKeywordCond. cbn [loopSuccess loopIndex andb].
    simpl. rewrite app_nil_r. do 2 f_equal. lia.
Qed.

Lemma allKeywordScan_eq (m : Monitor) (receivedData : QByteArray) :
  currentKeywords m <> [] ->
  allKeywordScan m receivedData
  = Some (mkKeywordLoop
            (length (foundPrefix receivedData (currentKeywords m)))
            (bool_decide (firstMissing receivedData (currentKeywords m) = None))
            (le32 (currentMonitorId m) ++ receivedData
             ++ concat (foundPrefix receivedData (currentKeywords m)))
            (match firstMissing receivedData (currentKeywords m) with
             | Some k => fromUtf8 k
             | None => ""%string
             end)).
Proof.
  intros Hne. unfold allKeywordScan.
  rewrite (allKeyword_loop (currentKeywords m) receivedData (currentKeywords m) [])
    by (done || lia).
  simpl. done.
Qed.

Lemma anyKeyword_loop (keywords : list QByteArray) (receivedData : QByteArray) :
  forall (rest seen : list QByteArray) (fuel : nat) (hash : QByteArray) (missing : QString),
    keywords = seen ++ rest -> rest <> [] -> (length rest <= fuel)%nat ->
    exists i,
      do_while (anyKeywordBody keywords receivedData) (anyKeywordCond (length keywords)) fuel
        (mkKeywordLoop (length seen) false hash missing)
      = Some (mkKeywordLoop i
                (bool_decide (is_Some (firstFound receivedData rest)))
                (hash ++ default [] (firstFound receivedData rest))
                missing).
Proof.
  induction rest as [|k rest IH]; intros seen fuel hash missing Hk Hne Hfuel; [done|].
  destruct fuel as [|fuel]; [simpl in Hfuel; lia|].
  assert (Hnth : nth (length seen) keywords [] = k).
  { subst keywords. rewrite app_nth2 by lia. by rewrite Nat.sub_diag. }
  assert (Hlen : length keywords = (length seen + S (length rest))%nat).
  { subst keywords. rewrite length_app. done. }
  cbn [do_while firstFound].
  assert (Hbody : anyKeywordBody keywords receivedData
                    (mkKeywordLoop (length seen) false hash missing)
                  = mkKeywordLoop (S (length seen)) (contains receivedData k)
                      (if contains receivedData k then hash ++ k else hash) missing).
  { unfold anyKeywordBody. cbn [loopIndex loopHashData loopMissingKeyword]. by rewrite Hnth. }
  rewrite !Hbody. unfold anyKeywordCond. cbn [loopSuccess loopIndex].
  destruct (contains receivedData k) eqn:Hc; cbn [negb andb].
  - eexists. rewrite bool_decide_eq_true_2 by eauto. done.
  - destruct (decide (rest = [])) as [->|Hrest].
    + eexists. rewrite bool_decide_eq_false_2 by (simpl in Hlen; lia).
      simpl. by rewrite app_nil_r.
    + specialize (IH (seen ++ [k]) fuel hash missing).
      rewrite length_app in IH. simpl in IH.
      replace (length seen + 1)%nat with (S (length seen)) in IH by lia.
      destruct IH as [i Hi]; [|done|simpl in Hfuel; simpl; lia|].
      { subst keywords. by rewrite <- app_assoc. }
      exists i.
      rewrite bool_decide_eq_true_2 by (destruct rest; [done|simpl in Hlen; lia]).
      exact Hi.
Qed.

Lemma anyKeywordScan_eq (m : Monitor) (receivedData : QByteArray) :
  currentKeywords m <> [] ->
  exists i,
    anyKeywordScan m receivedData
    = Some (mkKeywordLoop i
              (bool_decide (is_Some (firstFound receivedData (currentKeywords m))))
              ((le32 (currentMonitorId m) ++ receivedData)
               ++ default [] (firstFound receivedData (currentKeywords m)))
              ""%string).
Proof.
  intros Hne. unfold anyKeywordScan.
  apply (anyKeyword_loop (currentKeywords m) receivedData (currentKeywords m) []); done.
Qed.

End KeywordScans.

(** ** Cursors *)

Section CursorFacts.
Context {K : Type} `{EqDecision K}.

Lemma cbegin_elem (order : list K) :
  order <> [] -> exists q, cbegin order = At q /\ q ∈ order.
Proof. destruct order as [|q rest]; [done|]. intros _. exists q. split; [done|]. left. Qed.

Lemma cbegin_cases (order : list K) :
  (order = [] /\ cbegin order = AtEnd) \/ (exists q, cbegin order = At q /\ q ∈ order).
Proof.
  destruct order as [|q rest]; [by left|]. right. exists q. split; [done|]. left.
Qed.

Lemma after_elem (k : K) (order : list K) :
  k ∈ order -> NoDup order ->
  exists c, after k order = Some c
            /\ (c = AtEnd \/ exists q, c = At q /\ q ∈ order /\ q <> k).
Proof.
  induction order as [|x rest IH]; intros Hin Hnd; [by apply elem_of_nil in Hin|].
  apply NoDup_cons in Hnd as [Hx Hnd]. simpl.
  destruct (decide (x = k)) as [->|Hne].
  - eexists. split; [done|].
    destruct (cbegin_cases rest) as [[_ ->]|(q & -> & Hq)]; [by left|].
    right. exists q. repeat split; [by right|]. intros ->. done.
  - apply elem_of_cons in Hin as [->|Hin]; [done|].
    destruct (IH Hin Hnd) as (c & -> & Hc). exists c. split; [done|].
    destruct Hc as [->|(q & -> & Hq & Hqk)]; [by left|].
    right. exists q. repeat split; [by right|done].
Qed.

Lemma ckey_At (order : list K) (q : K) : q ∈ order -> ckey order (At q) = Ok q.
Proof. intros Hq. unfold ckey. by rewrite decide_True. Qed.


End CursorFacts.

(** With an empty container every iterator is unusable: [begin()] is
    [end()], and no key is in the container. *)
Lemma ckey_empty {K : Type} `{EqDecision K} (c : Cursor K) :
  exists f, ckey [] (wrap_to_begin [] c) = Crash f.
Proof.
  destruct c as [| |k]; simpl; eauto.
Qed.

#[global] Arguments ckey : simpl never.
#[global] Arguments cnext : simpl never.

(** ** The host/scheme and its monitors *)

Lemma similar_refl (b : bool) (m : Monitor) : similar b m m.
Proof. by repeat split. Qed.

Lemma similar_trans (b : bool) (m1 m2 m3 : Monitor) :
  similar b m1 m2 -> similar b m2 m3 -> similar b m1 m3.
Proof.
  intros (a1 & a2 & a3 & a4 & a5 & a6) (b1 & b2 & b3 & b4 & b5 & b6).
  repeat split; try congruence.
  intros Hb Hp. rewrite b6, a6; congruence.
Qed.

Lemma similarMonitors_refl (b : bool) (w : World) : similarMonitors b w w.
Proof. intros q. destruct (monitors w !! q); constructor. apply similar_refl. Qed.


Lemma similarMonitors_alter (b : bool) (w : World) (f : Monitor -> Monitor) (p : ptr) :
  (forall m, monitors w !! p = Some m -> similar b m (f m)) ->
  similarMonitors b w (withMonitors (alter f p) w).
Proof.
  intros Hf q. simpl. destruct (decide (p = q)) as [->|Hne].
  - rewrite lookup_alter_eq. destruct (monitors w !! q) eqn:E; constructor. by apply Hf.
  - rewrite lookup_alter_ne by done. destruct (monitors w !! q); constructor.
    apply similar_refl.
Qed.

Lemma similarMonitors_lookup (b : bool) (w w' : World) (q : ptr) (m : Monitor) :
  similarMonitors b w w' -> monitors w !! q = Some m ->
  exists m', monitors w' !! q = Some m' /\ similar b m m'.
Proof.
  intros Hs Hm. specialize (Hs q). rewrite Hm in Hs.
  inversion Hs as [x y Hxy Ex Ey|]; subst. eauto.
Qed.

Lemma bind_ok {S A B : Type} (c : M S A) (f : A -> M S B) (s s1 : S) (a : A) :
  c s = Ok (a, s1) -> (c ≫= f) s = f a s1.
Proof. intros Hc. unfold mbind, M_bind. by rewrite Hc. Qed.

(** [startCheck] on a live monitor returns; it reports nothing and leaves
    the host/scheme, the customer and every status as they are. *)
Lemma startCheck_ok (w : World) (p : ptr) :
  is_Some (monitors w !! p) ->
  is_Some (customer w) ->
  currentNetworkAccessManager (hostScheme w) = true ->
  exists w',
    startCheck p w = Ok (tt, w')
    /\ hostScheme w' = hostScheme w
    /\ customer w' = customer w
    /\ clock w' = clock w
    /\ reportedEvents w' = reportedEvents w
    /\ similarMonitors true w w'.
Proof.
  intros [m Hm] [c Hc] Hnam. unfold startCheck. monad. rewrite Hm.
  destruct (pendingReply m) as [r|] eqn:Hr.
  { exists w. repeat split; try done. apply similarMonitors_refl. }
  destruct (hasHostScheme m) eqn:Hp.
  - rewrite Hc. simpl. destruct (currentlyPaused c).
    { exists w. repeat split; try done. apply similarMonitors_refl. }
    rewrite Hnam. simpl. eexists. split; [reflexivity|]. repeat split; try done.
    apply (similarMonitors_alter true
             (withSentRequests _ (withReplies _ (withNextReply _ w)))).
    intros m0 _. by repeat split.
  - eexists. split; [reflexivity|]. repeat split; try done.
    apply similarMonitors_alter. intros m0 Hm0. simpl in Hm0.
    assert (m0 = m) as -> by congruence.
    repeat split; try done. congruence.
Qed.

Lemma cbegin_elements_ok (s : gset ptr) : cursorOk s (cbegin (elements s)).
Proof.
  destruct (cbegin_cases (elements s)) as [[He ->]|(q & -> & Hq)]; simpl.
  - by apply elements_empty_inv in He; apply leibniz_equiv in He.
  - by apply elem_of_elements in Hq.
Qed.

Lemma cnext_elements_ok (s : gset ptr) (q : ptr) :
  q ∈ s ->
  exists c, cnext (elements s) (At q) = Ok c
            /\ (c = AtEnd \/ exists q', c = At q' /\ q' ∈ s /\ q' <> q).
Proof.
  intros Hq. unfold cnext.
  destruct (after_elem q (elements s)) as (c & -> & Hc).
  { by apply elem_of_elements. }
  { apply NoDup_elements. }
  exists c. split; [done|].
  destruct Hc as [->|(q' & -> & Hq' & Hne)]; [by left|].
  right. exists q'. repeat split; [|done]. by apply elem_of_elements in Hq'.
Qed.

Lemma wrap_to_begin_ok (s : gset ptr) (c : Cursor ptr) :
  (c = AtEnd \/ exists q, c = At q /\ q ∈ s) ->
  cursorOk s (wrap_to_begin (elements s) c).
Proof.
  intros [->|(q & -> & Hq)]; simpl; [apply cbegin_elements_ok|done].
Qed.

Lemma sameDirectory_refl (w : World) : sameDirectory w w.
Proof. by repeat split. Qed.

Lemma sameDirectory_trans (w1 w2 w3 : World) :
  sameDirectory w1 w2 -> sameDirectory w2 w3 -> sameDirectory w1 w3.
Proof.
  intros (a1 & a2 & a3 & a4 & a5 & a6) (b1 & b2 & b3 & b4 & b5 & b6).
  repeat split; congruence.
Qed.

Lemma eraseNonResponsive_ok (w : World) (p : ptr) :
  cursorOk (nonResponsiveMonitors (hostScheme w))
    (nonResponsiveMonitorsIterator (hostScheme w)) ->
  exists w',
    eraseNonResponsive p w = Ok (tt, w')
    /\ monitors w' = monitors w
    /\ reportedEvents w' = reportedEvents w
    /\ sameDirectory w w'
    /\ nonResponsiveMonitors (hostScheme w') = nonResponsiveMonitors (hostScheme w) ∖ {[ p ]}
    /\ cursorOk (nonResponsiveMonitors (hostScheme w'))
         (nonResponsiveMonitorsIterator (hostScheme w')).
Proof.
  intros Hcur. unfold eraseNonResponsive. monad.
  destruct (nonResponsiveMonitorsIterator (hostScheme w)) as [| |q] eqn:Hit; simpl in *.
  - done.
  - eexists. split; [reflexivity|]. simpl. repeat split; try done.
    rewrite Hit, Hcur. simpl. set_solver.
  - rewrite (ckey_At (elements _) q) by (by apply elem_of_elements). simpl.
    destruct (bool_decide (q = p)) eqn:Hqp.
    + apply bool_decide_eq_true in Hqp as ->.
      destruct (cnext_elements_ok _ p Hcur) as (c & Hc & Hcases).
      rewrite Hc. simpl.
      eexists. split; [reflexivity|]. simpl. repeat split; try done.
      destruct Hcases as [->|(q' & -> & Hq' & Hne)]; simpl.
      * destruct (bool_decide (_ = ∅)) eqn:He; simpl.
        -- by apply bool_decide_eq_true in He.
        -- apply cbegin_elements_ok.
      * set_solver.
    + apply bool_decide_eq_false in Hqp.
      eexists. split; [reflexivity|]. simpl. rewrite Hit. repeat split; try done.
      simpl. set_solver.
Qed.

(** [HostScheme::monitorNowResponsive] returns; the monitor leaves the set
    of non-responsive monitors, nothing is reported, no status changes. *)
Lemma monitorNowResponsive_ok (w : World) (p : ptr) :
  wellFormed w ->
  exists w',
    monitorNowResponsive p w = Ok (tt, w')
    /\ reportedEvents w' = reportedEvents w
    /\ sameDirectory w w'
    /\ similarMonitors true w w'
    /\ nonResponsiveMonitors (hostScheme w') = nonResponsiveMonitors (hostScheme w) ∖ {[ p ]}
    /\ cursorOk (nonResponsiveMonitors (hostScheme w'))
         (nonResponsiveMonitorsIterator (hostScheme w')).
Proof.
  intros (Hcust & Hnam & Hlive & Hcur).
  destruct (eraseNonResponsive_ok w p Hcur) as (w1 & He & Hmon & Hev & Hdir & Hset & Hcur1).
  unfold monitorNowResponsive.
  rewrite (bind_ok _ _ _ _ _ He). clear He. monad.
  destruct (decide (nonResponsiveMonitors (hostScheme w1) = ∅)) as [Hempty|Hne].
  { exists w1. repeat split; try done; try apply Hdir.
    intros q. rewrite Hmon. destruct (monitors w !! q); constructor. apply similar_refl. }
  destruct (cbegin_elem (elements (nonResponsiveMonitors (hostScheme w1))))
    as (next & Hbegin & Hnext).
  { intros Hnil. apply Hne. apply elements_empty_inv in Hnil. by apply leibniz_equiv in Hnil. }
  rewrite Hbegin, (ckey_At _ next Hnext). simpl.
  apply elem_of_elements in Hnext.
  destruct (nonResponsiveMonitorsIterator (hostScheme w1)) as [| |q] eqn:Hit; simpl in Hcur1;
    [done|done|].
  destruct (cnext_elements_ok _ q Hcur1) as (c & Hc & Hcases). rewrite Hc. simpl.
  set (w2 := withHostScheme _ w1).
  destruct (startCheck_ok w2 next) as (w3 & Hs & Hhs & Hcu & Hcl & Hevs & Hsim).
  { subst w2. simpl. rewrite Hmon. apply Hlive. rewrite Hset in Hnext. set_solver. }
  { subst w2. simpl. destruct Hdir as (_ & _ & _ & _ & -> & _). done. }
  { subst w2. simpl. destruct Hdir as (_ & -> & _). done. }
  exists w3. split; [exact Hs|].
  destruct Hdir as (d1 & d2 & d3 & d4 & d5 & d6).
  unfold sameDirectory. rewrite Hhs, Hcu, Hcl, Hevs. subst w2. simpl.
  split; [done|]. split; [done|]. split.
  { intros q0. specialize (Hsim q0). simpl in Hsim. by rewrite Hmon in Hsim. }
  split; [done|].
  apply wrap_to_begin_ok.
  destruct Hcases as [->|(q' & -> & Hq' & _)]; [by left|right; eauto].
Qed.

(** [HostScheme::monitorNonResponsive] returns; the monitor joins the set. *)
Lemma monitorNonResponsive_ok (w : World) (p : ptr) :
  cursorOk (nonResponsiveMonitors (hostScheme w))
    (nonResponsiveMonitorsIterator (hostScheme w)) ->
  exists w',
    monitorNonResponsive p w = Ok (tt, w')
    /\ monitors w' = monitors w
    /\ reportedEvents w' = reportedEvents w
    /\ sameDirectory w w'
    /\ nonResponsiveMonitors (hostScheme w') = {[ p ]} ∪ nonResponsiveMonitors (hostScheme w)
    /\ cursorOk (nonResponsiveMonitors (hostScheme w'))
         (nonResponsiveMonitorsIterator (hostScheme w')).
Proof.
  intros Hcur. unfold monitorNonResponsive. monad.
  destruct (decide (nonResponsiveMonitors (hostScheme w) = ∅)) as [He|Hne].
  - eexists. split; [reflexivity|]. simpl. repeat split; try done.
    apply cbegin_elements_ok.
  - eexists. split; [reflexivity|]. simpl. repeat split; try done.
    destruct (nonResponsiveMonitorsIterator (hostScheme w)); simpl in *; [done|done|].
    set_solver.
Qed.

Section Responses.
Context `{External}.

Ltac done_similar w0 :=
  first
    [ apply similarMonitors_refl
    | apply (similarMonitors_alter false w0); intros; by repeat split ].

(** Every content check returns on a live monitor; it may report an event
    and store a hash, and touches nothing else. *)
Lemma contentCheck_ok (w : World) (this : ptr) (m : Monitor) (receivedData : QByteArray) :
  monitors w !! this = Some m ->
  exists w',
    match currentContentCheckMode m with
    | ContentCheckMode.NO_CHECK => mret tt
    | ContentCheckMode.CONTENT_MATCH => checkContentChange this receivedData
    | ContentCheckMode.ANY_KEYWORDS => checkAnyKeywordMatch this receivedData
    | ContentCheckMode.ALL_KEYWORDS => checkAllKeywordMatch this receivedData
    | ContentCheckMode.SMART_CONTENT_MATCH => checkContentChangeSmart this receivedData
    end w = Ok (tt, w')
    /\ hostScheme w' = hostScheme w
    /\ customer w' = customer w
    /\ clock w' = clock w
    /\ similarMonitors false w w'.
Proof.
  intros Hm. destruct (currentContentCheckMode m).
  - exists w. repeat split; try done. apply similarMonitors_refl.
  - unfold checkContentChange. monad. rewrite Hm.
    destruct (lastHash m) as [|b l] eqn:Hl.
    + eexists. split; [reflexivity|]. repeat split; try done. done_similar w.
    + destruct (decide _).
      * exists w. repeat split; try done. apply similarMonitors_refl.
      * eexists. split; [reflexivity|]. repeat split; try done.
        done_similar (withReportedEvents
          (fun l0 => l0 ++ [mkEvent (currentMonitorId m) (clock w) EventType.CONTENT_CHANGED
                              (currentMonitorStatus m)
                              (Sha256 (le32 (currentMonitorId m) ++ receivedData)) ""]) w).
  - unfold checkAnyKeywordMatch. monad. rewrite Hm.
    destruct (bool_decide (0 < length (currentKeywords m))%nat) eqn:Hk.
    2:{ exists w. repeat split; try done. apply similarMonitors_refl. }
    apply bool_decide_eq_true in Hk.
    destruct (anyKeywordScan_eq m receivedData) as [i ->].
    { intros E. rewrite E in Hk. simpl in Hk. lia. }
    simpl.
    destruct (negb _ && negb _); simpl.
    + eexists. split; [reflexivity|]. repeat split; try done.
      match goal with |- similarMonitors _ _ (withMonitors _ ?w0) => done_similar w0 end.
    + eexists. split; [reflexivity|]. repeat split; try done. done_similar w.
  - unfold checkAllKeywordMatch. monad. rewrite Hm.
    destruct (bool_decide (0 < length (currentKeywords m))%nat) eqn:Hk.
    2:{ exists w. repeat split; try done. apply similarMonitors_refl. }
    apply bool_decide_eq_true in Hk.
    rewrite allKeywordScan_eq.
    2:{ intros E. rewrite E in Hk. simpl in Hk. lia. }
    simpl.
    destruct (negb _ && negb _); simpl.
    + eexists. split; [reflexivity|]. repeat split; try done.
      match goal with |- similarMonitors _ _ (withMonitors _ ?w0) => done_similar w0 end.
    + eexists. split; [reflexivity|]. repeat split; try done. done_similar w.
  - unfold checkContentChangeSmart. monad. rewrite Hm.
    destruct (lastHash m) as [|b l] eqn:Hl.
    + eexists. split; [reflexivity|]. repeat split; try done. done_similar w.
    + destruct (decide _).
      * exists w. repeat split; try done. apply similarMonitors_refl.
      * eexists. split; [reflexivity|]. repeat split; try done.
        match goal with |- similarMonitors _ _ (withMonitors _ ?w0) => done_similar w0 end.
Qed.

(** The first step of [processValidResponse]: a monitor that was not
    [WORKING] leaves the set of non-responsive monitors and a [WORKING]
    event is reported. *)
Lemma recovery_ok (w : World) (this : ptr) (m : Monitor) :
  wellFormed w ->
  hasHostScheme m = true ->
  exists w1,
    when (negb (bool_decide (currentMonitorStatus m = MonitorStatus.WORKING)))
      ((if hasHostScheme m then monitorNowResponsive this else crash NullDeref);;
       t ← currentSecsSinceEpoch;
       reportEvent (currentMonitorId m) t EventType.WORKING (currentMonitorStatus m) [] "")
      w = Ok (tt, w1)
    /\ reportedEvents w1
       = reportedEvents w
         ++ (if decide (currentMonitorStatus m = MonitorStatus.WORKING) then []
             else [mkEvent (currentMonitorId m) (clock w) EventType.WORKING
                     (currentMonitorStatus m) [] ""])
    /\ sameDirectory w w1
    /\ similarMonitors true w w1
    /\ nonResponsiveMonitors (hostScheme w1)
       = (if decide (currentMonitorStatus m = MonitorStatus.WORKING)
          then nonResponsiveMonitors (hostScheme w)
          else nonResponsiveMonitors (hostScheme w) ∖ {[ this ]})
    /\ cursorOk (nonResponsiveMonitors (hostScheme w1))
         (nonResponsiveMonitorsIterator (hostScheme w1)).
Proof.
  intros Hwf Hp. assert (Hcur := Hwf). destruct Hcur as (_ & _ & _ & Hcur).
  destruct (decide (currentMonitorStatus m = MonitorStatus.WORKING)) as [Hw|Hw].
  - rewrite bool_decide_eq_true_2 by done. simpl.
    exists w. rewrite app_nil_r. repeat split; try done. apply similarMonitors_refl.
  - rewrite bool_decide_eq_false_2 by done. simpl. rewrite Hp.
    destruct (monitorNowResponsive_ok w this Hwf) as (w1 & Hr & Hev & Hdir & Hsim & Hset & Hcur1).
    rewrite (bind_ok _ _ _ _ _ Hr). monad.
    eexists. split; [reflexivity|]. simpl.
    destruct Hdir as (d1 & d2 & d3 & d4 & d5 & d6).
    rewrite Hev, d6. repeat split; done.
Qed.

(** [Monitor::processValidResponse] returns on a well-formed host/scheme:
    the monitor is [WORKING] afterwards and out of the set of
    non-responsive monitors, where it was only if it was not [WORKING]. *)
Lemma processValidResponse_ok (w : World) (this : ptr) (m : Monitor)
    (elapsed : Z) (reply : Reply) :
  wellFormed w ->
  monitors w !! this = Some m ->
  hasHostScheme m = true ->
  exists w',
    processValidResponse this elapsed reply w = Ok (tt, w')
    /\ monitorsByMonitorId (hostScheme w') = monitorsByMonitorId (hostScheme w)
    /\ currentNetworkAccessManager (hostScheme w') = currentNetworkAccessManager (hostScheme w)
    /\ customer w' = customer w
    /\ nonResponsiveMonitors (hostScheme w')
       = (if decide (currentMonitorStatus m = MonitorStatus.WORKING)
          then nonResponsiveMonitors (hostScheme w)
          else nonResponsiveMonitors (hostScheme w) ∖ {[ this ]})
    /\ cursorOk (nonResponsiveMonitors (hostScheme w'))
         (nonResponsiveMonitorsIterator (hostScheme w'))
    /\ (forall q, q <> this ->
          option_Forall2 (similar false) (monitors w !! q) (monitors w' !! q))
    /\ (exists m', monitors w' !! this = Some m'
                   /\ currentMonitorStatus m' = MonitorStatus.WORKING
                   /\ hasHostScheme m' = true).
Proof.
  intros Hwf Hm Hp.
  assert (Hwf' := Hwf). destruct Hwf' as ([c Hc] & Hnam & Hlive & Hcur).
  destruct (recovery_ok w this m Hwf Hp) as (w1 & H1 & _ & Hdir & Hsim & Hset & Hcur1).
  unfold processValidResponse.
  rewrite (bind_ok _ _ w w m) by (unfold getMonitor; by rewrite Hm).
  rewrite (bind_ok _ _ _ _ _ H1). clear H1.
  (* the status *)
  destruct (similarMonitors_lookup _ _ _ _ _ Hsim Hm) as (m1 & Hm1 & Hs1).
  destruct Hs1 as (s1 & s2 & s3 & s4 & s5 & s6).
  set (w2 := withMonitors (alter (setMonitorStatus MonitorStatus.WORKING) this) w1).
  rewrite (bind_ok _ _ w1 w2 tt) by done.
  assert (Hm2 : monitors w2 !! this = Some (setMonitorStatus MonitorStatus.WORKING m1)).
  { subst w2. simpl. by rewrite lookup_alter_eq, Hm1. }
  (* the content check *)
  destruct (contentCheck_ok w2 this _ (replyBody reply) Hm2) as (w3 & H3 & Hhs3 & Hcu3 & Hcl3 & Hsim3).
  simpl in H3. rewrite s5 in H3.
  rewrite (bind_ok _ _ _ _ _ H3). clear H3.
  destruct (similarMonitors_lookup _ _ _ _ _ Hsim3 Hm2) as (m3 & Hm3 & Hs3).
  destruct Hs3 as (t1 & t2 & t3 & t4 & t5 & _). simpl in t1, t2.
  destruct Hdir as (d1 & d2 & d3 & d4 & d5 & d6).
  (* the latency sample and the certificate *)
  assert (Hc3 : customer w3 = Some c) by (rewrite Hcu3; subst w2; simpl; congruence).
  rewrite Hp. monad. rewrite Hc3. subst w2. simpl. rewrite Hm3. simpl.
  assert (Hothers : forall q, q <> this ->
            option_Forall2 (similar false) (monitors w !! q) (monitors w3 !! q)).
  { intros q Hq. specialize (Hsim q). specialize (Hsim3 q). simpl in Hsim3.
    rewrite lookup_alter_ne in Hsim3 by done.
    destruct Hsim as [a b Hab|]; inversion Hsim3; subst; constructor.
    eapply similar_trans; [|eassumption].
    destruct Hab as (? & ? & ? & ? & ? & ?). by repeat split. }
  assert (Hthis : exists m', monitors w3 !! this = Some m'
                   /\ currentMonitorStatus m' = MonitorStatus.WORKING
                   /\ hasHostScheme m' = true).
  { exists m3. repeat split; [done|done|congruence]. }
  destruct (currentSupportsLatencyMeasurements c); simpl;
    [destruct (bool_decide (_ <= _)); simpl|];
    (destruct (replyCertificateExpiry reply) as [expiry|]; simpl;
     [destruct (bool_decide (_ = u64 expiry)); simpl|]);
    (eexists; split; [reflexivity|]); simpl; rewrite ?Hhs3; simpl;
    repeat split; try done; try congruence.
Qed.

(** [Monitor::processErrorResponse] returns: a monitor that was not
    [FAILED] becomes [FAILED] and joins the set of non-responsive
    monitors; a [FAILED] one is left as it is. *)
Lemma processErrorResponse_ok (w : World) (this : ptr) (m : Monitor) (errorString : QString) :
  wellFormed w ->
  monitors w !! this = Some m ->
  hasHostScheme m = true ->
  exists w',
    processErrorResponse this errorString w = Ok (tt, w')
    /\ sameDirectory w w'
    /\ monitors w'
       = (if decide (currentMonitorStatus m = MonitorStatus.FAILED) then monitors w
          else alter (setMonitorStatus MonitorStatus.FAILED) this (monitors w))
    /\ nonResponsiveMonitors (hostScheme w')
       = (if decide (currentMonitorStatus m = MonitorStatus.FAILED)
          then nonResponsiveMonitors (hostScheme w)
          else {[ this ]} ∪ nonResponsiveMonitors (hostScheme w))
    /\ cursorOk (nonResponsiveMonitors (hostScheme w'))
         (nonResponsiveMonitorsIterator (hostScheme w')).
Proof.
  intros (Hcust & Hnam & Hlive & Hcur) Hm Hp.
  unfold processErrorResponse.
  rewrite (bind_ok _ _ w w m) by (unfold getMonitor; by rewrite Hm).
  destruct (decide (currentMonitorStatus m = MonitorStatus.FAILED)) as [Hf|Hf].
  - rewrite bool_decide_eq_true_2 by done. simpl.
    exists w. repeat split; done.
  - rewrite bool_decide_eq_false_2 by done. simpl. rewrite Hp. monad.
    set (w1 := withMonitors _ _).
    destruct (monitorNonResponsive_ok w1 this) as (w2 & H2 & Hmon & Hev & Hdir & Hset & Hcur2).
    { subst w1. simpl. exact Hcur. }
    exists w2. split; [exact H2|]. subst w1. simpl in *. repeat split; try done; apply Hdir.
Qed.

(** ** The invariant of the suspect set *)

(** X2.  A transport success preserves the invariant: on a state that
    satisfies it, [processValidResponse] returns a state that satisfies it. *)
Lemma processValidResponse_preserves (w : World) (this : ptr) (m : Monitor)
    (elapsed : Z) (reply : Reply) :
  engineInvariant w ->
  monitors w !! this = Some m ->
  hasHostScheme m = true ->
  exists w', processValidResponse this elapsed reply w = Ok (tt, w') /\ engineInvariant w'.
Proof.
  intros [Hwf Hinv] Hm Hp.
  destruct (processValidResponse_ok w this m elapsed reply Hwf Hm Hp)
    as (w' & Hrun & Hby & Hnam' & Hcu & Hset & Hcur' & Hothers & (m' & Hm' & Hst' & Hp')).
  exists w'. split; [exact Hrun|].
  destruct Hwf as (Hcust & Hnam & Hlive & Hcur).
  assert (Hsub : nonResponsiveMonitors (hostScheme w') ⊆ nonResponsiveMonitors (hostScheme w)).
  { rewrite Hset. destruct (decide _); set_solver. }
  split.
  - repeat split; [by rewrite Hcu|congruence| |done].
    intros p Hin. destruct (decide (p = this)) as [->|Hne]; [eauto|].
    specialize (Hothers p Hne). destruct (Hlive p (Hsub p Hin)) as [x Hx].
    rewrite Hx in Hothers. inversion Hothers; subst. eauto.
  - intros id p Hid. rewrite Hby in Hid.
    destruct (Hinv id p Hid) as (mp & Hmp & Hiff).
    destruct (decide (p = this)) as [->|Hne].
    + exists m'. split; [done|]. rewrite Hst'. split; [|done].
      intros Hin. exfalso. rewrite Hset in Hin.
      assert (mp = m) as -> by congruence.
      destruct (decide (currentMonitorStatus m = MonitorStatus.WORKING)) as [Hw|Hw].
      * apply Hiff in Hin. done.
      * set_solver.
    + specialize (Hothers p Hne). rewrite Hmp in Hothers.
      inversion Hothers as [x y Hxy Ex Ey|]; subst.
      exists y. split; [done|]. destruct Hxy as (-> & _). rewrite <- Hiff, Hset.
      destruct (decide _); set_solver.
Qed.

(** X3.  A transport error preserves the invariant: on a state that
    satisfies it, [processErrorResponse] returns a state that satisfies it. *)
Lemma processErrorResponse_preserves (w : World) (this : ptr) (m : Monitor)
    (errorString : QString) :
  engineInvariant w ->
  monitors w !! this = Some m ->
  hasHostScheme m = true ->
  exists w', processErrorResponse this errorString w = Ok (tt, w') /\ engineInvariant w'.
Proof.
  intros [Hwf Hinv] Hm Hp.
  destruct (processErrorResponse_ok w this m errorString Hwf Hm Hp)
    as (w' & Hrun & Hdir & Hmon & Hset & Hcur').
  exists w'. split; [exact Hrun|].
  destruct Hwf as (Hcust & Hnam & Hlive & Hcur).
  destruct Hdir as (d1 & d2 & d3 & d4 & d5 & d6).
  destruct (decide (currentMonitorStatus m = MonitorStatus.FAILED)) as [Hf|Hf].
  - split.
    + repeat split; [by rewrite d5|congruence| |done].
      intros p Hin. rewrite Hmon. apply Hlive. by rewrite Hset in Hin.
    + intros id p Hid. rewrite d1 in Hid. rewrite Hmon, Hset. exact (Hinv id p Hid).
  - split.
    + repeat split; [by rewrite d5|congruence| |done].
      intros p Hin. rewrite Hmon. rewrite Hset in Hin.
      destruct (decide (p = this)) as [->|Hne].
      * rewrite lookup_alter_eq, Hm. eauto.
      * rewrite lookup_alter_ne by done. apply Hlive. set_solver.
    + intros id p Hid. rewrite d1 in Hid. rewrite Hmon, Hset.
      destruct (Hinv id p Hid) as (mp & Hmp & Hiff).
      destruct (decide (p = this)) as [->|Hne].
      * rewrite lookup_alter_eq, Hm. eexists. split; [done|]. simpl.
        split; [done|]. set_solver.
      * rewrite lookup_alter_ne by done. exists mp. split; [done|].
        rewrite <- Hiff. set_solver.
Qed.

End Responses.

(** X4.  Adding a monitor that is not [WORKING], as every monitor is when
    the handler of [customer/add] has just built it, preserves the
    invariant. *)
Lemma addMonitor_preserves (w : World) (monitor : ptr) (m : Monitor) :
  engineInvariant w ->
  monitors w !! monitor = Some m ->
  currentMonitorStatus m <> MonitorStatus.WORKING ->
  exists w', addMonitor monitor w = Ok (tt, w') /\ engineInvariant w'.
Proof.
  intros [(Hcust & Hnam & Hlive & Hcur) Hinv] Hm Hst.
  unfold addMonitor, monitorAdded. monad. rewrite Hm. simpl.
  rewrite lookup_alter_eq, Hm. simpl.
  assert (Hgoal : forall (c1 : Cursor Z) (c2 : Cursor ptr),
    cursorOk ({[ monitor ]} ∪ nonResponsiveMonitors (hostScheme w)) c2 ->
    engineInvariant
      (withHostScheme (fun _ =>
         mkHostScheme (currentHostSchemeId (hostScheme w)) (currentUrl (hostScheme w))
           (currentSslExpirationTimestamp (hostScheme w))
           (currentNetworkAccessManager (hostScheme w))
           (<[ currentMonitorId m := monitor ]> (monitorsByMonitorId (hostScheme w)))
           c1 ({[ monitor ]} ∪ nonResponsiveMonitors (hostScheme w)) c2)
         (withMonitors (alter (setParent true) monitor) w))).
  { intros c1 c2 Hc2. split.
    - repeat split; simpl; [done|done| |done].
      intros p Hin. destruct (decide (p = monitor)) as [->|Hne].
      + rewrite lookup_alter_eq, Hm. eauto.
      + rewrite lookup_alter_ne by done. apply Hlive. set_solver.
    - intros id p. simpl. intros Hid.
      destruct (decide (p = monitor)) as [->|Hne].
      + rewrite lookup_alter_eq, Hm. eexists. split; [done|]. simpl.
        split; [done|]. set_solver.
      + rewrite lookup_alter_ne by done.
        destruct (decide (currentMonitorId m = id)) as [<-|Hid'].
        * rewrite lookup_insert_eq in Hid. congruence.
        * rewrite lookup_insert_ne in Hid by done.
          destruct (Hinv id p Hid) as (mp & Hmp & Hiff).
          exists mp. split; [done|]. rewrite <- Hiff. set_solver. }
  assert (Hold : nonResponsiveMonitors (hostScheme w) <> ∅ ->
            cursorOk ({[ monitor ]} ∪ nonResponsiveMonitors (hostScheme w))
              (nonResponsiveMonitorsIterator (hostScheme w))).
  { intros Hne. destruct (nonResponsiveMonitorsIterator (hostScheme w)); simpl in *;
      [done|done|set_solver]. }
  destruct (bool_decide (monitorsByMonitorId (hostScheme w) = ∅));
    destruct (bool_decide (nonResponsiveMonitors (hostScheme w) = ∅)) eqn:He; simpl;
    (eexists; split; [reflexivity|]); apply Hgoal;
    first [ apply cbegin_elements_ok | apply Hold; by apply bool_decide_eq_false in He ].
Qed.

(** ** [HostScheme::serviceNextMonitor] *)




(** ** [HostScheme::serviceNextMonitor] on a host/scheme without monitors *)

(** C1 (the code departs from it).  A call of [serviceNextMonitor] on a
    host/scheme whose monitor map is empty does not return: there is no
    test for the empty map, [begin()] is [end()], and the iterator is
    dereferenced, whether it is the end sentinel, a default-constructed
    iterator or one left behind by a removal. *)
Theorem serviceNextMonitor_empty_map (w : World) :
  monitorsByMonitorId (hostScheme w) = ∅ ->
  serviceNextMonitor w
  = Crash (match monitorIterator (hostScheme w) with
           | Singular => DerefSingular
           | AtEnd => DerefEnd
           | At _ => UseAfterFree
           end).
Proof.
  intros Hempty. unfold serviceNextMonitor. monad. rewrite Hempty.
  rewrite map_to_list_empty. simpl.
  destruct (monitorIterator (hostScheme w)); reflexivity.
Qed.

(** ** [Monitor::abort] *)

(** C2 (the code departs from it).  [abort] on a monitor with a request in
    flight deletes the reply, reports nothing and sets the status to
    [UNKNOWN], but leaves [pendingReply] pointing at the deleted reply: the
    slot is not empty, and a later [startCheck] does nothing. *)
Theorem abort_keeps_pendingReply (w : World) (this : ptr) (m : Monitor) (r : ptr) :
  monitors w !! this = Some m ->
  pendingReply m = Some r ->
  r ∈ replies w ->
  exists w',
    abort this w = Ok (tt, w')
    /\ monitors w' !! this = Some (setMonitorStatus MonitorStatus.UNKNOWN m)
    /\ pendingReply (setMonitorStatus MonitorStatus.UNKNOWN m) = Some r
    /\ (r ∉ replies w')
    /\ reportedEvents w' = reportedEvents w
    /\ startCheck this w' = Ok (tt, w').
Proof.
  intros Hm Hr Hlive. unfold abort. monad. rewrite Hm, Hr.
  rewrite decide_True by done. simpl.
  eexists. split; [reflexivity|]. simpl.
  rewrite lookup_alter_eq, Hm. simpl.
  repeat split; try done.
  - set_solver.
  - unfold startCheck. monad. rewrite lookup_alter_eq, Hm. simpl. by rewrite Hr.
Qed.

(** C3 (the code departs from it).  [abort] on a [WORKING] monitor of the
    host/scheme sets its status to [UNKNOWN] without entering it in the set
    of non-responsive monitors: the invariant holds before and fails after. *)
Theorem abort_breaks_suspectInvariant (w : World) (this : ptr) (m : Monitor) (id : Z) :
  suspectInvariant w ->
  monitorsByMonitorId (hostScheme w) !! id = Some this ->
  monitors w !! this = Some m ->
  currentMonitorStatus m = MonitorStatus.WORKING ->
  (forall r, pendingReply m = Some r -> r ∈ replies w) ->
  exists w', abort this w = Ok (tt, w') /\ ~ suspectInvariant w'.
Proof.
  intros Hinv Hid Hm Hst Hr.
  destruct (Hinv id this Hid) as (m0 & Hm0 & Hiff0).
  assert (m0 = m) as -> by congruence.
  assert (Hbreak : forall w',
            hostScheme w' = hostScheme w ->
            monitors w' = alter (setMonitorStatus MonitorStatus.UNKNOWN) this (monitors w) ->
            ~ suspectInvariant w').
  { intros w' Hhs Hmons Hbad.
    destruct (Hbad id this) as (m' & Hm' & Hiff); [by rewrite Hhs|].
    rewrite Hmons, lookup_alter_eq, Hm in Hm'. simpl in Hm'.
    injection Hm' as <-. simpl in Hiff. rewrite Hhs in Hiff.
    assert (Hin : this ∈ nonResponsiveMonitors (hostScheme w)) by (by apply Hiff).
    apply Hiff0 in Hin. done. }
  unfold abort. monad. rewrite Hm. simpl.
  destruct (pendingReply m) as [r|] eqn:Hp; simpl.
  - rewrite decide_True by (by apply Hr).
    eexists. split; [reflexivity|]. by apply Hbreak.
  - eexists. split; [reflexivity|]. by apply Hbreak.
Qed.

(** ** The keyword checks *)

Lemma foundPrefix_firstMissing (receivedData : QByteArray) (keywords : list QByteArray) :
  Forall (fun k => contains receivedData k = true) (foundPrefix receivedData keywords)
  /\ match firstMissing receivedData keywords with
     | Some k =>
         contains receivedData k = false
         /\ exists rest, keywords = foundPrefix receivedData keywords ++ k :: rest
     | None => keywords = foundPrefix receivedData keywords
     end.
Proof.
  induction keywords as [|k rest [IHf IHm]]; simpl; [done|].
  destruct (contains receivedData k) eqn:Hc.
  - split; [by constructor|].
    destruct (firstMissing receivedData rest) as [k'|].
    + destruct IHm as [Hk' [rest' Hrest]]. split; [done|].
      exists rest'. simpl. by rewrite <- Hrest.
    + simpl. by rewrite <- IHm.
  - split; [constructor|]. split; [done|]. by exists rest.
Qed.

Section KeywordChecks.
Context `{External}.

(** C4, as amended.  In [ALL_KEYWORDS] mode with a non-empty keyword list
    the keywords are scanned in order up to the first one that the body
    does not contain; the keywords before it are added to the hash, which
    starts from the 4 little-endian bytes of the monitor id and the body.
    A [KEYWORDS] event is reported exactly when a keyword is missing and
    the hash differs from the stored one, its message naming the first
    missing keyword, and the new hash is stored in every case. *)
Theorem checkAllKeywordMatch_scans_to_first_missing
    (w : World) (this : ptr) (m : Monitor) (receivedData : QByteArray) :
  monitors w !! this = Some m ->
  currentKeywords m <> [] ->
  let thisHash :=
    Sha256 (le32 (currentMonitorId m) ++ receivedData
            ++ concat (foundPrefix receivedData (currentKeywords m))) in
  checkAllKeywordMatch this receivedData w
  = Ok (tt,
        withMonitors (alter (setLastHash thisHash) this)
          (match firstMissing receivedData (currentKeywords m) with
           | Some missing =>
               if decide (lastHash m = thisHash) then w
               else withReportedEvents
                      (fun l => l ++ [mkEvent (currentMonitorId m) (clock w) EventType.KEYWORDS
                                        (currentMonitorStatus m) thisHash
                                        (missingKeywordMessage (fromUtf8 missing))]) w
           | None => w
           end)).
Proof.
  intros Hm Hne thisHash. unfold checkAllKeywordMatch. monad. rewrite Hm.
  rewrite bool_decide_eq_true_2 by (destruct (currentKeywords m); [done|simpl; lia]).
  rewrite allKeywordScan_eq by done. simpl. fold thisHash.
  destruct (firstMissing receivedData (currentKeywords m)) as [missing|]; simpl; [|done].
  destruct (decide (lastHash m = thisHash)) as [Heq|Hneq].
  - by rewrite bool_decide_eq_true_2.
  - by rewrite bool_decide_eq_false_2.
Qed.

(** With an empty keyword list neither keyword check does anything. *)
Lemma checkKeywordMatch_empty (w : World) (this : ptr) (m : Monitor)
    (receivedData : QByteArray) :
  monitors w !! this = Some m ->
  currentKeywords m = [] ->
  checkAnyKeywordMatch this receivedData w = Ok (tt, w)
  /\ checkAllKeywordMatch this receivedData w = Ok (tt, w).
Proof.
  intros Hm Hk. unfold checkAnyKeywordMatch, checkAllKeywordMatch. monad.
  rewrite Hm, Hk. done.
Qed.

(** C10.  A transport success on a monitor in [ANY_KEYWORDS] or
    [ALL_KEYWORDS] mode with an empty keyword list checks nothing: whatever
    the body, no [KEYWORDS] event is reported and the stored hash stays as
    it was. *)
Theorem empty_keyword_list_checks_nothing (w : World) (this : ptr) (m : Monitor)
    (elapsed : Z) (reply : Reply) :
  wellFormed w ->
  monitors w !! this = Some m ->
  hasHostScheme m = true ->
  currentContentCheckMode m = ContentCheckMode.ANY_KEYWORDS
  \/ currentContentCheckMode m = ContentCheckMode.ALL_KEYWORDS ->
  currentKeywords m = [] ->
  exists w' m',
    processValidResponse this elapsed reply w = Ok (tt, w')
    /\ monitors w' !! this = Some m'
    /\ lastHash m' = lastHash m
    /\ keywordEvents w' = keywordEvents w.
Proof.
  intros Hwf Hm Hp Hmode Hk.
  assert (Hwf' := Hwf). destruct Hwf' as ([c Hc] & Hnam & Hlive & Hcur).
  destruct (recovery_ok w this m Hwf Hp) as (w1 & H1 & Hev & Hdir & Hsim & _ & _).
  unfold processValidResponse.
  rewrite (bind_ok _ _ w w m) by (unfold getMonitor; by rewrite Hm).
  rewrite (bind_ok _ _ _ _ _ H1). clear H1.
  destruct (similarMonitors_lookup _ _ _ _ _ Hsim Hm) as (m1 & Hm1 & Hs1).
  destruct Hs1 as (s1 & s2 & s3 & s4 & s5 & s6).
  remember (withMonitors (alter (setMonitorStatus MonitorStatus.WORKING) this) w1) as w2 eqn:Hw2.
  rewrite (bind_ok _ _ w1 w2 tt) by (by rewrite Hw2).
  assert (Hm2 : monitors w2 !! this = Some (setMonitorStatus MonitorStatus.WORKING m1)).
  { rewrite Hw2. simpl. by rewrite lookup_alter_eq, Hm1. }
  destruct (checkKeywordMatch_empty w2 this _ (replyBody reply) Hm2) as [Hany Hall].
  { simpl. congruence. }
  assert (H3 : match currentContentCheckMode m with
               | ContentCheckMode.NO_CHECK => mret tt
               | ContentCheckMode.CONTENT_MATCH => checkContentChange this (replyBody reply)
               | ContentCheckMode.ANY_KEYWORDS => checkAnyKeywordMatch this (replyBody reply)
               | ContentCheckMode.ALL_KEYWORDS => checkAllKeywordMatch this (replyBody reply)
               | ContentCheckMode.SMART_CONTENT_MATCH =>
                   checkContentChangeSmart this (replyBody reply)
               end w2 = Ok (tt, w2)).
  { destruct Hmode as [-> | ->]; done. }
  rewrite (bind_ok _ _ _ _ _ H3). clear H3.
  destruct Hdir as (d1 & d2 & d3 & d4 & d5 & d6).
  assert (Hc2 : customer w2 = Some c) by (rewrite Hw2; simpl; congruence).
  assert (Hkw : keywordEvents w2 = keywordEvents w).
  { unfold keywordEvents. rewrite Hw2. simpl. rewrite Hev, filter_app.
    destruct (decide _); simpl; [by rewrite app_nil_r|].
    rewrite filter_cons_False by done. by rewrite filter_nil, app_nil_r. }
  clear Hw2. rewrite Hp. monad. rewrite Hc2, Hm2. simpl.
  destruct (currentSupportsLatencyMeasurements c); simpl;
    [destruct (bool_decide (_ <= _)); simpl|];
    (destruct (replyCertificateExpiry reply) as [expiry|]; simpl;
     [destruct (bool_decide (_ = u64 expiry)); simpl|]);
    (eexists; eexists; split; [reflexivity|]); simpl;
    (split; [exact Hm2|]); (split; [simpl; by apply s6|]); exact Hkw.
Qed.

End KeywordChecks.

(** ** Runs of the model *)

Lemma serviceNextMonitor_empty_map_witness :
  serviceNextMonitor emptyHostSchemeWorld = Crash DerefSingular.
Proof. exact (serviceNextMonitor_empty_map emptyHostSchemeWorld eq_refl). Defined.

Lemma abort_keeps_pendingReply_witness :
  exists w',
    abort 1%positive (exampleWorld inFlightMonitor false {[ 5%positive ]}) = Ok (tt, w')
    /\ monitors w' !! 1%positive = Some (setMonitorStatus MonitorStatus.UNKNOWN inFlightMonitor)
    /\ pendingReply (setMonitorStatus MonitorStatus.UNKNOWN inFlightMonitor) = Some 5%positive
    /\ (5%positive ∉ replies w')
    /\ reportedEvents w' = reportedEvents (exampleWorld inFlightMonitor false {[ 5%positive ]})
    /\ startCheck 1%positive w' = Ok (tt, w').
Proof.
  apply (abort_keeps_pendingReply (exampleWorld inFlightMonitor false {[ 5%positive ]})
           1%positive inFlightMonitor 5%positive).
  - reflexivity.
  - reflexivity.
  - simpl. apply elem_of_singleton. reflexivity.
Defined.

Lemma exampleWorld_suspectInvariant (m : Monitor) (live : gset ptr) :
  suspectInvariant
    (exampleWorld m (negb (bool_decide (currentMonitorStatus m = MonitorStatus.WORKING))) live).
Proof.
  intros id p Hid. simpl in Hid. apply lookup_singleton_Some in Hid as [<- <-].
  exists m. split; [done|]. simpl.
  destruct (decide (currentMonitorStatus m = MonitorStatus.WORKING)) as [Hw|Hw].
  - rewrite bool_decide_eq_true_2 by done. simpl. split; [set_solver|done].
  - rewrite bool_decide_eq_false_2 by done. simpl. split; [done|set_solver].
Qed.

Lemma abort_breaks_suspectInvariant_witness :
  exists w', abort 1%positive (exampleWorld inFlightMonitor false {[ 5%positive ]}) = Ok (tt, w')
             /\ ~ suspectInvariant w'.
Proof.
  apply (abort_breaks_suspectInvariant (exampleWorld inFlightMonitor false {[ 5%positive ]})
           1%positive inFlightMonitor 7).
  - exact (exampleWorld_suspectInvariant inFlightMonitor {[ 5%positive ]}).
  - reflexivity.
  - reflexivity.
  - reflexivity.
  - intros r Hr. injection Hr as <-. vm_compute. reflexivity.
Defined.

Lemma checkAllKeywordMatch_scans_to_first_missing_witness :
  @checkAllKeywordMatch plainExternal 1%positive (bytes_of_string "only alpha here")
     (exampleWorld allKeywordsMonitor false ∅)
  = Ok (tt,
        withMonitors
          (alter (setLastHash (le32 7 ++ bytes_of_string "only alpha here" ++ alpha)) 1%positive)
          (withReportedEvents
             (fun l => l ++ [mkEvent 7 1700000000 EventType.KEYWORDS MonitorStatus.WORKING
                               (le32 7 ++ bytes_of_string "only alpha here" ++ alpha)
                               (missingKeywordMessage "beta")])
             (exampleWorld allKeywordsMonitor false ∅))).
Proof.
  exact (@checkAllKeywordMatch_scans_to_first_missing plainExternal
           (exampleWorld allKeywordsMonitor false ∅) 1%positive allKeywordsMonitor
           (bytes_of_string "only alpha here") eq_refl
           (fun E : [alpha; beta] = [] => eq_ind [alpha; beta]
              (fun l => match l with [] => False | _ :: _ => True end) I [] E)).
Defined.

(** C4, the counterexample.  With the keywords [alpha], [beta] and a body
    that contains [beta] alone, the scan stops at [alpha]: the hash data are
    the monitor id and the body, without the keyword [beta] that the body
    contains. *)
Lemma checkAllKeywordMatch_skips_found_keyword :
  contains (bytes_of_string "only beta here") beta = true
  /\ (loopHashData <$> @allKeywordScan plainExternal allKeywordsMonitor
                         (bytes_of_string "only beta here"))
     = Some (le32 7 ++ bytes_of_string "only beta here")
  /\ (loopHashData <$> @allKeywordScan plainExternal allKeywordsMonitor
                         (bytes_of_string "only beta here"))
     <> Some (specAllKeywordsHashData allKeywordsMonitor (bytes_of_string "only beta here")).
Proof.
  split; [reflexivity|]. split; [reflexivity|]. vm_compute. intros E. discriminate E.
Qed.

Lemma exampleWorld_wellFormed (m : Monitor) (suspect : bool) (live : gset ptr) :
  wellFormed (exampleWorld m suspect live).
Proof.
  repeat split; simpl; [by eexists| |].
  - intros p Hp. destruct suspect; [|set_solver].
    apply elem_of_singleton in Hp as ->. rewrite lookup_singleton_eq. by eexists.
  - destruct suspect; simpl; set_solver.
Qed.

Lemma empty_keyword_list_checks_nothing_witness :
  exists w' m',
    @processValidResponse plainExternal 1%positive 50000000
       (mkReply None (bytes_of_string "any body") None)
       (exampleWorld emptyKeywordsMonitor true {[ 5%positive ]}) = Ok (tt, w')
    /\ monitors w' !! 1%positive = Some m'
    /\ lastHash m' = lastHash emptyKeywordsMonitor
    /\ keywordEvents w' = keywordEvents (exampleWorld emptyKeywordsMonitor true {[ 5%positive ]}).
Proof.
  apply (@empty_keyword_list_checks_nothing plainExternal
           (exampleWorld emptyKeywordsMonitor true {[ 5%positive ]}) 1%positive
           emptyKeywordsMonitor).
  - apply exampleWorld_wellFormed.
  - reflexivity.
  - reflexivity.
  - left. reflexivity.
  - reflexivity.
Defined.

(** ** Runs of the engine on the example host/scheme *)

Lemma exampleWorld_engineInvariant (m : Monitor) (live : gset ptr) :
  engineInvariant
    (exampleWorld m (negb (bool_decide (currentMonitorStatus m = MonitorStatus.WORKING))) live).
Proof. split; [apply exampleWorld_wellFormed|apply exampleWorld_suspectInvariant]. Qed.

Lemma exampleWorld_directoryOk (m : Monitor) (suspect : bool) (live : gset ptr) :
  directoryOk (exampleWorld m suspect live).
Proof.
  split; simpl.
  - intros id p Hid. apply lookup_singleton_Some in Hid as [<- <-].
    rewrite lookup_singleton_eq. by eexists.
  - rewrite lookup_singleton_eq. by eexists.
Qed.

Lemma newcomerWorld_engineInvariant : engineInvariant newcomerWorld.
Proof.
  split.
  - repeat split; simpl; [by eexists|set_solver].
  - intros id p Hid. simpl in Hid. apply lookup_singleton_Some in Hid as [<- <-].
    exists workingMonitor. split; [reflexivity|]. simpl. split; [set_solver|done].
Qed.

(** The timer tick on the example host/scheme sends the request of monitor
    7 and leaves the reply object in its slot. *)
Example serviceNextMonitor_starts_a_check :
  (fun w => (map (fun x => (x.1.1, x.1.2, reqPath x.2)) (sentRequests w),
             pendingReply <$> monitors w !! 1%positive))
    <$> finalState (serviceNextMonitor (exampleWorld workingMonitor false ∅))
  = Some ([(1%positive, 9%positive, "/"%string)], Some (Some 9%positive)).
Proof. vm_compute. reflexivity. Qed.


Lemma processValidResponse_preserves_witness :
  exists w',
    @processValidResponse plainExternal 1%positive 50000000
       (mkReply None (bytes_of_string "any body") None)
       (exampleWorld emptyKeywordsMonitor true {[ 5%positive ]}) = Ok (tt, w')
    /\ engineInvariant w'.
Proof.
  apply (@processValidResponse_preserves plainExternal
           (exampleWorld emptyKeywordsMonitor true {[ 5%positive ]}) 1%positive
           emptyKeywordsMonitor).
  - exact (exampleWorld_engineInvariant emptyKeywordsMonitor {[ 5%positive ]}).
  - reflexivity.
  - reflexivity.
Defined.

Lemma processErrorResponse_preserves_witness :
  exists w',
    processErrorResponse 1%positive "Connection refused"
       (exampleWorld inFlightMonitor false {[ 5%positive ]}) = Ok (tt, w')
    /\ engineInvariant w'.
Proof.
  apply (processErrorResponse_preserves
           (exampleWorld inFlightMonitor false {[ 5%positive ]}) 1%positive inFlightMonitor).
  - exact (exampleWorld_engineInvariant inFlightMonitor {[ 5%positive ]}).
  - reflexivity.
  - reflexivity.
Defined.

Lemma addMonitor_preserves_witness :
  exists w', addMonitor 2%positive newcomerWorld = Ok (tt, w') /\ engineInvariant w'.
Proof.
  apply (addMonitor_preserves newcomerWorld 2%positive newcomer).
  - exact newcomerWorld_engineInvariant.
  - reflexivity.
  - simpl. intros E. discriminate E.
Defined.

(** ** The timing wheel *)

Section TimerFacts.
Context `{DoubleArithmetic}.

Lemma scheduleNextHostScheme_ok (t : HostSchemeTimer) (currentTime : Z) :
  hostSchemesByTimeOrder t <> [] ->
  hostSchemeIterator t = cbegin (hostSchemesByTimeOrder t).*1 ->
  exists t',
    scheduleNextHostScheme currentTime t = Ok (tt, t')
    /\ pollingCycleStartTime t' = pollingCycleStartTime t
    /\ hostSchemeIterator t' = hostSchemeIterator t
    /\ is_Some (serviceTimer t').
Proof.
  intros Hne Hit. unfold scheduleNextHostScheme. monad. rewrite Hit.
  destruct (hostSchemesByTimeOrder t) as [|[k p] rest] eqn:Hmap; [done|]. simpl.
  rewrite (ckey_At _ k) by left. simpl.
  destruct (bool_decide (u64 currentTime < _)); simpl.
  - destruct (bool_decide (nextTimingMarkReset t < u64 currentTime)); simpl;
      (eexists; split; [reflexivity|]); simpl; rewrite ?Hit; eauto.
  - destruct (bool_decide (1 < _)); simpl;
      destruct (bool_decide (_ < u64 currentTime)); simpl;
      (eexists; split; [reflexivity|]); simpl; rewrite ?Hit; eauto.
Qed.

(** C5, as amended.  Restarting the cycle of a wheel with period
    [T > 0] that holds a host/scheme, at a reading [now > 0] of the
    signed 64-bit clock, sets the cycle start to
    [T * (floor(now / T) + 1) + offset], the end of the period that
    contains [now] plus the region offset, in 64-bit arithmetic. *)
Theorem restartTimingCycle_cycle_start (t : HostSchemeTimer) (currentTime scheduleTime : Z) :
  currentPeriodMilliseconds t <> 0 ->
  hostSchemesByTimeOrder t <> [] ->
  0 < currentTime < 2 ^ 63 ->
  exists t',
    restartTimingCycle currentTime scheduleTime t = Ok (tt, t')
    /\ pollingCycleStartTime t'
       = u64 (currentPeriodMilliseconds t * (currentTime / currentPeriodMilliseconds t + 1)
              + regionTimeOffsetMilliseconds t)
    /\ (0 <= currentPeriodMilliseconds t * (currentTime / currentPeriodMilliseconds t + 1)
             + regionTimeOffsetMilliseconds t < 2 ^ 64 ->
        pollingCycleStartTime t'
        = currentPeriodMilliseconds t * (currentTime / currentPeriodMilliseconds t + 1)
          + regionTimeOffsetMilliseconds t)
    /\ hostSchemeIterator t' = cbegin (hostSchemesByTimeOrder t).*1.
Proof.
  intros HT Hne Hnow.
  assert (Hclock : u64 currentTime = currentTime).
  { unfold u64, wrap. apply Z.mod_small. lia. }
  unfold restartTimingCycle.
  rewrite (bind_ok _ _ t t t) by done.
  cbv zeta. rewrite Hclock.
  rewrite decide_False by done.
  set (start := u64 _).
  set (t1 := setCycle (cbegin (hostSchemesByTimeOrder t).*1) start t).
  rewrite (bind_ok _ _ t t1 tt) by done.
  destruct (scheduleNextHostScheme_ok t1 scheduleTime) as (t' & Hrun & Hstart & Hit & _);
    [done|done|].
  exists t'. split; [exact Hrun|]. rewrite Hstart, Hit. subst t1 start. simpl.
  split; [done|]. split; [|done].
  intros Hrange. unfold u64, wrap. by apply Z.mod_small.
Qed.

End TimerFacts.

Lemma restartTimingCycle_cycle_start_witness :
  exists t',
    @restartTimingCycle plainDouble 1700000001500 1700000001500 exampleTimer = Ok (tt, t')
    /\ pollingCycleStartTime t' = u64 (20000 * (1700000001500 / 20000 + 1) + 0)
    /\ (0 <= 20000 * (1700000001500 / 20000 + 1) + 0 < 2 ^ 64 ->
        pollingCycleStartTime t' = 20000 * (1700000001500 / 20000 + 1) + 0)
    /\ hostSchemeIterator t' = cbegin [bitReverse32 1].
Proof.
  apply (@restartTimingCycle_cycle_start plainDouble exampleTimer 1700000001500 1700000001500).
  - vm_compute. intros E. discriminate E.
  - intros E. discriminate E.
  - lia.
Defined.

(** C5, the counterexample.  At [now = 1700000001500] with [T = 20000]
    the code sets the cycle start to the next multiple of [T],
    [1700000020000]; the ceiling of the claim gives the one after it. *)
Lemma restartTimingCycle_uses_floor :
  pollingCycleStartTime
    <$> finalState (@restartTimingCycle plainDouble 1700000001500 1700000001500 exampleTimer)
  = Some 1700000020000
  /\ specCycleStart 20000 1700000001500 0 = 1700000040000
  /\ pollingCycleStartTime
       <$> finalState (@restartTimingCycle plainDouble 1700000001500 1700000001500 exampleTimer)
     <> Some (specCycleStart 20000 1700000001500 0).
Proof.
  split; [vm_compute; reflexivity|]. split; [vm_compute; reflexivity|].
  vm_compute. intros E. discriminate E.
Qed.

(** ** The latency report *)

Lemma byte_of_Z_mod (z : Z) : byte_of_Z (z mod 256) = byte_of_Z z.
Proof. unfold byte_of_Z. by rewrite Z.mod_mod. Qed.

Lemma shiftr_u32_low (z k : Z) :
  0 <= k <= 24 -> (Z.shiftr (u32 z) k) mod 256 = (Z.shiftr z k) mod 256.
Proof.
  intros Hk. unfold u32, wrap.
  replace 256 with (2 ^ 8) by reflexivity.
  apply Z.bits_inj'. intros n Hn.
  destruct (Z.ltb_spec n 8) as [Hlt|Hge].
  - rewrite !Z.mod_pow2_bits_low by lia.
    rewrite !Z.shiftr_spec by lia.
    rewrite Z.mod_pow2_bits_low by lia. reflexivity.
  - rewrite !Z.mod_pow2_bits_high by lia. reflexivity.
Qed.

Lemma byte_of_Z_shiftr_u32 (z k : Z) :
  0 <= k <= 24 -> byte_of_Z (Z.shiftr (u32 z) k) = byte_of_Z (Z.shiftr z k).
Proof.
  intros Hk. rewrite <- (byte_of_Z_mod (Z.shiftr (u32 z) k)), shiftr_u32_low by done.
  apply byte_of_Z_mod.
Qed.

(** The four bytes of a 32-bit field are those of the value stored,
    whatever its higher bits. *)
Lemma le32_u32 (z : Z) : le32 (u32 z) = le32 z.
Proof.
  unfold le32.
  rewrite <- (Z.shiftr_0_r (u32 z)), <- (Z.shiftr_0_r z) at 1.
  rewrite !byte_of_Z_shiftr_u32 by lia. by rewrite !Z.shiftr_0_r.
Qed.

Lemma le32_u64 (z : Z) : le32 (u64 z) = le32 z.
Proof.
  unfold le32.
  assert (Hb : forall k, 0 <= k <= 24 ->
            byte_of_Z (Z.shiftr (u64 z) k) = byte_of_Z (Z.shiftr z k)).
  { intros k Hk. rewrite <- (byte_of_Z_mod (Z.shiftr (u64 z) k)),
      <- (byte_of_Z_mod (Z.shiftr z k)). f_equal.
    unfold u64, wrap. replace 256 with (2 ^ 8) by reflexivity.
    apply Z.bits_inj'. intros n Hn.
    destruct (Z.ltb_spec n 8) as [Hlt|Hge].
    - rewrite !Z.mod_pow2_bits_low by lia.
      rewrite !Z.shiftr_spec by lia.
      rewrite Z.mod_pow2_bits_low by lia. reflexivity.
    - rewrite !Z.mod_pow2_bits_high by lia. reflexivity. }
  rewrite <- (Z.shiftr_0_r (u64 z)), <- (Z.shiftr_0_r z) at 1.
  rewrite !Hb by lia. by rewrite !Z.shiftr_0_r.
Qed.

Lemma writeAt_spec (off : nat) (data buffer a b c : QByteArray) :
  buffer = a ++ b ++ c -> length a = off -> length b = length data ->
  writeAt off data buffer = a ++ data ++ c.
Proof.
  intros -> <- Hb. unfold writeAt.
  rewrite take_app_length. f_equal.
  rewrite firstn_all2 by (rewrite !length_app; lia). f_equal.
  rewrite <- Hb, app_assoc, <- length_app. apply drop_app_length.
Qed.

Lemma writeEntries_spec (entries : list LatencyEntry) :
  forall header : QByteArray,
    writeEntries (length header) entries
      (header ++ repeat x00 (length entries * sizeofEntry))
    = header ++ flat_map entryBytes entries.
Proof.
  induction entries as [|e rest IH]; intros header.
  - simpl. by rewrite app_nil_r.
  - cbn [writeEntries flat_map length].
    change (S (length rest) * sizeofEntry)%nat
      with (sizeofEntry + length rest * sizeofEntry)%nat.
    rewrite repeat_app.
    rewrite (writeAt_spec _ (entryBytes e) _ header (repeat x00 sizeofEntry)
               (repeat x00 (length rest * sizeofEntry)) eq_refl eq_refl eq_refl).
    replace (length header + sizeofEntry)%nat with (length (header ++ entryBytes e))
      by (rewrite length_app; reflexivity).
    rewrite app_assoc, IH. by rewrite <- app_assoc.
Qed.

Lemma flat_map_entryBytes_length (entries : list LatencyEntry) :
  length (flat_map entryBytes entries) = (12 * length entries)%nat.
Proof.
  induction entries as [|e rest IH]; [done|].
  cbn [flat_map]. rewrite length_app, IH. cbn [length entryBytes le32 app]. lia.
Qed.

Lemma identifierField_length (rawData : QByteArray) :
  length (identifierField rawData) = maximumIdentifierLength.
Proof.
  unfold identifierField. rewrite length_app, length_take, repeat_length. lia.
Qed.

Lemma setServerIdentifier_template (rawData : QByteArray) (d : DataAggregator)
    (version ident tail : QByteArray) :
  headerTemplate d = version ++ ident ++ tail ->
  length version = offsetIdentifier ->
  length ident = maximumIdentifierLength ->
  headerTemplate (setServerIdentifier rawData d) = version ++ identifierField rawData ++ tail.
Proof.
  intros Hh Hv Hi. unfold setServerIdentifier, identifierField. simpl.
  destruct (bool_decide (maximumIdentifierLength < length rawData)%nat) eqn:Hlong.
  - apply bool_decide_eq_true in Hlong.
    rewrite bool_decide_eq_false_2 by lia.
    rewrite (writeAt_spec _ _ _ version ident tail Hh Hv)
      by (rewrite length_take; lia).
    replace (maximumIdentifierLength - length rawData)%nat with 0%nat by lia.
    simpl. by rewrite app_nil_r.
  - apply bool_decide_eq_false in Hlong.
    rewrite (take_ge rawData) by lia.
    destruct (bool_decide (length rawData < maximumIdentifierLength)%nat) eqn:Hshort.
    + apply bool_decide_eq_true in Hshort.
      rewrite (writeAt_spec _ _ (headerTemplate d) version
                 (take (length rawData) ident)
                 (drop (length rawData) ident ++ tail)).
      * rewrite (writeAt_spec _ _ _ (version ++ rawData)
                   (drop (length rawData) ident) tail).
        -- rewrite (take_ge rawData maximumIdentifierLength) by lia.
           by rewrite <- !app_assoc.
        -- by rewrite <- app_assoc.
        -- rewrite length_app, Hv. reflexivity.
        -- rewrite length_drop, repeat_length. lia.
      * rewrite Hh. f_equal. by rewrite app_assoc, take_drop.
      * done.
      * rewrite length_take. lia.
    + apply bool_decide_eq_false in Hshort.
      rewrite (writeAt_spec _ _ _ version ident tail Hh Hv) by lia.
      rewrite (take_ge rawData maximumIdentifierLength) by lia.
      replace (maximumIdentifierLength - length rawData)%nat with 0%nat by lia.
      simpl. by rewrite app_nil_r.
Qed.

(** C7, as amended.  The message POSTed for [N] latency entries is
    [64 + 12 * N] bytes: the version 0, the identifier in 48 zero-padded
    bytes, the 32-bit monitors per second, the 16-bit CPU and memory
    loading, the status byte and five reserved zero bytes, then one
    12-byte entry per sample in the order recorded: monitor id, the Unix
    timestamp less 1609484400, and the latency, each in 32 bits, all
    little-endian. *)
Theorem reportMessage_layout (rawData : QByteArray) (tel : Telemetry)
    (samples : list (Z * Z * Z)) :
  let message :=
    reportMessage (headerTemplate (setServerIdentifier rawData configure)) tel
      (map sampleEntry samples) in
  message
  = le16 0 ++ identifierField rawData
    ++ le32 (monitorsPerSecond256 tel)
    ++ le16 (Z.min 65535 (u32 (cpuUtilization4096 tel)))
    ++ le16 (Z.min 65535 (u32 (memoryUtilization65536 tel)))
    ++ le8 (Status.code (trackerStatus tel))
    ++ repeat x00 5
    ++ flat_map (fun '(monitorId, unixTimestamp, latency) =>
                   le32 monitorId ++ le32 (unixTimestamp - startOfZoranEpoch) ++ le32 latency)
         samples
  /\ length message = (64 + 12 * length samples)%nat.
Proof.
  intros message.
  assert (Htemplate : headerTemplate (setServerIdentifier rawData configure)
                      = le16 0 ++ identifierField rawData ++ repeat x00 14).
  { apply (setServerIdentifier_template rawData configure (le16 0) (repeat x00 48)
             (repeat x00 14)); reflexivity. }
  assert (Hentries : flat_map entryBytes (map sampleEntry samples)
                     = flat_map (fun '(monitorId, unixTimestamp, latency) =>
                         le32 monitorId ++ le32 (unixTimestamp - startOfZoranEpoch)
                         ++ le32 latency) samples).
  { induction samples as [|[[i t] l] rest IH]; [done|].
    cbn [map flat_map]. rewrite IH. f_equal.
    unfold entryBytes, sampleEntry, newLatencyEntry.
    cbn [entryMonitorId entryTimestamp entryLatencyMicroseconds].
    by rewrite !le32_u32, le32_u64. }
  assert (Hmessage : message
    = le16 0 ++ identifierField rawData
      ++ le32 (monitorsPerSecond256 tel)
      ++ le16 (Z.min 65535 (u32 (cpuUtilization4096 tel)))
      ++ le16 (Z.min 65535 (u32 (memoryUtilization65536 tel)))
      ++ le8 (Status.code (trackerStatus tel))
      ++ repeat x00 5
      ++ flat_map entryBytes (map sampleEntry samples)).
  { subst message. unfold reportMessage. rewrite Htemplate.
    set (ident := identifierField rawData).
    assert (Hident : length ident = 48%nat) by apply identifierField_length.
    set (n := (length (map sampleEntry samples) * sizeofEntry)%nat).
    change sizeofHeader with 64%nat.
    rewrite (take_ge (le16 0 ++ ident ++ repeat x00 14))
      by (rewrite !length_app, Hident; simpl; lia).
    rewrite (writeAt_spec 0 _ _ [] (repeat x00 64) (repeat x00 n));
      [|by rewrite <- repeat_app|done|rewrite !length_app, Hident; reflexivity].
    rewrite (writeAt_spec offsetMonitorsPerSecond _ _ (le16 0 ++ ident) (repeat x00 4)
               (repeat x00 10 ++ repeat x00 n));
      [|simpl; by rewrite <- !app_assoc|rewrite length_app, Hident; reflexivity|done].
    rewrite (writeAt_spec offsetCpuLoading _ _
               (le16 0 ++ ident ++ le32 (u32 (monitorsPerSecond256 tel))) (repeat x00 2)
               (repeat x00 8 ++ repeat x00 n));
      [|simpl; by rewrite <- !app_assoc|rewrite !length_app, Hident; reflexivity|done].
    rewrite (writeAt_spec offsetMemoryLoading _ _
               (le16 0 ++ ident ++ le32 (u32 (monitorsPerSecond256 tel))
                ++ le16 (Z.min 65535 (u32 (cpuUtilization4096 tel)))) (repeat x00 2)
               (repeat x00 6 ++ repeat x00 n));
      [|simpl; by rewrite <- !app_assoc|rewrite !length_app, Hident; reflexivity|done].
    rewrite (writeAt_spec offsetServerStatusCode _ _
               (le16 0 ++ ident ++ le32 (u32 (monitorsPerSecond256 tel))
                ++ le16 (Z.min 65535 (u32 (cpuUtilization4096 tel)))
                ++ le16 (Z.min 65535 (u32 (memoryUtilization65536 tel)))) (repeat x00 1)
               (repeat x00 5 ++ repeat x00 n));
      [|simpl; by rewrite <- !app_assoc|rewrite !length_app, Hident; reflexivity|done].
    set (header := le16 0 ++ ident ++ le32 (u32 (monitorsPerSecond256 tel))
                   ++ le16 (Z.min 65535 (u32 (cpuUtilization4096 tel)))
                   ++ le16 (Z.min 65535 (u32 (memoryUtilization65536 tel)))
                   ++ le8 (Status.code (trackerStatus tel)) ++ repeat x00 5).
    assert (Hlen : length header = 64%nat)
      by (subst header; rewrite !length_app, Hident; reflexivity).
    rewrite <- Hlen.
    replace ((le16 0 ++ ident ++ le32 (u32 (monitorsPerSecond256 tel))
              ++ le16 (Z.min 65535 (u32 (cpuUtilization4096 tel)))
              ++ le16 (Z.min 65535 (u32 (memoryUtilization65536 tel))))
             ++ le8 (Status.code (trackerStatus tel)) ++ repeat x00 5 ++ repeat x00 n)
      with (header ++ repeat x00 n)
      by (subst header; by rewrite <- !app_assoc).
    subst n. rewrite writeEntries_spec. subst header.
    rewrite le32_u32. by rewrite <- !app_assoc. }
  split.
  - rewrite Hmessage, Hentries. reflexivity.
  - rewrite Hmessage. rewrite !length_app, identifierField_length.
    rewrite flat_map_entryBytes_length, length_map. simpl. lia.
Qed.

(** C7, the counterexample.  With no entries the message is the header
    alone: 64 bytes, where the layout with three reserved bytes has 62. *)
Lemma reportMessage_has_five_reserved_bytes :
  length (reportMessage (headerTemplate exampleAggregator) calmTelemetry []) = 64%nat
  /\ length (specReportMessage exampleIdentifier calmTelemetry []) = 62%nat
  /\ reportMessage (headerTemplate exampleAggregator) calmTelemetry []
     <> specReportMessage exampleIdentifier calmTelemetry [].
Proof.
  split; [vm_compute; reflexivity|]. split; [vm_compute; reflexivity|].
  intros E. apply (f_equal length) in E. vm_compute in E. discriminate E.
Qed.

(** ** Batching and retry *)

(** C8, as amended.  [recordLatency] appends the sample to the current
    list.  Then, only when no batch is in flight: with 1000 entries or
    more in the current list an immediate flush is scheduled, and with
    fewer the report timer is armed for 60 seconds unless it is armed
    already.  While a batch is in flight the timer is left as it is. *)
Theorem recordLatency_appends_and_arms (d : DataAggregator) (monitorId timestamp latency : Z) :
  let current := latencyEntryList d ++ [newLatencyEntry monitorId timestamp latency] in
  recordLatency monitorId timestamp latency d
  = Ok (tt,
        setReportTimer
          (match inFlightLatencyEntryList d with
           | None =>
               if bool_decide (maximumNumberPendingEntries <= Z.of_nat (length current))
               then Some 0
               else match reportTimer d with
                    | None => Some maximumReportDelayMilliseconds
                    | Some t => Some t
                    end
           | Some _ => reportTimer d
           end)
          (setLists current (inFlightLatencyEntryList d) d)).
Proof.
  intros current. unfold recordLatency, triggerReporting. monad. fold current.
  destruct d as [h l inFlight rt ret p]. simpl in *.
  destruct inFlight as [b|]; simpl; [done|].
  destruct (bool_decide _); simpl; [done|].
  destruct rt; done.
Qed.

(** C8, the counterexample.  A sample recorded while a batch is in
    flight and the report timer idle leaves the timer idle; the claim has
    it armed for 60 seconds. *)
Lemma recordLatency_in_flight_leaves_timer :
  reportTimer
    <$> finalState (recordLatency 7 1700000000 50000 (setLists [] (Some []) exampleAggregator))
  = Some None
  /\ specReportTimer (setLists [] (Some []) exampleAggregator)
       [newLatencyEntry 7 1700000000 50000] = Some 60000
  /\ reportTimer
       <$> finalState (recordLatency 7 1700000000 50000 (setLists [] (Some []) exampleAggregator))
     <> Some (specReportTimer (setLists [] (Some []) exampleAggregator)
                [newLatencyEntry 7 1700000000 50000]).
Proof.
  split; [vm_compute; reflexivity|]. split; [vm_compute; reflexivity|].
  vm_compute. intros E. discriminate E.
Qed.

(** A failure leaves the batch in flight as it is and arms the retry
    timer for 60 seconds; when the timer expires the batch is POSTed
    again, under a header built from the telemetry of that moment. *)
Lemma fail_then_retry (d : DataAggregator) (batch : list LatencyEntry)
    (errorString : QString) (tel : Telemetry) :
  inFlightLatencyEntryList d = Some batch ->
  retryTimer <$> finalState (processRequestFailed errorString d) = Some (Some 60000)
  /\ inFlightLatencyEntryList <$> finalState (processRequestFailed errorString d)
     = Some (Some batch)
  /\ (processRequestFailed errorString;; retryTimerTimeout tel) d
     = Ok (tt, post (reportMessage (headerTemplate d) tel batch) (setRetryTimer None d)).
Proof.
  intros Hb. unfold processRequestFailed, retryTimerTimeout, triggerRetry, startRetry, sendReport.
  monad. rewrite Hb. done.
Qed.

Lemma failAndRetry_ok (tels : list Telemetry) :
  forall (d : DataAggregator) (batch : list LatencyEntry),
    inFlightLatencyEntryList d = Some batch ->
    exists d',
      failAndRetry tels d
      = Ok (replicate (length tels) (Some (1000 * retryDelaySeconds), Some batch), d')
      /\ inFlightLatencyEntryList d' = Some batch
      /\ latencyEntryList d' = latencyEntryList d
      /\ headerTemplate d' = headerTemplate d
      /\ reportTimer d' = reportTimer d
      /\ (tels <> [] -> retryTimer d' = None)
      /\ posted d'
         = posted d ++ map (fun tel => reportMessage (headerTemplate d) tel batch) tels.
Proof.
  induction tels as [|tel rest IH]; intros d batch Hb.
  - exists d. simpl. rewrite app_nil_r. by repeat split.
  - cbn [failAndRetry].
    set (d0 := setRetryTimer (Some (1000 * retryDelaySeconds)) d).
    rewrite (bind_ok _ _ d d0 tt) by reflexivity.
    rewrite (bind_ok _ _ d0 d0 d0) by reflexivity.
    set (d1 := post (reportMessage (headerTemplate d) tel batch) (setRetryTimer None d)).
    assert (Hretry : retryTimerTimeout tel d0 = Ok (tt, d1)).
    { unfold retryTimerTimeout, startRetry, sendReport. monad. by rewrite Hb. }
    destruct (IH d1 batch) as (d' & Hrun & Hin & Hcur & Hh & Hrep & Hret & Hp); [done|].
    assert (Hret' : retryTimer d' = None).
    { destruct rest as [|tel' rest']; [|by apply Hret].
      simpl in Hrun. by injection Hrun as <-. }
    exists d'. split.
    + change (retryTimer d0) with (Some (1000 * retryDelaySeconds)). cbn iota.
      rewrite (bind_ok _ _ d0 d1 tt) by exact Hretry.
      rewrite (bind_ok _ _ d1 d' _) by exact Hrun.
      change (inFlightLatencyEntryList d0) with (inFlightLatencyEntryList d).
      by rewrite Hb.
    + rewrite Hin, Hcur, Hh, Hrep, Hp. subst d1. simpl. rewrite <- app_assoc.
      by repeat split.
Qed.

(** What follows the header in a report: the entries. *)
Lemma reportMessage_entries (template : QByteArray) (tel : Telemetry)
    (entries : list LatencyEntry) :
  length template = sizeofHeader ->
  drop sizeofHeader (reportMessage template tel entries) = flat_map entryBytes entries.
Proof.
  intros Hlen. unfold reportMessage.
  set (n := (length entries * sizeofEntry)%nat).
  rewrite take_ge by lia.
  rewrite (writeAt_spec 0 _ _ [] (repeat x00 sizeofHeader) (repeat x00 n));
    [|by rewrite <- repeat_app|done|by rewrite Hlen].
  set (buffer0 := [] ++ template ++ repeat x00 n).
  assert (Hkeep : forall off data buffer,
            (off + length data <= sizeofHeader)%nat ->
            (exists header, buffer = header ++ repeat x00 n /\ length header = sizeofHeader) ->
            exists header, writeAt off data buffer = header ++ repeat x00 n
                           /\ length header = sizeofHeader).
  { intros off data buffer Hoff (header & -> & Hh).
    exists (take off header ++ data ++ drop (off + length data) header). split.
    - rewrite (writeAt_spec off data _ (take off header)
                 (take (length data) (drop off header))
                 (drop (off + length data) header ++ repeat x00 n)).
      + by rewrite <- !app_assoc.
      + rewrite <- (take_drop off header) at 1. rewrite <- app_assoc. f_equal.
        rewrite <- (take_drop (length data) (drop off header)) at 1.
        rewrite <- app_assoc. f_equal. f_equal. by rewrite drop_drop.
      + rewrite length_take. lia.
      + rewrite length_take, length_drop. lia.
    - rewrite !length_app, length_take, length_drop. lia. }
  assert (H0 : exists header, buffer0 = header ++ repeat x00 n /\ length header = sizeofHeader).
  { exists template. by subst buffer0. }
  apply (Hkeep offsetMonitorsPerSecond (le32 (u32 (monitorsPerSecond256 tel)))) in H0;
    [|vm_compute; lia].
  apply (Hkeep offsetCpuLoading (le16 (Z.min 65535 (u32 (cpuUtilization4096 tel))))) in H0;
    [|vm_compute; lia].
  apply (Hkeep offsetMemoryLoading
           (le16 (Z.min 65535 (u32 (memoryUtilization65536 tel))))) in H0;
    [|vm_compute; lia].
  apply (Hkeep offsetServerStatusCode (le8 (Status.code (trackerStatus tel)))) in H0;
    [|vm_compute; lia].
  destruct H0 as (header & -> & Hh). rewrite <- Hh. subst n.
  rewrite writeEntries_spec. by rewrite drop_app_length.
Qed.

(** C6, as amended.  A flush moves the current list in flight and POSTs
    it.  When the controller then fails the request [k] times in a row,
    every failure leaves the batch in flight unchanged and arms the retry
    timer for 60 seconds, and the expiry of that timer POSTs the batch
    again: [k + 1] POSTs in all, each carrying the same entries after a
    header built from the telemetry of its moment.  The success that
    follows drops the batch: nothing is in flight, the current list is
    empty, no flush is pending, and nothing more is POSTed. *)
Theorem retries_repost_the_batch (d : DataAggregator) (tel0 : Telemetry)
    (tels : list Telemetry) :
  inFlightLatencyEntryList d = None ->
  length (headerTemplate d) = sizeofHeader ->
  let batch := latencyEntryList d in
  let messages := map (fun tel => reportMessage (headerTemplate d) tel batch) (tel0 :: tels) in
  exists d1 d2 d3,
    reportTimerTimeout tel0 d = Ok (tt, d1)
    /\ failAndRetry tels d1 = Ok (replicate (length tels) (Some 60000, Some batch), d2)
    /\ processResponse (StatusObject "OK") "application/json" d2 = Ok (tt, d3)
    /\ inFlightLatencyEntryList d1 = Some batch
    /\ inFlightLatencyEntryList d2 = Some batch
    /\ posted d2 = posted d ++ messages
    /\ length messages = S (length tels)
    /\ Forall (fun message => drop sizeofHeader message = flat_map entryBytes batch) messages
    /\ inFlightLatencyEntryList d3 = None
    /\ latencyEntryList d3 = []
    /\ reportTimer d3 = None
    /\ posted d3 = posted d2.
Proof.
  intros Hnone Hlen batch messages.
  set (d1 := post (reportMessage (headerTemplate d) tel0 batch)
               (setLists [] (Some batch) (setReportTimer None d))).
  assert (H1 : reportTimerTimeout tel0 d = Ok (tt, d1)).
  { unfold reportTimerTimeout, startReportingLatencyData, sendReport. monad.
    by rewrite Hnone. }
  destruct (failAndRetry_ok tels d1 batch)
    as (d2 & H2 & Hin2 & Hcur2 & Hh2 & Hrep2 & Hret2 & Hp2); [done|].
  assert (H3 : exists d3,
            processResponse (StatusObject "OK") "application/json" d2 = Ok (tt, d3)
            /\ inFlightLatencyEntryList d3 = None
            /\ latencyEntryList d3 = []
            /\ reportTimer d3 = None
            /\ posted d3 = posted d2).
  { assert (Hcur : latencyEntryList d2 = []) by (by rewrite Hcur2).
    assert (Hrep : reportTimer d2 = None) by (by rewrite Hrep2).
    unfold processResponse.
    rewrite decide_True by reflexivity. rewrite decide_True by reflexivity.
    rewrite (bind_ok _ _ d2 d2 d2) by reflexivity.
    rewrite Hin2, Hcur.
    eexists. split; [reflexivity|]. simpl. by rewrite Hrep. }
  destruct H3 as (d3 & H3 & Hin3 & Hcur3 & Hrep3 & Hp3).
  exists d1, d2, d3. repeat split; try done.
  - rewrite Hp2. subst d1 messages. simpl. by rewrite <- app_assoc.
  - subst messages. by rewrite length_map.
  - subst messages. apply Forall_map, Forall_forall. intros tel _.
    by apply reportMessage_entries.
Qed.

Lemma retries_repost_the_batch_witness :
  let batch := latencyEntryList loadedAggregator in
  let messages :=
    map (fun tel => reportMessage (headerTemplate loadedAggregator) tel batch)
      [calmTelemetry; calmTelemetry; busyTelemetry] in
  exists d1 d2 d3,
    reportTimerTimeout calmTelemetry loadedAggregator = Ok (tt, d1)
    /\ failAndRetry [calmTelemetry; busyTelemetry] d1
       = Ok (replicate 2 (Some 60000, Some batch), d2)
    /\ processResponse (StatusObject "OK") "application/json" d2 = Ok (tt, d3)
    /\ inFlightLatencyEntryList d1 = Some batch
    /\ inFlightLatencyEntryList d2 = Some batch
    /\ posted d2 = posted loadedAggregator ++ messages
    /\ length messages = 3%nat
    /\ Forall (fun message => drop sizeofHeader message = flat_map entryBytes batch) messages
    /\ inFlightLatencyEntryList d3 = None
    /\ latencyEntryList d3 = []
    /\ reportTimer d3 = None
    /\ posted d3 = posted d2.
Proof.
  exact (retries_repost_the_batch loadedAggregator calmTelemetry
           [calmTelemetry; busyTelemetry] eq_refl eq_refl).
Defined.

(** C6, the counterexample.  The batch fails once and is POSTed again a
    minute later, when the CPU loading has changed: the two messages carry
    the same entries and differ in the header. *)
Lemma retry_rebuilds_the_header :
  posted <$> finalState
               ((reportTimerTimeout calmTelemetry;; failAndRetry [busyTelemetry])
                  loadedAggregator)
  = Some [reportMessage (headerTemplate loadedAggregator) calmTelemetry
            (latencyEntryList loadedAggregator);
          reportMessage (headerTemplate loadedAggregator) busyTelemetry
            (latencyEntryList loadedAggregator)]
  /\ reportMessage (headerTemplate loadedAggregator) calmTelemetry
       (latencyEntryList loadedAggregator)
     <> reportMessage (headerTemplate loadedAggregator) busyTelemetry
          (latencyEntryList loadedAggregator).
Proof.
  split; [vm_compute; reflexivity|].
  intros E. apply (f_equal (fun l => nth 54 l x00)) in E. vm_compute in E. discriminate E.
Qed.

(** ** [customer/add] *)

(** C9 (the code departs from it).  [generateMonitor] rejects a ["uri"]
    that is no string, and goes on to overwrite the flag with the outcome
    of ["method"]: the handler answers with the failure and installs the
    customer all the same, its monitor with an empty path. *)
Theorem customerAdd_installs_after_failed_validation :
  let '(response, threads) :=
    @processAuthenticatedRequest asciiText firstThread badUriPayload emptyTracker in
  response = StatusResponse "failed, uri must be a string, monitor 1"
  /\ (exists tree host monitor,
        @trackedCustomer 1 threads = Some tree
        /\ treeHostSchemes tree !! 1 = Some host
        /\ treeMonitors host !! 1 = Some monitor
        /\ currentPath monitor = ""%string)
  /\ @trackedCustomer 1 emptyTracker = None.
Proof.
  vm_compute. split; [reflexivity|]. split; [|reflexivity].
  do 3 eexists. repeat split; reflexivity.
Qed.

(** A request that passes every validation is installed, and answered
    with ["OK"]. *)
Example customerAdd_installs_valid_customer :
  let '(response, threads) :=
    @processAuthenticatedRequest asciiText firstThread goodPayload emptyTracker in
  response = StatusResponse "OK"
  /\ (exists tree host monitor,
        @trackedCustomer 1 threads = Some tree
        /\ treeHostSchemes tree !! 1 = Some host
        /\ treeMonitors host !! 1 = Some monitor
        /\ currentPath monitor = "/index.html"%string).
Proof.
  vm_compute. split; [reflexivity|].
  do 3 eexists. repeat split; reflexivity.
Qed.

(** ** The bit reversals of [bit_functions.h] *)

(** One exchange step of the bit reversals: bit [i] of the result is bit
    [i + k] of [v] where the first mask has a bit, bit [i - k] where the
    second has one. *)
Lemma exchange_testbit (bits k m1 m2 v i : Z) (b1 b2 : bool) :
  0 <= i < bits -> 0 <= k ->
  Z.testbit m1 i = b1 -> Z.testbit m2 i = b2 ->
  Z.testbit (wrap bits (Z.lor (Z.land (Z.shiftr v k) m1) (Z.land (Z.shiftl v k) m2))) i
  = (Z.testbit v (i + k) && b1) || (Z.testbit v (i - k) && b2).
Proof.
  intros Hi Hk <- <-. unfold wrap.
  rewrite Z.mod_pow2_bits_low by lia.
  rewrite Z.lor_spec, !Z.land_spec, Z.shiftr_spec, Z.shiftl_spec by lia. done.
Qed.

Ltac exchange :=
  erewrite exchange_testbit; [|lia|lia|reflexivity|reflexivity];
  rewrite ?andb_true_r, ?andb_false_r, ?orb_false_r, ?orb_false_l.

(** A case for each bit position below [n]. *)
Ltac each_bit i n :=
  let rec go k :=
    lazymatch k with
    | O => lia
    | S ?k' =>
        let z := eval cbv in (Z.of_nat k') in
        destruct (decide (i = z)) as [->|?]; [|go k']
    end in
  go n.

Lemma bitReverse32_testbit (v i : Z) :
  0 <= i < 32 -> Z.testbit (bitReverse32 v) i = Z.testbit v (31 - i).
Proof.
  intros Hi. unfold bitReverse32, u32.
  each_bit i 32%nat; repeat exchange; reflexivity.
Qed.

Lemma bitReverse16_testbit (v i : Z) :
  0 <= i < 16 -> Z.testbit (bitReverse16 v) i = Z.testbit v (15 - i).
Proof.
  intros Hi. unfold bitReverse16, u16.
  each_bit i 16%nat; repeat exchange; reflexivity.
Qed.

Lemma bitReverse8_testbit (v i : Z) :
  0 <= i < 8 -> Z.testbit (bitReverse8 v) i = Z.testbit v (7 - i).
Proof.
  intros Hi. unfold bitReverse8, u8.
  each_bit i 8%nat; repeat exchange; reflexivity.
Qed.

Lemma wrap_range (bits z : Z) : 0 <= bits -> 0 <= wrap bits z < 2 ^ bits.
Proof. intros Hb. unfold wrap. apply Z.mod_pos_bound. by apply Z.pow_pos_nonneg. Qed.

Lemma wrap_bits_high (bits z i : Z) : 0 <= bits <= i -> Z.testbit (wrap bits z) i = false.
Proof. intros Hi. unfold wrap. apply Z.mod_pow2_bits_high. lia. Qed.

Lemma wrap_small (bits z : Z) : 0 <= z < 2 ^ bits -> wrap bits z = z.
Proof. intros Hz. unfold wrap. by apply Z.mod_small. Qed.

(** A function into the [bits]-bit values that mirrors the bit positions
    undoes itself. *)
Lemma reversal_involutive (bits : Z) (f : Z -> Z) (v : Z) :
  0 <= bits ->
  (forall x, exists y, f x = wrap bits y) ->
  (forall x i, 0 <= i < bits -> Z.testbit (f x) i = Z.testbit x (bits - 1 - i)) ->
  f (f v) = wrap bits v.
Proof.
  intros Hb Hwrap Hbit. apply Z.bits_inj'. intros i Hi.
  destruct (decide (i < bits)) as [Hlt|Hge].
  - rewrite !Hbit by lia. unfold wrap. rewrite Z.mod_pow2_bits_low by lia.
    f_equal. lia.
  - destruct (Hwrap (f v)) as [y ->]. rewrite !wrap_bits_high by lia. done.
Qed.

Lemma bitReverse32_involutive (v : Z) : bitReverse32 (bitReverse32 v) = u32 v.
Proof.
  apply (reversal_involutive 32 bitReverse32); [lia| |].
  - intros x. unfold bitReverse32. by eexists.
  - intros x i Hi. rewrite bitReverse32_testbit by lia. f_equal.
Qed.

Lemma bitReverse32_range (v : Z) : 0 <= bitReverse32 v < 2 ^ 32.
Proof. unfold bitReverse32. apply (wrap_range 32). lia. Qed.

Lemma bitReverse32_inj (a b : Z) : bitReverse32 a = bitReverse32 b -> u32 a = u32 b.
Proof.
  intros E. apply (f_equal bitReverse32) in E. by rewrite !bitReverse32_involutive in E.
Qed.

(** X6.  [bitReverse32] moves bit [i] of a 32-bit value to bit [31 - i],
    and so undoes itself. *)
Theorem bitReverse32_reverses (v : Z) :
  (forall i, 0 <= i < 32 -> Z.testbit (bitReverse32 v) i = Z.testbit v (31 - i))
  /\ bitReverse32 (bitReverse32 v) = u32 v
  /\ 0 <= bitReverse32 v < 2 ^ 32.
Proof.
  split; [intros i Hi; by apply bitReverse32_testbit|].
  split; [apply bitReverse32_involutive|apply bitReverse32_range].
Qed.

(** X7.  [bitReverse8] and [bitReverse16] reverse the bit order of a byte
    and of a 16-bit value, and undo themselves. *)
Theorem bitReverse8_bitReverse16_reverse (v : Z) :
  (forall i, 0 <= i < 8 -> Z.testbit (bitReverse8 v) i = Z.testbit v (7 - i))
  /\ bitReverse8 (bitReverse8 v) = u8 v
  /\ (forall i, 0 <= i < 16 -> Z.testbit (bitReverse16 v) i = Z.testbit v (15 - i))
  /\ bitReverse16 (bitReverse16 v) = u16 v.
Proof.
  split; [intros i Hi; by apply bitReverse8_testbit|]. split.
  { apply (reversal_involutive 8 bitReverse8); [lia| |].
    - intros x. unfold bitReverse8. by eexists.
    - intros x i Hi. rewrite bitReverse8_testbit by lia. f_equal. }
  split; [intros i Hi; by apply bitReverse16_testbit|].
  apply (reversal_involutive 16 bitReverse16); [lia| |].
  - intros x. unfold bitReverse16. by eexists.
  - intros x i Hi. rewrite bitReverse16_testbit by lia. f_equal.
Qed.

(** ** The wheel of [HostSchemeTimer] *)

Lemma qmapValue_insert (k : Z) (v : ptr) (m : list (Z * ptr)) :
  qmapValue k (qmapInsert k v m) = Some v.
Proof.
  induction m as [|[k' v'] rest IH]; simpl; [by rewrite decide_True|].
  destruct (decide (k < k')); simpl; [by rewrite decide_True|].
  destruct (decide (k = k')) as [->|Hne]; simpl; [by rewrite decide_True|].
  rewrite decide_False by done. exact IH.
Qed.

Lemma qmapInsert_nonempty (k : Z) (v : ptr) (m : list (Z * ptr)) : qmapInsert k v m <> [].
Proof. destruct m as [|[k' v'] rest]; simpl; [done|]. repeat case_decide; done. Qed.

Lemma qmapValue_insert_ne (k k' : Z) (v : ptr) (m : list (Z * ptr)) :
  k' <> k -> qmapValue k' (qmapInsert k v m) = qmapValue k' m.
Proof.
  intros Hne. induction m as [|[k0 v0] rest IH]; simpl; [by rewrite decide_False|].
  destruct (decide (k < k0)); simpl; [by rewrite (decide_False (P := k = k'))|].
  destruct (decide (k = k0)) as [->|Hne0]; simpl.
  - by rewrite !(decide_False (P := k0 = k')).
  - destruct (decide (k0 = k')); [done|exact IH].
Qed.

Lemma qmapValue_erase (k : Z) (m : list (Z * ptr)) : qmapValue k (qmapErase k m) = None.
Proof.
  unfold qmapErase. induction m as [|[k' v'] rest IH]; [done|].
  rewrite filter_cons. simpl. destruct (decide (k' <> k)) as [Hne|Heq]; [|exact IH].
  simpl. by rewrite decide_False.
Qed.

Lemma qmapValue_erase_ne (k k' : Z) (m : list (Z * ptr)) :
  k' <> k -> qmapValue k' (qmapErase k m) = qmapValue k' m.
Proof.
  intros Hne. unfold qmapErase. induction m as [|[k0 v0] rest IH]; [done|].
  rewrite filter_cons. simpl. destruct (decide (k0 <> k)) as [Hne0|Heq]; simpl.
  - destruct (decide (k0 = k')); [done|exact IH].
  - destruct (decide (k0 = k')) as [->|?]; [|exact IH]. exfalso. by apply Heq.
Qed.

Lemma qmapValue_Some (k : Z) (p : ptr) (m : list (Z * ptr)) :
  qmapValue k m = Some p -> (k, p) ∈ m.
Proof.
  induction m as [|[k' v'] rest IH]; simpl; [done|].
  destruct (decide (k' = k)) as [->|Hne].
  - intros [= ->]. left.
  - intros Hk. right. by apply IH.
Qed.

Lemma qmapValue_None (k : Z) (m : list (Z * ptr)) :
  qmapValue k m = None <-> k ∉ m.*1.
Proof.
  induction m as [|[k' v'] rest IH]; simpl; [split; [intros _; apply not_elem_of_nil|done]|].
  destruct (decide (k' = k)) as [->|Hne].
  - split; [done|]. intros Hk. exfalso. apply Hk. left.
  - rewrite IH. rewrite not_elem_of_cons. naive_solver.
Qed.

Lemma qmapErase_keys (k : Z) (m : list (Z * ptr)) :
  (qmapErase k m).*1 = filter (fun x => x <> k) m.*1.
Proof.
  unfold qmapErase. induction m as [|[k' v'] rest IH]; [done|].
  rewrite fmap_cons, !filter_cons. simpl.
  destruct (decide (k' <> k)); simpl; [f_equal|]; exact IH.
Qed.

Lemma qmapInsert_keys (k : Z) (v : ptr) (m : list (Z * ptr)) (x : Z) :
  x ∈ (qmapInsert k v m).*1 <-> x = k \/ x ∈ m.*1.
Proof.
  induction m as [|[k' v'] rest IH]; simpl.
  - rewrite list_elem_of_singleton. split; [by left|]. intros [->|Hx]; [done|].
    by apply elem_of_nil in Hx.
  - destruct (decide (k < k')); simpl; [by rewrite !elem_of_cons|].
    destruct (decide (k = k')) as [->|Hne]; simpl; rewrite !elem_of_cons; [naive_solver|].
    rewrite IH. naive_solver.
Qed.

Lemma qmapInsert_sorted (k : Z) (v : ptr) (m : list (Z * ptr)) :
  StronglySorted Z.lt m.*1 -> StronglySorted Z.lt (qmapInsert k v m).*1.
Proof.
  induction m as [|[k' v'] rest IH]; simpl; intros Hs.
  - repeat constructor.
  - apply StronglySorted_inv in Hs as [Hs Hall].
    destruct (decide (k < k')); simpl.
    + constructor; [by constructor|]. constructor; [done|].
      eapply Forall_impl; [exact Hall|]. simpl. lia.
    + destruct (decide (k = k')) as [->|Hne]; simpl; [by constructor|].
      constructor; [by apply IH|].
      apply Forall_forall. intros x Hx. apply qmapInsert_keys in Hx as [->|Hx]; [lia|].
      by eapply Forall_forall in Hall.
Qed.

Lemma sorted_NoDup (l : list Z) : StronglySorted Z.lt l -> NoDup l.
Proof.
  induction 1 as [|x l Hs IH Hall]; [constructor|].
  constructor; [|done]. intros Hx. eapply Forall_forall in Hall; [|exact Hx]. lia.
Qed.

Lemma qmapErase_sorted (k : Z) (m : list (Z * ptr)) :
  StronglySorted Z.lt m.*1 -> StronglySorted Z.lt (qmapErase k m).*1.
Proof.
  rewrite qmapErase_keys. induction m.*1 as [|x l IH]; [done|].
  intros Hs. apply StronglySorted_inv in Hs as [Hs Hall].
  rewrite filter_cons. destruct (decide (x <> k)); [|by apply IH].
  constructor; [by apply IH|].
  apply Forall_forall. intros y Hy. apply list_elem_of_filter in Hy as [_ Hy].
  by eapply Forall_forall in Hall.
Qed.

Section WheelFacts.
Context `{DoubleArithmetic}.

Lemma sameWheel_refl (t : HostSchemeTimer) : sameWheel t t.
Proof. by repeat split. Qed.

Lemma sameWheel_trans (t1 t2 t3 : HostSchemeTimer) :
  sameWheel t1 t2 -> sameWheel t2 t3 -> sameWheel t1 t3.
Proof.
  intros (a1 & a2 & a3 & a4 & a5) (b1 & b2 & b3 & b4 & b5). repeat split; congruence.
Qed.

(** [scheduleNextHostScheme] arms the timer whenever the iterator
    designates a host/scheme of the wheel. *)
Lemma scheduleNextHostScheme_frame (t : HostSchemeTimer) (currentTime k : Z) :
  hostSchemeIterator t = At k ->
  k ∈ (hostSchemesByTimeOrder t).*1 ->
  exists t',
    scheduleNextHostScheme currentTime t = Ok (tt, t')
    /\ sameWheel t t'
    /\ hostSchemeIterator t' = At k
    /\ pollingCycleStartTime t' = pollingCycleStartTime t
    /\ serviceTimer t'
       = Some (Z.max 0 (u64 (pollingCycleStartTime t
                             + timeOffsetOf (currentPeriodMilliseconds t) k)
                        - u64 currentTime)).
Proof.
  intros Hit Hk. unfold scheduleNextHostScheme. monad. rewrite Hit.
  rewrite (ckey_At _ k) by done. simpl.
  destruct (bool_decide (u64 currentTime < _)) eqn:Hlt; simpl.
  - apply bool_decide_eq_true in Hlt.
    destruct (bool_decide (nextTimingMarkReset t < u64 currentTime)); simpl;
      (eexists; split; [reflexivity|]); simpl; rewrite ?Hit;
      (split; [by repeat split|]); (split; [done|]); (split; [done|]); f_equal; lia.
  - apply bool_decide_eq_false in Hlt.
    destruct (bool_decide (1 < _)); simpl;
      destruct (bool_decide (_ < u64 currentTime)); simpl;
      (eexists; split; [reflexivity|]); simpl; rewrite ?Hit;
      (split; [by repeat split|]); (split; [done|]); (split; [done|]); f_equal; lia.
Qed.

Lemma restartTimingCycle_frame (t : HostSchemeTimer) (currentTime scheduleTime : Z) :
  currentPeriodMilliseconds t <> 0 ->
  hostSchemesByTimeOrder t <> [] ->
  exists t',
    restartTimingCycle currentTime scheduleTime t = Ok (tt, t')
    /\ sameWheel t t'
    /\ hostSchemeIterator t' = cbegin (hostSchemesByTimeOrder t).*1
    /\ is_Some (serviceTimer t').
Proof.
  intros HT Hne. unfold restartTimingCycle.
  rewrite (bind_ok _ _ t t t) by done.
  cbv zeta. rewrite decide_False by done.
  set (start := u64 (_ + _)).
  set (t1 := setCycle (cbegin (hostSchemesByTimeOrder t).*1) start t).
  rewrite (bind_ok _ _ t t1 tt) by done.
  destruct (hostSchemesByTimeOrder t) as [|[k p] rest] eqn:Hmap; [done|].
  destruct (scheduleNextHostScheme_frame t1 scheduleTime k) as (t' & Hrun & Hsame & Hit & _ & Htimer).
  { subst t1. simpl. by rewrite ?Hmap. }
  { subst t1. simpl. rewrite ?Hmap. left. }
  exists t'. split; [exact Hrun|]. split.
  - eapply sameWheel_trans; [|exact Hsame]. subst t1. by repeat split.
  - split; [done|]. rewrite Htimer. by eexists.
Qed.

Lemma qmapValue_middle (pre suf : list (Z * ptr)) (k : Z) (p : ptr) :
  k ∉ pre.*1 -> qmapValue k (pre ++ (k, p) :: suf) = Some p.
Proof.
  induction pre as [|[k' v'] pre IH]; simpl; intros Hk; [by rewrite decide_True|].
  apply not_elem_of_cons in Hk as [Hne Hk]. rewrite decide_False by done. by apply IH.
Qed.

Lemma after_middle (pre suf : list Z) (k : Z) :
  k ∉ pre -> after k (pre ++ k :: suf) = Some (cbegin suf).
Proof.
  induction pre as [|x pre IH]; simpl; intros Hk; [by rewrite decide_True|].
  apply not_elem_of_cons in Hk as [Hne Hk]. rewrite decide_False by done. by apply IH.
Qed.

(** A tick on a host/scheme of the wheel services it and moves on: to the
    next one in key order, or back to the first with a new cycle. *)
Lemma startNextHostScheme_step (t : HostSchemeTimer) (pre suf : list (Z * ptr))
    (k : Z) (p : ptr) (currentTime : Z) :
  hostSchemesByTimeOrder t = pre ++ (k, p) :: suf ->
  NoDup (hostSchemesByTimeOrder t).*1 ->
  hostSchemeIterator t = At k ->
  forceTimerResync t = false ->
  currentPeriodMilliseconds t <> 0 ->
  exists t',
    serviceTimerTimeout currentTime t = Ok (Some p, t')
    /\ sameWheel t t'
    /\ hostSchemeIterator t'
       = match suf with
         | [] => cbegin (hostSchemesByTimeOrder t).*1
         | (k', _) :: _ => At k'
         end
    /\ is_Some (serviceTimer t').
Proof.
  intros Hmap Hnd Hit Hforce HT.
  assert (Hpre : k ∉ pre.*1).
  { rewrite Hmap, fmap_app, fmap_cons in Hnd. apply NoDup_app in Hnd as (_ & Hdis & _).
    intros Hk. apply (Hdis k Hk). left. }
  assert (Hk : k ∈ (hostSchemesByTimeOrder t).*1).
  { rewrite Hmap, fmap_app, fmap_cons. apply elem_of_app. right. left. }
  unfold serviceTimerTimeout, startNextHostScheme. monad.
  rewrite Hit, Hforce. simpl.
  rewrite (ckey_At _ k) by done. simpl.
  assert (Hval : qmapValue k (hostSchemesByTimeOrder t) = Some p).
  { rewrite Hmap. by apply qmapValue_middle. }
  assert (Hnext : cnext (hostSchemesByTimeOrder t).*1 (At k) = Ok (cbegin suf.*1)).
  { unfold cnext. rewrite Hmap, fmap_app, fmap_cons.
    by rewrite (after_middle pre.*1 suf.*1 k Hpre). }
  rewrite Hval, Hnext. simpl.
  set (t1 := setHostSchemes _ _ _).
  destruct suf as [|[k' p'] suf]; simpl.
  - destruct (restartTimingCycle_frame t1 currentTime currentTime) as (t' & Hrun & Hsame & Hit' & Ht).
    { done. }
    { subst t1. simpl. rewrite Hmap. by destruct pre. }
    rewrite Hrun. exists t'. split; [done|]. split.
    + eapply sameWheel_trans; [|exact Hsame]. subst t1. by repeat split.
    + split; [|done]. rewrite Hit'. by subst t1.
  - destruct (scheduleNextHostScheme_frame t1 currentTime k') as (t' & Hrun & Hsame & Hit' & _ & Ht).
    { done. }
    { subst t1. simpl. rewrite Hmap, fmap_app, !fmap_cons.
      apply elem_of_app. right. right. left. }
    rewrite Hrun. exists t'. split; [done|]. split.
    + eapply sameWheel_trans; [|exact Hsame]. subst t1. by repeat split.
    + split; [done|]. rewrite Ht. by eexists.
Qed.

Lemma ticks_from (suf pre : list (Z * ptr)) (k : Z) (p : ptr) (t : HostSchemeTimer)
    (times : list Z) :
  hostSchemesByTimeOrder t = pre ++ (k, p) :: suf ->
  NoDup (hostSchemesByTimeOrder t).*1 ->
  hostSchemeIterator t = At k ->
  forceTimerResync t = false ->
  currentPeriodMilliseconds t <> 0 ->
  length times = S (length suf) ->
  exists t',
    ticks times t = Ok (Some <$> (p :: suf.*2), t')
    /\ sameWheel t t'
    /\ hostSchemeIterator t' = cbegin (hostSchemesByTimeOrder t).*1
    /\ is_Some (serviceTimer t').
Proof.
  revert pre k p t times.
  induction suf as [|[k' p'] suf IH]; intros pre k p t times Hmap Hnd Hit Hforce HT Hlen.
  - destruct times as [|now [|? ?]]; try done.
    destruct (startNextHostScheme_step t pre [] k p now) as (t' & Hrun & Hsame & Hit' & Ht);
      try done.
    cbn [ticks]. rewrite (bind_ok _ _ t t' (Some p)) by exact Hrun.
    by exists t'.
  - destruct times as [|now times]; [done|].
    destruct (startNextHostScheme_step t pre ((k', p') :: suf) k p now)
      as (t1 & Hrun & Hsame & Hit1 & Ht1); try done.
    destruct Hsame as (s1 & s2 & s3 & s4 & s5).
    destruct (IH (pre ++ [(k, p)]) k' p' t1 times) as (t' & Hrest & Hsame' & Hit' & Ht').
    { rewrite s1, Hmap, <- app_assoc. done. }
    { by rewrite s1. }
    { done. }
    { congruence. }
    { congruence. }
    { simpl in Hlen. lia. }
    cbn [ticks]. rewrite (bind_ok _ _ t t1 (Some p)) by exact Hrun.
    rewrite (bind_ok _ _ t1 t' _) by exact Hrest.
    exists t'. split; [done|]. split.
    + eapply sameWheel_trans; [|exact Hsame']. by repeat split.
    + split; [|done]. by rewrite Hit', s1.
Qed.

(** X8.  One cycle of the wheel: from the first host/scheme, as many
    expiries of the timer as the wheel holds host/schemes service each of
    them once, in ascending order of the bit-reversed ids, and leave the
    wheel at the first one again with the timer armed. *)
Theorem ticks_service_each_host_scheme_once (t : HostSchemeTimer) (times : list Z) :
  NoDup (hostSchemesByTimeOrder t).*1 ->
  hostSchemesByTimeOrder t <> [] ->
  hostSchemeIterator t = cbegin (hostSchemesByTimeOrder t).*1 ->
  forceTimerResync t = false ->
  currentPeriodMilliseconds t <> 0 ->
  length times = length (hostSchemesByTimeOrder t) ->
  exists t',
    ticks times t = Ok (Some <$> (hostSchemesByTimeOrder t).*2, t')
    /\ hostSchemesByTimeOrder t' = hostSchemesByTimeOrder t
    /\ hostSchemeIterator t' = cbegin (hostSchemesByTimeOrder t).*1
    /\ is_Some (serviceTimer t').
Proof.
  intros Hnd Hne Hit Hforce HT Hlen.
  destruct (hostSchemesByTimeOrder t) as [|[k p] suf] eqn:Hmap; [done|].
  destruct (ticks_from suf [] k p t times) as (t' & Hrun & Hsame & Hit' & Ht'); try done.
  { by rewrite Hmap. }
  exists t'. split; [exact Hrun|]. destruct Hsame as (s1 & _).
  split; [by rewrite s1|]. split; [|done]. by rewrite Hit', Hmap.
Qed.

Lemma startTimer_frame (t : HostSchemeTimer) (currentTime : Z) :
  currentPeriodMilliseconds t <> 0 ->
  exists t',
    startTimer currentTime t = Ok (tt, t')
    /\ sameWheel t t'
    /\ (if bool_decide (0 < currentNumberRegions t)
           && negb (bool_decide (hostSchemesByTimeOrder t = []))
        then hostSchemeIterator t' = cbegin (hostSchemesByTimeOrder t).*1
             /\ is_Some (serviceTimer t')
        else t' = t).
Proof.
  intros HT. unfold startTimer. rewrite (bind_ok _ _ t t t) by done.
  destruct (bool_decide (0 < currentNumberRegions t)
            && negb (bool_decide (hostSchemesByTimeOrder t = []))) eqn:Hgo.
  - apply andb_prop in Hgo as [_ Hne]. apply negb_true_iff, bool_decide_eq_false in Hne.
    rewrite (bind_ok _ _ t _ tt) by reflexivity.
    match goal with |- context [restartTimingCycle _ _ ?x] => set (t1 := x) end.
    destruct (restartTimingCycle_frame t1 currentTime currentTime) as (t' & Hrun & Hsame & Hit' & Ht');
      [done|done|].
    exists t'. split; [exact Hrun|]. split; [|by split].
    eapply sameWheel_trans; [|exact Hsame]. by repeat split.
  - exists t. split; [done|]. split; [apply sameWheel_refl|]. done.
Qed.

(** X9.  A host/scheme added to the wheel is found under its id, and the
    host/schemes under other ids are found as before; the keys stay in
    ascending order, and an idle wheel that has a region starts. *)
Theorem addHostScheme_getHostScheme (t : HostSchemeTimer) (hostSchemeId : Z) (hostScheme : ptr)
    (currentTime : Z) :
  currentPeriodMilliseconds t <> 0 ->
  exists t',
    addHostScheme hostSchemeId hostScheme currentTime t = Ok (tt, t')
    /\ getHostSchemeOfTimer hostSchemeId t' = Some hostScheme
    /\ (forall other, u32 other <> u32 hostSchemeId ->
          getHostSchemeOfTimer other t' = getHostSchemeOfTimer other t)
    /\ (StronglySorted Z.lt (hostSchemesByTimeOrder t).*1 ->
        StronglySorted Z.lt (hostSchemesByTimeOrder t').*1)
    /\ (serviceTimer t = None -> 0 < currentNumberRegions t -> is_Some (serviceTimer t')).
Proof.
  intros HT. unfold addHostScheme.
  set (m' := qmapInsert (bitReverse32 hostSchemeId) hostScheme (hostSchemesByTimeOrder t)).
  set (t1 := setHostSchemes m' (hostSchemeIterator t) t).
  rewrite (bind_ok _ _ t t1 tt) by done.
  rewrite (bind_ok _ _ t1 t1 t1) by done.
  assert (Hlookup : forall t', hostSchemesByTimeOrder t' = m' ->
            getHostSchemeOfTimer hostSchemeId t' = Some hostScheme
            /\ (forall other, u32 other <> u32 hostSchemeId ->
                  getHostSchemeOfTimer other t' = getHostSchemeOfTimer other t)
            /\ (StronglySorted Z.lt (hostSchemesByTimeOrder t).*1 ->
                StronglySorted Z.lt (hostSchemesByTimeOrder t').*1)).
  { intros t' Hm. unfold getHostSchemeOfTimer. rewrite Hm. subst m'.
    split; [apply qmapValue_insert|]. split.
    - intros other Hne. apply qmapValue_insert_ne. intros E. apply Hne.
      by apply bitReverse32_inj.
    - apply qmapInsert_sorted. }
  assert (Hne : m' <> []).
  { apply qmapInsert_nonempty. }
  destruct (serviceTimer t) as [interval|] eqn:Htimer.
  - replace (serviceTimer t1) with (Some interval) by done.
    exists t1. split; [done|]. destruct (Hlookup t1 eq_refl) as (h1 & h2 & h3).
    repeat split; try done.
  - replace (serviceTimer t1) with (@None Z) by done.
    rewrite (bind_ok _ _ t1 _ tt) by reflexivity.
    match goal with |- context [startTimer _ ?x] => set (t2 := x) end.
    destruct (startTimer_frame t2 currentTime) as (t' & Hrun & Hsame & Harmed); [done|].
    exists t'. split; [exact Hrun|]. destruct Hsame as (s1 & _).
    destruct (Hlookup t' s1) as (h1 & h2 & h3). repeat split; try done.
    intros _ Hregions. revert Harmed.
    replace (currentNumberRegions t2) with (currentNumberRegions t) by done.
    rewrite (bool_decide_eq_true_2 _ Hregions).
    replace (hostSchemesByTimeOrder t2) with m' by done.
    rewrite (bool_decide_eq_false_2 _ Hne). simpl. by intros [_ ?].
Qed.

Lemma wheel_after (k : Z) (keys : list Z) :
  NoDup keys -> k ∈ keys ->
  exists c, cnext keys (At k) = Ok c
            /\ match c with
               | At q => q ∈ filter (fun x => x <> k) keys
               | AtEnd => True
               | Singular => False
               end.
Proof.
  intros Hnd Hk. unfold cnext.
  destruct (after_elem k keys Hk Hnd) as (c & -> & Hc). exists c. split; [done|].
  destruct Hc as [->|(q & -> & Hq & Hne)]; [done|]. by apply list_elem_of_filter.
Qed.

Lemma removeHostScheme_at (t : HostSchemeTimer) (hostSchemeId key : Z) :
  key = bitReverse32 hostSchemeId ->
  NoDup (hostSchemesByTimeOrder t).*1 ->
  wheelCursorOk t ->
  match qmapValue key (hostSchemesByTimeOrder t) with
  | None => removeHostScheme hostSchemeId t = Ok (false, t)
  | Some _ =>
      exists t',
        removeHostScheme hostSchemeId t = Ok (true, t')
        /\ hostSchemesByTimeOrder t' = qmapErase key (hostSchemesByTimeOrder t)
        /\ NoDup (hostSchemesByTimeOrder t').*1
        /\ wheelCursorOk t'
        /\ hostSchemeIterator t' <> At key
  end.
Proof.
  intros Hkeydef Hnd Hcur. unfold removeHostScheme.
  rewrite (bind_ok _ _ t t t) by reflexivity. rewrite <- Hkeydef. clear Hkeydef.
  destruct (qmapValue key (hostSchemesByTimeOrder t)) as [p|] eqn:Hval; [|reflexivity].
  assert (Hkey : key ∈ (hostSchemesByTimeOrder t).*1).
  { apply qmapValue_Some in Hval. apply list_elem_of_fmap. by exists (key, p). }
  assert (Hrest : forall it,
            match it with
            | At q => q ∈ filter (fun x => x <> key) (hostSchemesByTimeOrder t).*1
            | AtEnd => True
            | Singular => False
            end ->
            let t' := setHostSchemes (qmapErase key (hostSchemesByTimeOrder t)) it t in
            hostSchemesByTimeOrder t' = qmapErase key (hostSchemesByTimeOrder t)
            /\ NoDup (hostSchemesByTimeOrder t').*1
            /\ wheelCursorOk t'
            /\ hostSchemeIterator t' <> At key).
  { intros it Hit. cbn [hostSchemesByTimeOrder hostSchemeIterator setHostSchemes].
    split; [reflexivity|].
    split; [rewrite qmapErase_keys; by apply NoDup_filter|]. split.
    - unfold wheelCursorOk. cbn [hostSchemesByTimeOrder hostSchemeIterator setHostSchemes].
      rewrite qmapErase_keys. by destruct it.
    - intros ->. apply list_elem_of_filter in Hit as [Hne _]. done. }
  destruct (decide (hostSchemeIterator t = At key)) as [Hit|Hit].
  - destruct (wheel_after key _ Hnd Hkey) as (c & Hc & Hcok).
    unfold mbind, M_bind, liftR, modify, mret, M_ret. rewrite Hc.
    eexists. split; [reflexivity|]. by apply Hrest.
  - unfold mbind, M_bind, modify, mret, M_ret.
    eexists. split; [reflexivity|]. apply Hrest.
    unfold wheelCursorOk in Hcur. destruct (hostSchemeIterator t) as [| |q] eqn:Hq.
    + rewrite Hcur in Hkey. by apply elem_of_nil in Hkey.
    + done.
    + apply list_elem_of_filter. split; [congruence|done].
Qed.

(** X10.  Removing a host/scheme that the wheel does not hold changes
    nothing and returns [false]; removing one that it holds returns
    [true], the id is no longer found, the other ids are found as before,
    and the iterator designates a host/scheme that is left, or none. *)
Theorem removeHostScheme_getHostScheme (t : HostSchemeTimer) (hostSchemeId : Z) :
  NoDup (hostSchemesByTimeOrder t).*1 ->
  wheelCursorOk t ->
  match getHostSchemeOfTimer hostSchemeId t with
  | None => removeHostScheme hostSchemeId t = Ok (false, t)
  | Some _ =>
      exists t',
        removeHostScheme hostSchemeId t = Ok (true, t')
        /\ getHostSchemeOfTimer hostSchemeId t' = None
        /\ (forall other, u32 other <> u32 hostSchemeId ->
              getHostSchemeOfTimer other t' = getHostSchemeOfTimer other t)
        /\ NoDup (hostSchemesByTimeOrder t').*1
        /\ wheelCursorOk t'
        /\ hostSchemeIterator t' <> At (bitReverse32 hostSchemeId)
  end.
Proof.
  intros Hnd Hcur. unfold getHostSchemeOfTimer.
  pose proof (removeHostScheme_at t hostSchemeId _ eq_refl Hnd Hcur) as Hat.
  destruct (qmapValue (bitReverse32 hostSchemeId) (hostSchemesByTimeOrder t)); [|exact Hat].
  destruct Hat as (t' & Hrun & Hmap & Hnd' & Hcur' & Hit').
  exists t'. split; [exact Hrun|].
  split; [rewrite Hmap; apply qmapValue_erase|]. split; [|by repeat split].
  intros other Hne. rewrite Hmap. apply qmapValue_erase_ne. intros E. apply Hne.
  by apply bitReverse32_inj.
Qed.

Lemma qmapErase_last (pre : list (Z * ptr)) (key : Z) (p : ptr) :
  key ∉ pre.*1 -> qmapErase key (pre ++ [(key, p)]) = pre.
Proof.
  intros Hpre. unfold qmapErase.
  rewrite filter_app, filter_cons_False, filter_nil, app_nil_r.
  - induction pre as [|[k v] pre IH]; [done|].
    apply not_elem_of_cons in Hpre as [Hne Hpre].
    rewrite filter_cons_True by (intros E; apply Hne; symmetry; exact E).
    f_equal. by apply IH.
  - simpl. intros Hne. by apply Hne.
Qed.

(** A tick on a wheel whose iterator is at the end serves nothing: it
    starts a new cycle, or leaves the wheel idle when it is empty. *)
Lemma serviceTimerTimeout_at_end (t : HostSchemeTimer) (currentTime : Z) :
  hostSchemeIterator t = AtEnd ->
  currentPeriodMilliseconds t <> 0 ->
  exists t',
    serviceTimerTimeout currentTime t = Ok (None, t')
    /\ hostSchemesByTimeOrder t' = hostSchemesByTimeOrder t
    /\ forceTimerResync t' = false
    /\ match hostSchemesByTimeOrder t with
       | [] => serviceTimer t' = None
       | (k, _) :: _ => hostSchemeIterator t' = At k /\ is_Some (serviceTimer t')
       end.
Proof.
  intros Hit HT. unfold serviceTimerTimeout.
  set (t1 := setServiceTimer None t).
  rewrite (bind_ok _ _ t t1 tt) by reflexivity.
  unfold startNextHostScheme. rewrite (bind_ok _ _ t1 t1 t1) by reflexivity.
  replace (hostSchemeIterator t1) with (hostSchemeIterator t) by reflexivity.
  rewrite Hit. cbn [is_end orb].
  set (t2 := setForceTimerResync false t1).
  rewrite (bind_ok _ _ t1 t2 tt) by reflexivity.
  replace (hostSchemesByTimeOrder t1) with (hostSchemesByTimeOrder t) by reflexivity.
  destruct (hostSchemesByTimeOrder t) as [|[k v] rest] eqn:Hmap.
  - exists t2. rewrite bool_decide_eq_false_2 by (simpl; lia).
    split; [reflexivity|]. subst t2 t1.
    cbn [hostSchemesByTimeOrder forceTimerResync serviceTimer setForceTimerResync setServiceTimer].
    by rewrite Hmap.
  - rewrite bool_decide_eq_true_2 by (simpl; lia).
    destruct (restartTimingCycle_frame t2 currentTime currentTime)
      as (t3 & Hrun3 & Hsame & Hit3 & Ht3).
    { exact HT. }
    { subst t2 t1.
      cbn [hostSchemesByTimeOrder setForceTimerResync setServiceTimer]. by rewrite Hmap. }
    rewrite (bind_ok _ _ t2 t3 tt) by exact Hrun3.
    exists t3. split; [reflexivity|]. destruct Hsame as (s1 & s2 & _).
    assert (Hmap2 : hostSchemesByTimeOrder t2 = (k, v) :: rest) by (by rewrite <- Hmap).
    rewrite s1, s2, Hit3, Hmap2. by repeat split.
Qed.

(** X11.  The corner case of [startNextHostScheme]: when the host/scheme
    under the iterator is the last one in key order and is removed, the
    next expiry of the timer services nothing; it starts a new cycle at
    the first host/scheme that is left, and leaves the wheel idle when
    none is. *)
Theorem removeHostScheme_last_then_tick (t : HostSchemeTimer) (pre : list (Z * ptr))
    (hostSchemeId : Z) (hostScheme : ptr) (currentTime : Z) :
  hostSchemesByTimeOrder t = pre ++ [(bitReverse32 hostSchemeId, hostScheme)] ->
  NoDup (hostSchemesByTimeOrder t).*1 ->
  hostSchemeIterator t = At (bitReverse32 hostSchemeId) ->
  currentPeriodMilliseconds t <> 0 ->
  exists t1 t2,
    removeHostScheme hostSchemeId t = Ok (true, t1)
    /\ serviceTimerTimeout currentTime t1 = Ok (None, t2)
    /\ hostSchemesByTimeOrder t2 = pre
    /\ forceTimerResync t2 = false
    /\ match pre with
       | [] => serviceTimer t2 = None
       | (k, _) :: _ => hostSchemeIterator t2 = At k /\ is_Some (serviceTimer t2)
       end.
Proof.
  generalize (eq_refl (bitReverse32 hostSchemeId)).
  generalize (bitReverse32 hostSchemeId) at 1 3 4. intros key Hkeydef Hmap Hnd Hit HT.
  assert (Hpre : key ∉ pre.*1).
  { rewrite Hmap, fmap_app in Hnd. apply NoDup_app in Hnd as (_ & Hdis & _).
    intros Hk. apply (Hdis key Hk). left. }
  assert (Hval : qmapValue key (hostSchemesByTimeOrder t) = Some hostScheme).
  { rewrite Hmap. by apply qmapValue_middle. }
  assert (Hnext : cnext (hostSchemesByTimeOrder t).*1 (At key) = Ok AtEnd).
  { unfold cnext. rewrite Hmap, fmap_app. simpl. by rewrite (after_middle pre.*1 [] key Hpre). }
  assert (Hrun1 : removeHostScheme hostSchemeId t = Ok (true, setHostSchemes pre AtEnd t)).
  { unfold removeHostScheme. rewrite (bind_ok _ _ t t t) by reflexivity.
    rewrite <- Hkeydef. rewrite Hval, decide_True by exact Hit.
    unfold mbind, M_bind, liftR, modify, mret, M_ret. rewrite Hnext.
    by rewrite Hmap, (qmapErase_last pre key hostScheme Hpre). }
  set (t1 := setHostSchemes pre AtEnd t) in *.
  destruct (serviceTimerTimeout_at_end t1 currentTime) as (t2 & Hrun2 & Hmap2 & Hforce2 & Hidle);
    [reflexivity|exact HT|].
  exists t1, t2. split; [exact Hrun1|]. split; [exact Hrun2|].
  split; [exact Hmap2|]. split; [exact Hforce2|]. exact Hidle.
Qed.

(** X12.  A change of region gives the wheel the period of its customers
    for the new number of regions and an offset into that period for the
    new region: [period * index / regions], which lies inside the period.
    The host/schemes stay, and a wheel that holds one is started. *)
Theorem updateRegionData_offset_within_period (t : HostSchemeTimer)
    (regionIndex numberRegions currentTime : Z) :
  0 <= regionIndex < numberRegions ->
  numberRegions < 2 ^ 32 ->
  periodMilliseconds (currentMultiRegion t) (currentAggregatePeriodSeconds t) numberRegions <> 0 ->
  exists t',
    updateRegionData regionIndex numberRegions currentTime t = Ok (tt, t')
    /\ currentPeriodMilliseconds t'
       = periodMilliseconds (currentMultiRegion t) (currentAggregatePeriodSeconds t) numberRegions
    /\ regionTimeOffsetMilliseconds t'
       = currentPeriodMilliseconds t' * regionIndex / numberRegions
    /\ 0 <= regionTimeOffsetMilliseconds t' < currentPeriodMilliseconds t'
    /\ hostSchemesByTimeOrder t' = hostSchemesByTimeOrder t
    /\ (hostSchemesByTimeOrder t <> [] -> is_Some (serviceTimer t')).
Proof.
  intros Hidx Hn HP.
  remember (periodMilliseconds (currentMultiRegion t) (currentAggregatePeriodSeconds t)
              numberRegions) as P eqn:HPdef.
  assert (HPrange : 0 <= P < 2 ^ 32).
  { rewrite HPdef. unfold periodMilliseconds. destruct (currentMultiRegion t);
      apply (wrap_range 32); lia. }
  assert (Hoffset : regionOffset P regionIndex numberRegions = P * regionIndex / numberRegions).
  { unfold regionOffset. rewrite decide_False by lia. unfold u64.
    rewrite (wrap_small 64); [done|]. nia. }
  assert (Hin : 0 <= P * regionIndex / numberRegions < P).
  { split; [apply Z.div_pos; nia|]. apply Z.div_lt_upper_bound; nia. }
  destruct Hin as [Hlow Hhigh].
  unfold updateRegionData.
  rewrite (bind_ok _ _ t _ tt) by reflexivity.
  match goal with |- context [(get ≫= _) ?x] => set (t1 := x) end.
  rewrite (bind_ok _ _ t1 t1 t1) by reflexivity.
  assert (H1 : currentPeriodMilliseconds t1 = P) by (rewrite HPdef; reflexivity).
  assert (H2 : regionTimeOffsetMilliseconds t1 = regionOffset P regionIndex numberRegions)
    by (rewrite HPdef; reflexivity).
  assert (H3 : hostSchemesByTimeOrder t1 = hostSchemesByTimeOrder t) by reflexivity.
  assert (H4 : currentNumberRegions t1 = numberRegions) by reflexivity.
  clearbody t1. rewrite H3.
  destruct (hostSchemesByTimeOrder t) as [|e rest] eqn:Hmap.
  - exists t1. split; [reflexivity|]. rewrite H1, H2, Hoffset. by repeat split.
  - rewrite bool_decide_eq_false_2 by done. cbn [negb when].
    destruct (startTimer_frame t1 currentTime) as (t' & Hrun & Hsame & Harmed); [congruence|].
    exists t'. split; [exact Hrun|]. destruct Hsame as (s1 & s2 & s3 & s4 & s5).
    rewrite s3, s5, s1, H1, H2, H3, Hoffset. repeat split; try done; try lia.
    intros _. revert Harmed. rewrite H4, H3.
    rewrite bool_decide_eq_true_2 by lia. rewrite bool_decide_eq_false_2 by done.
    by intros [_ ?].
Qed.

End WheelFacts.

Lemma exampleWheel_keys :
  hostSchemesByTimeOrder exampleWheel
  = [(0x40000000, 12%positive); (0x80000000, 11%positive); (0xC0000000, 13%positive)].
Proof. vm_compute. reflexivity. Qed.

Lemma exampleWheel_NoDup : NoDup (hostSchemesByTimeOrder exampleWheel).*1.
Proof.
  rewrite exampleWheel_keys. apply sorted_NoDup. simpl.
  repeat (constructor; [|repeat constructor; lia]). constructor.
Qed.

Lemma ticks_service_each_host_scheme_once_witness :
  exists t',
    @ticks plainDouble [1700000000000; 1700000005000; 1700000010000] exampleWheel
    = Ok ([Some 12%positive; Some 11%positive; Some 13%positive], t')
    /\ hostSchemesByTimeOrder t' = hostSchemesByTimeOrder exampleWheel
    /\ hostSchemeIterator t' = At 0x40000000
    /\ is_Some (serviceTimer t').
Proof.
  apply (@ticks_service_each_host_scheme_once plainDouble exampleWheel
           [1700000000000; 1700000005000; 1700000010000]).
  - exact exampleWheel_NoDup.
  - rewrite exampleWheel_keys. discriminate.
  - vm_compute. reflexivity.
  - reflexivity.
  - vm_compute. discriminate.
  - vm_compute. reflexivity.
Defined.

Lemma addHostScheme_getHostScheme_witness :
  exists t',
    @addHostScheme plainDouble 4 14%positive 1700000000000 exampleWheel = Ok (tt, t')
    /\ getHostSchemeOfTimer 4 t' = Some 14%positive
    /\ (forall other, u32 other <> u32 4 ->
          getHostSchemeOfTimer other t' = getHostSchemeOfTimer other exampleWheel)
    /\ (StronglySorted Z.lt (hostSchemesByTimeOrder exampleWheel).*1 ->
        StronglySorted Z.lt (hostSchemesByTimeOrder t').*1)
    /\ (serviceTimer exampleWheel = None -> 0 < currentNumberRegions exampleWheel ->
        is_Some (serviceTimer t')).
Proof.
  apply (@addHostScheme_getHostScheme plainDouble exampleWheel 4 14%positive 1700000000000).
  vm_compute. discriminate.
Defined.

Lemma exampleWheel_cursorOk : wheelCursorOk exampleWheel.
Proof.
  unfold wheelCursorOk. rewrite exampleWheel_keys.
  change (hostSchemeIterator exampleWheel) with (At (bitReverse32 2)).
  change (bitReverse32 2) with 0x40000000. left.
Qed.

Lemma removeHostScheme_getHostScheme_witness :
  match getHostSchemeOfTimer 2 exampleWheel with
  | None => @removeHostScheme plainDouble 2 exampleWheel = Ok (false, exampleWheel)
  | Some _ =>
      exists t',
        @removeHostScheme plainDouble 2 exampleWheel = Ok (true, t')
        /\ getHostSchemeOfTimer 2 t' = None
        /\ (forall other, u32 other <> u32 2 ->
              getHostSchemeOfTimer other t' = getHostSchemeOfTimer other exampleWheel)
        /\ NoDup (hostSchemesByTimeOrder t').*1
        /\ wheelCursorOk t'
        /\ hostSchemeIterator t' <> At (bitReverse32 2)
  end.
Proof.
  apply (@removeHostScheme_getHostScheme plainDouble exampleWheel 2).
  - exact exampleWheel_NoDup.
  - exact exampleWheel_cursorOk.
Defined.

Lemma removeHostScheme_last_then_tick_witness :
  exists t1 t2,
    @removeHostScheme plainDouble 3 exampleWheelAtLast = Ok (true, t1)
    /\ serviceTimerTimeout 1700000000000 t1 = Ok (None, t2)
    /\ hostSchemesByTimeOrder t2 = [(0x40000000, 12%positive); (0x80000000, 11%positive)]
    /\ forceTimerResync t2 = false
    /\ hostSchemeIterator t2 = At 0x40000000 /\ is_Some (serviceTimer t2).
Proof.
  apply (@removeHostScheme_last_then_tick plainDouble exampleWheelAtLast
           [(0x40000000, 12%positive); (0x80000000, 11%positive)] 3 13%positive
           1700000000000).
  - vm_compute. reflexivity.
  - exact exampleWheel_NoDup.
  - reflexivity.
  - vm_compute. discriminate.
Defined.

Lemma updateRegionData_offset_within_period_witness :
  exists t',
    @updateRegionData plainDouble 1 3 1700000000000 exampleWheel = Ok (tt, t')
    /\ currentPeriodMilliseconds t' = 20000
    /\ regionTimeOffsetMilliseconds t' = currentPeriodMilliseconds t' * 1 / 3
    /\ 0 <= regionTimeOffsetMilliseconds t' < currentPeriodMilliseconds t'
    /\ hostSchemesByTimeOrder t' = hostSchemesByTimeOrder exampleWheel
    /\ (hostSchemesByTimeOrder exampleWheel <> [] -> is_Some (serviceTimer t')).
Proof.
  apply (@updateRegionData_offset_within_period plainDouble exampleWheel 1 3 1700000000000).
  - lia.
  - lia.
  - vm_compute. discriminate.
Defined.

(** ** [DataAggregator]: timestamps, the identifier, and the samples that
       wait for the controller *)

(** X13.  The timestamp of a latency entry: what [unixTimestamp] reads back
    is the time recorded, folded into the 2^32 seconds that start with the
    Zoran epoch; it is the time recorded exactly when that time lies in
    this window. *)
Theorem unixTimestamp_newLatencyEntry (monitorId timestamp latency : Z) :
  0 <= timestamp < 2 ^ 64 ->
  unixTimestamp (newLatencyEntry monitorId timestamp latency)
  = startOfZoranEpoch + (timestamp - startOfZoranEpoch) mod 2 ^ 32
  /\ toUnixTimestamp (toZoranTimestamp timestamp)
     = unixTimestamp (newLatencyEntry monitorId timestamp latency)
  /\ (startOfZoranEpoch <= timestamp < startOfZoranEpoch + 2 ^ 32 <->
      unixTimestamp (newLatencyEntry monitorId timestamp latency) = timestamp).
Proof.
  intros Hrange. unfold unixTimestamp, toUnixTimestamp, toZoranTimestamp, newLatencyEntry.
  cbn [entryTimestamp].
  assert (Hfold : u32 (u64 (timestamp - startOfZoranEpoch))
                  = (timestamp - startOfZoranEpoch) mod 2 ^ 32).
  { unfold u32, u64, wrap. apply Z.mod_mod_divide. exists (2 ^ 32). reflexivity. }
  rewrite Hfold.
  pose proof (Z.mod_pos_bound (timestamp - startOfZoranEpoch) (2 ^ 32) ltac:(lia)) as Hm.
  assert (Hsmall : u64 ((timestamp - startOfZoranEpoch) mod 2 ^ 32 + startOfZoranEpoch)
                   = startOfZoranEpoch + (timestamp - startOfZoranEpoch) mod 2 ^ 32).
  { unfold u64. rewrite (wrap_small 64); [lia|]. unfold startOfZoranEpoch in *. lia. }
  rewrite Hsmall. split; [done|]. split; [done|]. split.
  - intros Hwin. rewrite Z.mod_small by lia. lia.
  - intros E. unfold startOfZoranEpoch in *. lia.
Qed.

Lemma unixTimestamp_newLatencyEntry_witness :
  unixTimestamp (newLatencyEntry 7 1700000000 50000)
  = startOfZoranEpoch + (1700000000 - startOfZoranEpoch) mod 2 ^ 32
  /\ toUnixTimestamp (toZoranTimestamp 1700000000)
     = unixTimestamp (newLatencyEntry 7 1700000000 50000)
  /\ (startOfZoranEpoch <= 1700000000 < startOfZoranEpoch + 2 ^ 32 <->
      unixTimestamp (newLatencyEntry 7 1700000000 50000) = 1700000000).
Proof. apply (unixTimestamp_newLatencyEntry 7 1700000000 50000). lia. Defined.

Lemma writeAt_length (off : nat) (data buffer : QByteArray) :
  length (writeAt off data buffer) = length buffer.
Proof. unfold writeAt. rewrite !length_app, !length_take, length_drop. lia. Qed.



Lemma setServerIdentifier_length (rawData : QByteArray) (d : DataAggregator) :
  length (headerTemplate (setServerIdentifier rawData d)) = length (headerTemplate d).
Proof.
  unfold setServerIdentifier. cbn [headerTemplate setHeaderTemplate].
  destruct (bool_decide _); by rewrite ?writeAt_length.
Qed.

(** X14.  The identifier that is read back is the first 48 bytes of the
    identifier that was set, padded with zero bytes to 48: a longer
    identifier is cut, and nothing of an earlier identifier is left.  The
    other fields of the header template stay as they are. *)
Theorem serverIdentifier_setServerIdentifier (rawData : QByteArray) (d : DataAggregator) :
  length (headerTemplate d) = sizeofHeader ->
  serverIdentifierBytes (setServerIdentifier rawData d)
  = take maximumIdentifierLength rawData
    ++ repeat x00 (maximumIdentifierLength - length rawData)
  /\ take offsetIdentifier (headerTemplate (setServerIdentifier rawData d))
     = take offsetIdentifier (headerTemplate d)
  /\ drop (offsetIdentifier + maximumIdentifierLength)
       (headerTemplate (setServerIdentifier rawData d))
     = drop (offsetIdentifier + maximumIdentifierLength) (headerTemplate d)
  /\ length (headerTemplate (setServerIdentifier rawData d)) = sizeofHeader.
Proof.
  intros Hlen.
  set (version := take offsetIdentifier (headerTemplate d)).
  set (ident := take maximumIdentifierLength (drop offsetIdentifier (headerTemplate d))).
  set (tail := drop (offsetIdentifier + maximumIdentifierLength) (headerTemplate d)).
  assert (Hsplit : headerTemplate d = version ++ ident ++ tail).
  { subst version ident tail. rewrite <- drop_drop.
    by rewrite !take_drop. }
  assert (Hv : length version = offsetIdentifier).
  { subst version. rewrite length_take, Hlen. by vm_compute. }
  assert (Hi : length ident = maximumIdentifierLength).
  { subst ident. rewrite length_take, length_drop, Hlen. by vm_compute. }
  pose proof (setServerIdentifier_template rawData d version ident tail Hsplit Hv Hi) as Hnew.
  fold (identifierField rawData).
  pose proof (identifierField_length rawData) as Hfield.
  unfold serverIdentifierBytes. rewrite Hnew. repeat split.
  - rewrite <- Hv, drop_app_length. by rewrite <- Hfield, take_app_length.
  - by rewrite <- Hv at 1; rewrite take_app_length.
  - rewrite app_assoc. replace (offsetIdentifier + maximumIdentifierLength)%nat
      with (length (version ++ identifierField rawData)) by (rewrite length_app; lia).
    by rewrite drop_app_length.
  - rewrite !length_app, Hfield, Hv. subst tail. rewrite length_drop, Hlen. by vm_compute.
Qed.

Lemma serverIdentifier_setServerIdentifier_witness :
  serverIdentifierBytes (setServerIdentifier (bytes_of_string "eu-2") exampleAggregator)
  = take maximumIdentifierLength (bytes_of_string "eu-2")
    ++ repeat x00 (maximumIdentifierLength - length (bytes_of_string "eu-2"))
  /\ take offsetIdentifier
       (headerTemplate (setServerIdentifier (bytes_of_string "eu-2") exampleAggregator))
     = take offsetIdentifier (headerTemplate exampleAggregator)
  /\ drop (offsetIdentifier + maximumIdentifierLength)
       (headerTemplate (setServerIdentifier (bytes_of_string "eu-2") exampleAggregator))
     = drop (offsetIdentifier + maximumIdentifierLength) (headerTemplate exampleAggregator)
  /\ length (headerTemplate (setServerIdentifier (bytes_of_string "eu-2") exampleAggregator))
     = sizeofHeader.
Proof.
  apply (serverIdentifier_setServerIdentifier (bytes_of_string "eu-2") exampleAggregator).
  vm_compute. reflexivity.
Defined.

Lemma handleEvent_pending (e : AggregatorEvent) (d : DataAggregator) :
  ~ acknowledges e ->
  exists d',
    handleEvent e d = Ok (tt, d')
    /\ pendingEntries d' = pendingEntries d ++ samplesOf [e]
    /\ (forall batch, inFlightLatencyEntryList d = Some batch ->
                      inFlightLatencyEntryList d' = Some batch)
    /\ headerTemplate d' = headerTemplate d.
Proof.
  intros Hack. unfold pendingEntries.
  assert (Hfail : forall message,
            exists d', processRequestFailed message d = Ok (tt, d')
              /\ default [] (inFlightLatencyEntryList d') ++ latencyEntryList d'
                 = (default [] (inFlightLatencyEntryList d) ++ latencyEntryList d) ++ []
              /\ (forall batch, inFlightLatencyEntryList d = Some batch ->
                                inFlightLatencyEntryList d' = Some batch)
              /\ headerTemplate d' = headerTemplate d).
  { intros message. unfold processRequestFailed, triggerRetry. monad.
    eexists. split; [reflexivity|]. simpl. by rewrite app_nil_r. }
  destruct e as [monitorId timestamp latency|tel|tel|errorString|document contentType];
    cbn [handleEvent samplesOf flat_map app].
  - unfold recordLatency, triggerReporting. monad.
    destruct (inFlightLatencyEntryList d) as [batch|] eqn:Hb; simpl.
    + eexists. split; [reflexivity|]. simpl. rewrite ?Hb. simpl.
      by rewrite app_assoc.
    + destruct (bool_decide _); simpl; [|destruct (reportTimer d); simpl];
        (eexists; split; [reflexivity|]); simpl; rewrite ?Hb; done.
  - unfold reportTimerTimeout, startReportingLatencyData, sendReport. monad.
    destruct (inFlightLatencyEntryList d) as [batch|] eqn:Hb; simpl;
      (eexists; split; [reflexivity|]); simpl; rewrite ?Hb; simpl; rewrite ?app_nil_r; done.
  - unfold retryTimerTimeout, startRetry, sendReport. monad.
    destruct (inFlightLatencyEntryList d) as [batch|] eqn:Hb; simpl;
      (eexists; split; [reflexivity|]); simpl; rewrite ?Hb; simpl; rewrite ?app_nil_r; done.
  - apply Hfail.
  - unfold processResponse.
    destruct (decide (contentType = "application/json"%string)) as [Hct|Hct]; [|apply Hfail].
    destruct document as [|status]; [apply Hfail|].
    destruct (decide (status = "OK"%string)) as [Hst|Hst]; [|apply Hfail].
    exfalso. apply Hack. by split.
Qed.

Lemma handleEvents_pending (events : list AggregatorEvent) :
  forall d : DataAggregator,
    Forall (fun e => ~ acknowledges e) events ->
    exists d',
      handleEvents events d = Ok (tt, d')
      /\ pendingEntries d' = pendingEntries d ++ samplesOf events
      /\ (forall batch, inFlightLatencyEntryList d = Some batch ->
                        inFlightLatencyEntryList d' = Some batch)
      /\ headerTemplate d' = headerTemplate d.
Proof.
  induction events as [|e rest IH]; intros d Hack.
  - exists d. unfold samplesOf. simpl. by rewrite app_nil_r.
  - apply Forall_cons in Hack as [He Hrest].
    destruct (handleEvent_pending e d He) as (d1 & Hrun1 & Hp1 & Hb1 & Hh1).
    destruct (IH d1 Hrest) as (d' & Hrun & Hp & Hb & Hh).
    exists d'. cbn [handleEvents]. rewrite (bind_ok _ _ d d1 tt) by exact Hrun1.
    split; [exact Hrun|]. split; [|split].
    + rewrite Hp, Hp1, <- app_assoc. f_equal. unfold samplesOf. cbn [flat_map].
      by rewrite app_nil_r.
    + intros batch Hbatch. apply Hb. by apply Hb1.
    + congruence.
Qed.

(** X15.  While the controller does not acknowledge, nothing is lost: after
    any samples, expiries of the two timers, failed requests and responses
    other than the acknowledgement, in any order, the aggregator holds the
    entries it held before, followed by the entries of the new samples in
    their order; a batch in flight stays the batch in flight. *)
Theorem handleEvents_lose_nothing (events : list AggregatorEvent) (d : DataAggregator) :
  Forall (fun e => ~ acknowledges e) events ->
  exists d',
    handleEvents events d = Ok (tt, d')
    /\ pendingEntries d' = pendingEntries d ++ samplesOf events
    /\ (forall batch, inFlightLatencyEntryList d = Some batch ->
                      inFlightLatencyEntryList d' = Some batch).
Proof.
  intros Hack. destruct (handleEvents_pending events d Hack) as (d' & Hrun & Hp & Hb & _).
  by exists d'.
Qed.

Lemma handleEvents_app (first rest : list AggregatorEvent) (d : DataAggregator) :
  handleEvents (first ++ rest) d = (handleEvents first;; handleEvents rest) d.
Proof.
  revert d. induction first as [|e first IH]; intros d; [done|].
  cbn [app handleEvents]. unfold mbind, M_bind in *.
  destruct (handleEvent e d) as [[[] d1]|]; [|done]. apply IH.
Qed.

(** X16.  One round with the controller: the report timer expires on an
    aggregator with nothing in flight, then come samples, expiries and
    failures in any order, then the acknowledgement.  The batch that was
    current at the expiry is dropped, and exactly the entries recorded
    since are left, as the current list. *)
Theorem acknowledgement_drops_the_batch (events : list AggregatorEvent)
    (d : DataAggregator) (tel : Telemetry) :
  inFlightLatencyEntryList d = None ->
  Forall (fun e => ~ acknowledges e) events ->
  exists d',
    handleEvents
      (ReportTimerExpired tel :: events
       ++ [ResponseReceived (StatusObject "OK") "application/json"]) d = Ok (tt, d')
    /\ inFlightLatencyEntryList d' = None
    /\ latencyEntryList d' = samplesOf events.
Proof.
  intros Hnone Hack. cbn [handleEvents handleEvent].
  set (d1 := post (reportMessage (headerTemplate d) tel (latencyEntryList d))
               (setLists [] (Some (latencyEntryList d)) (setReportTimer None d))).
  assert (Hrun1 : reportTimerTimeout tel d = Ok (tt, d1)).
  { unfold reportTimerTimeout, startReportingLatencyData, sendReport. monad.
    by rewrite Hnone. }
  rewrite (bind_ok _ _ d d1 tt) by exact Hrun1.
  destruct (handleEvents_pending events d1 Hack) as (d2 & Hrun2 & Hp2 & Hb2 & _).
  specialize (Hb2 (latencyEntryList d) eq_refl).
  assert (Hcurrent : latencyEntryList d2 = samplesOf events).
  { unfold pendingEntries in Hp2. rewrite Hb2 in Hp2. simpl in Hp2.
    rewrite app_nil_r in Hp2. by apply app_inv_head in Hp2. }
  rewrite handleEvents_app, (bind_ok _ _ d1 d2 tt) by exact Hrun2.
  cbn [handleEvents handleEvent]. unfold processResponse.
  rewrite !decide_True by done. monad. rewrite Hb2. simpl.
  rewrite <- Hcurrent.
  destruct (bool_decide (maximumNumberPendingEntries <= _)); simpl;
    [|destruct (bool_decide (0 < _)); simpl]; (eexists; split; [reflexivity|done]).
Qed.


Lemma outageEvents_unacknowledged : Forall (fun e => ~ acknowledges e) outageEvents.
Proof.
  unfold outageEvents. repeat (apply Forall_cons; split; [by intros []|]).
  constructor.
Qed.

Lemma handleEvents_lose_nothing_witness :
  exists d',
    handleEvents outageEvents exampleAggregator = Ok (tt, d')
    /\ pendingEntries d'
       = pendingEntries exampleAggregator
         ++ [newLatencyEntry 7 1700000000 50000; newLatencyEntry 8 1700000001 61000]
    /\ (forall batch, inFlightLatencyEntryList exampleAggregator = Some batch ->
                      inFlightLatencyEntryList d' = Some batch).
Proof.
  apply (handleEvents_lose_nothing outageEvents exampleAggregator).
  exact outageEvents_unacknowledged.
Defined.

Lemma acknowledgement_drops_the_batch_witness :
  exists d',
    handleEvents
      (ReportTimerExpired calmTelemetry :: outageEvents
       ++ [ResponseReceived (StatusObject "OK") "application/json"]) loadedAggregator
    = Ok (tt, d')
    /\ inFlightLatencyEntryList d' = None
    /\ latencyEntryList d'
       = [newLatencyEntry 7 1700000000 50000; newLatencyEntry 8 1700000001 61000].
Proof.
  apply (acknowledgement_drops_the_batch outageEvents loadedAggregator calmTelemetry).
  - reflexivity.
  - exact outageEvents_unacknowledged.
Defined.

(** ** The reporters of events and of certificates *)

Section EventReporterFacts.
Variable toBase64 : QByteArray -> QString.

Lemma sendEvents_queue (events : list Event) :
  forall r : EventReporter,
    exists r',
      sendEvents toBase64 events r = Ok (tt, r')
      /\ pendingMessages r' = pendingMessages r ++ (eventJson toBase64 <$> events)
      /\ eventPosts r'
         = eventPosts r
           ++ match pendingMessages r with
              | [] => take 1 (eventJson toBase64 <$> events)
              | _ => []
              end
      /\ eventRetryTimer r' = eventRetryTimer r
      /\ eventLog r' = eventLog r.
Proof.
  induction events as [|e rest IH]; intros r.
  - exists r. simpl. rewrite app_nil_r.
    repeat split; try done. destruct (pendingMessages r); by rewrite ?app_nil_r.
  - cbn [sendEvents].
    assert (Hstep : exists r1,
              sendEvent toBase64 e r = Ok (tt, r1)
              /\ pendingMessages r1 = pendingMessages r ++ [eventJson toBase64 e]
              /\ eventPosts r1
                 = eventPosts r
                   ++ match pendingMessages r with [] => [eventJson toBase64 e] | _ => [] end
              /\ eventRetryTimer r1 = eventRetryTimer r
              /\ eventLog r1 = eventLog r).
    { unfold sendEvent, eventResend. monad.
      destruct (pendingMessages r) as [|m q] eqn:Hq; simpl;
        (eexists; split; [reflexivity|]); simpl; rewrite ?Hq, ?app_nil_r; done. }
    destruct Hstep as (r1 & Hrun1 & Hq1 & Hp1 & Ht1 & Hl1).
    destruct (IH r1) as (r' & Hrun & Hq & Hp & Ht & Hl).
    exists r'. rewrite (bind_ok _ _ r r1 tt) by exact Hrun1.
    split; [exact Hrun|]. rewrite Hq, Hp, Hq1, Hp1, Ht, Hl, Ht1, Hl1, fmap_cons, <- !app_assoc.
    repeat split; try done. f_equal.
    destruct (pendingMessages r) as [|m q]; simpl; by rewrite ?app_nil_r.
Qed.

Lemma eventOutcome_pops (failures : list QString) (response : QJsonValue) :
  forall (r : EventReporter) (m : QJsonObject) (rest : list QJsonObject),
    pendingMessages r = m :: rest ->
    exists r',
      eventOutcome failures response r = Ok (tt, r')
      /\ pendingMessages r' = rest
      /\ eventPosts r' = eventPosts r ++ replicate (length failures) m ++ take 1 rest
      /\ (isAcknowledgement response -> last (eventLog r') = Some (LogSent m))
      /\ (~ isAcknowledgement response ->
          exists why, last (eventLog r') = Some (LogFailed m why)).
Proof.
  induction failures as [|errorString failures IH]; intros r m rest Hq.
  - cbn [eventOutcome]. unfold eventProcessJsonResponse, eventResend. monad. rewrite Hq. simpl.
    assert (Hposts : forall r0 : EventReporter,
              pendingMessages r0 = rest -> eventPosts r0 = eventPosts r ->
              exists r',
                match rest with
                | [] => Ok (tt, r0)
                | first :: _ =>
                    Ok (tt, mkEventReporter (pendingMessages r0) (eventRetryTimer r0)
                              (eventPosts r0 ++ [first]) (eventLog r0))
                end = Ok (tt, r')
                /\ pendingMessages r' = rest
                /\ eventPosts r' = eventPosts r ++ take 1 rest
                /\ eventLog r' = eventLog r0).
    { intros r0 Hr0 Hp0. destruct rest as [|first rest']; eexists; (split; [reflexivity|]);
        simpl; rewrite ?app_nil_r; by rewrite ?Hp0. }
    match goal with |- context [mkEventReporter rest ?t ?p ?l] =>
      destruct (Hposts (mkEventReporter rest t p l) eq_refl eq_refl) as (r' & Hrun & Hq' & Hp' & Hl')
    end.
    exists r'. split; [|split; [exact Hq'|split; [exact Hp'|]]].
    + destruct rest; exact Hrun.
    + rewrite Hl'. cbn [eventLog]. rewrite last_snoc. split.
      * destruct response as [| | | | | |responseObject]; try done.
        intros [Hone Hok]. rewrite bool_decide_eq_true_2 by done. by rewrite decide_True.
      * intros Hnack. destruct response as [| | | | | |responseObject]; eauto.
        destruct (bool_decide _) eqn:Hone; [|eauto].
        destruct (decide _) as [Hok|Hno]; [|eauto].
        exfalso. apply Hnack. split; [by apply bool_decide_eq_true in Hone|done].
  - cbn [eventOutcome].
    assert (Hfail : eventProcessRequestFailed errorString r
                    = Ok (tt, mkEventReporter (pendingMessages r)
                                (Some (1000 * retryDelayInSeconds)) (eventPosts r)
                                (eventLog r ++ [LogFailed m (Retrying errorString)]))).
    { unfold eventProcessRequestFailed. monad. rewrite Hq. simpl. by rewrite Hq. }
    set (r1 := mkEventReporter _ _ _ _) in Hfail.
    assert (Hretry : eventRetryTimeout r1
                     = Ok (tt, mkEventReporter (pendingMessages r) None (eventPosts r ++ [m])
                                 (eventLog r1))).
    { unfold eventRetryTimeout, eventResend. monad. rewrite Hq. simpl. by rewrite ?Hq. }
    set (r2 := mkEventReporter _ _ _ _) in Hretry.
    rewrite (bind_ok _ _ r r1 tt) by exact Hfail.
    rewrite (bind_ok _ _ r1 r2 tt) by exact Hretry.
    destruct (IH r2 m rest Hq) as (r' & Hrun & Hq' & Hp' & Hack & Hnack).
    exists r'. split; [exact Hrun|]. split; [exact Hq'|]. split; [|by split].
    rewrite Hp'. cbn [eventPosts r2 length replicate]. by rewrite <- !app_assoc.
Qed.

Lemma eventOutcomes_drain (outcomes : list (list QString * QJsonValue)) :
  forall (r : EventReporter),
    length outcomes = length (pendingMessages r) ->
    exists r',
      eventOutcomes outcomes r = Ok (tt, r')
      /\ pendingMessages r' = []
      /\ eventPosts r'
         = eventPosts r
           ++ drop 1 (flat_map (fun mo => postsOf mo.1 mo.2)
                        (zip (pendingMessages r) outcomes)).
Proof.
  induction outcomes as [|[failures response] outcomes IH]; intros r Hlen.
  - exists r. destruct (pendingMessages r) as [|m q] eqn:Hq; [|done].
    cbn [eventOutcomes]. simpl. by rewrite app_nil_r.
  - destruct (pendingMessages r) as [|m q] eqn:Hq; [done|].
    destruct (eventOutcome_pops failures response r m q Hq) as (r1 & Hrun1 & Hq1 & Hp1 & _).
    destruct (IH r1) as (r' & Hrun & Hq' & Hp'); [rewrite Hq1; simpl in Hlen; lia|].
    exists r'. cbn [eventOutcomes]. rewrite (bind_ok _ _ r r1 tt) by exact Hrun1.
    split; [exact Hrun|]. split; [exact Hq'|].
    rewrite Hp', Hp1, Hq1, <- !app_assoc. f_equal.
    cbn [zip zip_with flat_map postsOf fst snd replicate length app drop].
    f_equal. destruct q as [|m' q']; [by destruct outcomes|].
    destruct outcomes as [|[failures' response'] outcomes']; [done|].
    cbn [zip zip_with flat_map postsOf fst snd replicate length app drop take]. done.
Qed.

Lemma flat_map_zip_fmap (f : Event -> QJsonObject) (events : list Event) :
  forall outcomes : list (list QString * QJsonValue),
    flat_map (fun mo => postsOf mo.1 mo.2) (zip (f <$> events) outcomes)
    = flat_map (fun eo => postsOf (f eo.1) eo.2) (zip events outcomes).
Proof.
  induction events as [|e events IH]; intros outcomes; [done|].
  destruct outcomes as [|o outcomes]; [done|].
  cbn [fmap list_fmap zip zip_with flat_map fst snd]. f_equal. apply IH.
Qed.

(** X18.  The queue of the event reporter: the events sent on an idle
    reporter are POSTed in the order they were sent, each once and once
    more after every transport failure.  Every JSON response takes the
    event off the queue, whatever it says, so that the queue is empty
    after as many responses as there were events. *)
Theorem events_posted_in_order (events : list Event)
    (outcomes : list (list QString * QJsonValue)) (r : EventReporter) :
  pendingMessages r = [] ->
  length outcomes = length events ->
  exists r',
    (sendEvents toBase64 events;; eventOutcomes outcomes) r = Ok (tt, r')
    /\ pendingMessages r' = []
    /\ eventPosts r'
       = eventPosts r
         ++ flat_map (fun eo => postsOf (eventJson toBase64 eo.1) eo.2) (zip events outcomes).
Proof.
  intros Hidle Hlen.
  destruct (sendEvents_queue events r) as (r1 & Hrun1 & Hq1 & Hp1 & _).
  rewrite Hidle in Hq1, Hp1. simpl in Hq1.
  destruct (eventOutcomes_drain outcomes r1) as (r' & Hrun & Hq & Hp).
  { by rewrite Hq1, length_fmap. }
  exists r'. rewrite (bind_ok _ _ r r1 tt) by exact Hrun1.
  split; [exact Hrun|]. split; [exact Hq|].
  rewrite Hp, Hp1, Hq1, <- app_assoc. f_equal.
  rewrite (flat_map_zip_fmap (eventJson toBase64)).
  destruct events as [|e events]; [done|].
  destruct outcomes as [|o outcomes]; [done|]. done.
Qed.

(** X19.  A response that is not the acknowledgement loses the event: the
    reporter logs the failure, takes the event off the queue and goes on
    to the next one.  Only a transport failure keeps the event, for a
    retry after 60 seconds. *)
Theorem refused_event_is_dropped (r : EventReporter) (m : QJsonObject)
    (rest : list QJsonObject) (response : QJsonValue) (errorString : QString) :
  pendingMessages r = m :: rest ->
  ~ isAcknowledgement response ->
  (exists r' why,
     eventProcessJsonResponse response r = Ok (tt, r')
     /\ pendingMessages r' = rest
     /\ eventPosts r' = eventPosts r ++ take 1 rest
     /\ last (eventLog r') = Some (LogFailed m why)
     /\ eventRetryTimer r' = eventRetryTimer r)
  /\ (exists r',
        eventProcessRequestFailed errorString r = Ok (tt, r')
        /\ pendingMessages r' = m :: rest
        /\ eventPosts r' = eventPosts r
        /\ eventRetryTimer r' = Some 60000).
Proof.
  intros Hq Hnack. split.
  - destruct (eventOutcome_pops [] response r m rest Hq) as (r' & Hrun & Hq' & Hp' & _ & Hlog).
    destruct (Hlog Hnack) as [why Hwhy].
    exists r', why. cbn [eventOutcome] in Hrun. repeat split; try done.
    revert Hrun. unfold eventProcessJsonResponse, eventResend. monad. rewrite Hq. simpl.
    destruct rest; intros [= <-]; done.
  - unfold eventProcessRequestFailed. monad. rewrite Hq. simpl.
    eexists. split; [reflexivity|]. simpl. by rewrite Hq.
Qed.

End EventReporterFacts.

Lemma events_posted_in_order_witness :
  exists r',
    (sendEvents plainBase64 [failedEvent; workingEvent];;
     eventOutcomes [(["Connection refused"%string], busyResponse); ([], okResponse)])
      idleEventReporter = Ok (tt, r')
    /\ pendingMessages r' = []
    /\ eventPosts r'
       = eventPosts idleEventReporter
         ++ [eventJson plainBase64 failedEvent; eventJson plainBase64 failedEvent;
             eventJson plainBase64 workingEvent].
Proof.
  apply (events_posted_in_order plainBase64 [failedEvent; workingEvent]
           [(["Connection refused"%string], busyResponse); ([], okResponse)]
           idleEventReporter).
  - reflexivity.
  - reflexivity.
Defined.

Lemma refused_event_is_dropped_witness :
  (exists r' why,
     eventProcessJsonResponse busyResponse
       (mkEventReporter [eventJson plainBase64 failedEvent] None
          [eventJson plainBase64 failedEvent] [])
     = Ok (tt, r')
     /\ pendingMessages r' = []
     /\ eventPosts r' = [eventJson plainBase64 failedEvent] ++ take 1 []
     /\ last (eventLog r') = Some (LogFailed (eventJson plainBase64 failedEvent) why)
     /\ eventRetryTimer r' = None)
  /\ (exists r',
        eventProcessRequestFailed "Connection refused"
          (mkEventReporter [eventJson plainBase64 failedEvent] None
             [eventJson plainBase64 failedEvent] [])
        = Ok (tt, r')
        /\ pendingMessages r' = [eventJson plainBase64 failedEvent]
        /\ eventPosts r' = [eventJson plainBase64 failedEvent]
        /\ eventRetryTimer r' = Some 60000).
Proof.
  apply (refused_event_is_dropped
           (mkEventReporter [eventJson plainBase64 failedEvent] None
              [eventJson plainBase64 failedEvent] [])
           (eventJson plainBase64 failedEvent) [] busyResponse "Connection refused").
  - reflexivity.
  - intros [_ E]. vm_compute in E. discriminate E.
Defined.





(** ** The monitor: requests, responses and content checks *)

Lemma headerLoop_eq (headers : list (QByteArray * QByteArray)) :
  forall (userAgent : QByteArray) (raw : list (QByteArray * QByteArray)),
    headerLoop headers userAgent raw
    = (selectedUserAgent headers userAgent,
       raw ++ filter (fun h => h.1 <> defaultUserAgentHeaderString) headers).
Proof.
  induction headers as [|[k v] rest IH]; intros userAgent raw.
  - simpl. by rewrite app_nil_r.
  - cbn [headerLoop selectedUserAgent]. rewrite filter_cons. cbn [fst].
    destruct (decide (k = defaultUserAgentHeaderString)) as [->|Hne].
    + rewrite IH. by rewrite decide_False by (intros Hne; by apply Hne).
    + rewrite IH. rewrite decide_True by done. by rewrite <- app_assoc.
Qed.

(** X21.  The request of a check.  The default headers go out as they
    are, but for [user-agent], whose last value names the agent in place
    of [InesonicBot].  A request without a body ([GET], [HEAD], [DELETE],
    [OPTIONS]) never carries the monitor's own user agent, a content type
    or a transfer timeout; a request with a body carries the monitor's
    user agent when it has one, and a timeout of 60 seconds. *)
Theorem buildRequest_headers (m : Monitor) (hs : HostScheme)
    (headers : list (QByteArray * QByteArray)) :
  let request := buildRequest m hs headers in
  reqRawHeaders request = filter (fun h => h.1 <> defaultUserAgentHeaderString) headers
  /\ (if bodyless (currentMethod m)
      then reqUserAgent request = selectedUserAgent headers defaultUserAgent
           /\ reqBody request = None
           /\ reqContentType request = None
           /\ reqContentLength request = 0
           /\ reqTransferTimeout request = None
      else reqUserAgent request
           = (if decide (currentUserAgent m = [])
              then selectedUserAgent headers defaultUserAgent
              else currentUserAgent m)
           /\ reqBody request = Some (currentPostContent m)
           /\ reqContentType request = Some (contentTypeBytes (currentContentType m))
           /\ reqContentLength request = Z.of_nat (length (currentPostContent m))
           /\ reqTransferTimeout request = Some 60000).
Proof.
  unfold buildRequest. rewrite headerLoop_eq. cbn [app].
  destruct (bodyless (currentMethod m)); cbn; [done|].
  split; [done|]. split; [|done]. by destruct (currentUserAgent m).
Qed.

Section MonitorFacts.
Context `{External}.

(** X22.  At most one request of a monitor is in flight: where
    [startCheck] has returned, a second [startCheck] changes nothing, and
    the first has sent one request at most. *)
Theorem startCheck_idempotent (w w' : World) (this : ptr) :
  startCheck this w = Ok (tt, w') ->
  startCheck this w' = Ok (tt, w')
  /\ (length (sentRequests w') <= S (length (sentRequests w)))%nat.
Proof.
  unfold startCheck. monad.
  destruct (monitors w !! this) as [m|] eqn:Hm; [|done]. simpl.
  destruct (pendingReply m) as [r|] eqn:Hr; simpl.
  - intros [= <-]. rewrite Hm. simpl. rewrite Hr. split; [done|lia].
  - destruct (hasHostScheme m) eqn:Hh; simpl.
    + destruct (customer w) as [c|] eqn:Hc; [|done]. simpl.
      destruct (currentlyPaused c) eqn:Hp; simpl.
      * intros [= <-]. rewrite Hm. simpl. rewrite Hr. simpl. rewrite Hh. simpl.
        rewrite Hc. simpl. rewrite Hp. split; [done|lia].
      * destruct (currentNetworkAccessManager (hostScheme w)) eqn:Hnam; [|done]. simpl.
        intros [= <-]. simpl. rewrite lookup_alter_eq, Hm. simpl.
        split; [done|]. rewrite length_app. simpl. lia.
    + intros [= <-]. simpl. rewrite lookup_alter_eq, Hm. simpl. rewrite Hr. simpl.
      rewrite Hh. simpl. split; [|lia].
      unfold modify, withMonitors. cbn. rewrite alter_alter_eq. do 3 f_equal; try (apply alter_ext; by intros []).
Qed.

(** X23.  A status is reported when it changes and not again: a second
    transport error in a row changes nothing at all, and the first one
    reports [NO_RESPONSE] unless the monitor had already failed. *)
Theorem processErrorResponse_twice (w : World) (this : ptr) (m : Monitor)
    (first second : QString) :
  monitors w !! this = Some m ->
  hasHostScheme m = true ->
  exists w',
    processErrorResponse this first w = Ok (tt, w')
    /\ processErrorResponse this second w' = Ok (tt, w')
    /\ reportedEvents w'
       = reportedEvents w
         ++ (if decide (currentMonitorStatus m = MonitorStatus.FAILED) then []
             else [mkEvent (currentMonitorId m) (clock w) EventType.NO_RESPONSE
                     (currentMonitorStatus m) [] first])
    /\ (exists m', monitors w' !! this = Some m'
                   /\ currentMonitorStatus m' = MonitorStatus.FAILED).
Proof.
  intros Hm Hh. unfold processErrorResponse, monitorNonResponsive. monad. rewrite Hm. simpl.
  destruct (decide (currentMonitorStatus m = MonitorStatus.FAILED)) as [Hf|Hf].
  - rewrite bool_decide_eq_true_2 by done. simpl.
    exists w. rewrite Hm. simpl. rewrite bool_decide_eq_true_2 by done. simpl.
    rewrite app_nil_r. repeat split; try done. by exists m.
  - rewrite bool_decide_eq_false_2 by done. simpl. rewrite Hh. simpl.
    destruct (decide (nonResponsiveMonitors (hostScheme w) = ∅)); simpl;
      (eexists; split; [reflexivity|]); simpl; rewrite lookup_alter_eq, Hm; simpl;
      (split; [done|]); (split; [done|]); by eexists.
Qed.

Lemma checkContentChange_step (w : World) (this : ptr) (m : Monitor)
    (receivedData : QByteArray) (thisHash : QByteArray) :
  monitors w !! this = Some m ->
  thisHash = Sha256 (le32 (currentMonitorId m) ++ receivedData) ->
  exists w1 m1,
    checkContentChange this receivedData w = Ok (tt, w1)
    /\ monitors w1 !! this = Some m1
    /\ lastHash m1 = thisHash
    /\ currentMonitorId m1 = currentMonitorId m
    /\ reportedEvents w1
       = reportedEvents w
         ++ (if decide (lastHash m = [] \/ lastHash m = thisHash) then []
             else [mkEvent (currentMonitorId m) (clock w) EventType.CONTENT_CHANGED
                     (currentMonitorStatus m) thisHash ""]).
Proof.
  intros Hm Hhash. unfold checkContentChange.
  rewrite (bind_ok _ _ w w m) by (unfold getMonitor; by rewrite Hm).
  cbv zeta. rewrite <- Hhash. clear Hhash.
  destruct (lastHash m) as [|b rest] eqn:Hl.
  - eexists _, _. split; [reflexivity|]. cbn. rewrite lookup_alter_eq, Hm.
    split; [reflexivity|]. split; [reflexivity|]. split; [reflexivity|].
    rewrite decide_True by (by left). by rewrite app_nil_r.
  - destruct (decide (b :: rest = thisHash)) as [Heq|Hneq];
      [rewrite (decide_True (P := b :: rest = thisHash)) by exact Heq
      |rewrite (decide_False (P := b :: rest = thisHash)) by exact Hneq].
    + exists w, m. split; [reflexivity|]. split; [exact Hm|].
      split; [by rewrite Hl|]. split; [reflexivity|].
      rewrite decide_True by (by right). by rewrite app_nil_r.
    + eexists _, _. split; [reflexivity|]. cbn. rewrite lookup_alter_eq, Hm.
      split; [reflexivity|]. split; [reflexivity|]. split; [reflexivity|].
      rewrite decide_False; [reflexivity|]. intros [?|?]; done.
Qed.

(** X24.  A body that has not changed is silent: [checkContentChange] on
    the same body twice in a row reports nothing the second time.  The
    first time it reports [CONTENT_CHANGED] only when a hash was stored
    and differs; with no hash stored it stores the hash and reports
    nothing. *)
Theorem checkContentChange_twice (w : World) (this : ptr) (m : Monitor)
    (receivedData : QByteArray) :
  monitors w !! this = Some m ->
  let thisHash := Sha256 (le32 (currentMonitorId m) ++ receivedData) in
  exists w1 m1,
    checkContentChange this receivedData w = Ok (tt, w1)
    /\ monitors w1 !! this = Some m1
    /\ lastHash m1 = thisHash
    /\ reportedEvents w1
       = reportedEvents w
         ++ (if decide (lastHash m = [] \/ lastHash m = thisHash) then []
             else [mkEvent (currentMonitorId m) (clock w) EventType.CONTENT_CHANGED
                     (currentMonitorStatus m) thisHash ""])
    /\ exists w2,
         checkContentChange this receivedData w1 = Ok (tt, w2)
         /\ reportedEvents w2 = reportedEvents w1.
Proof.
  intros Hm thisHash.
  destruct (checkContentChange_step w this m receivedData thisHash Hm eq_refl)
    as (w1 & m1 & Hrun & Hm1 & Hl1 & Hid & Hev).
  exists w1, m1. repeat (split; [assumption|]).
  destruct (checkContentChange_step w1 this m1 receivedData thisHash Hm1)
    as (w2 & m2 & Hrun2 & _ & _ & _ & Hev2).
  { unfold thisHash. by rewrite Hid. }
  exists w2. split; [exact Hrun2|]. rewrite Hev2.
  rewrite decide_True by (by right). by rewrite app_nil_r.
Qed.

(** X25.  [checkAnyKeywordMatch] with a keyword list that is not empty:
    the scan stops at the first keyword that the body contains, and adds
    that keyword alone to the hash; an event is reported when the body
    contains no keyword and the hash differs from the hash stored; the
    hash is stored in every case. *)
Theorem checkAnyKeywordMatch_scans_to_first_found
    (w : World) (this : ptr) (m : Monitor) (receivedData : QByteArray) :
  monitors w !! this = Some m ->
  currentKeywords m <> [] ->
  let thisHash :=
    Sha256 ((le32 (currentMonitorId m) ++ receivedData)
            ++ default [] (firstFound receivedData (currentKeywords m))) in
  checkAnyKeywordMatch this receivedData w
  = Ok (tt,
        withMonitors (alter (setLastHash thisHash) this)
          (match firstFound receivedData (currentKeywords m) with
           | Some _ => w
           | None =>
               if decide (lastHash m = thisHash) then w
               else withReportedEvents
                      (fun l => l ++ [mkEvent (currentMonitorId m) (clock w) EventType.KEYWORDS
                                        (currentMonitorStatus m) thisHash ""]) w
           end)).
Proof.
  intros Hm Hne thisHash. unfold checkAnyKeywordMatch.
  rewrite (bind_ok _ _ w w m) by (unfold getMonitor; by rewrite Hm).
  rewrite bool_decide_eq_true_2 by (destruct (currentKeywords m); [done|simpl; lia]).
  destruct (anyKeywordScan_eq m receivedData Hne) as [i ->].
  cbv zeta. cbn [loopSuccess loopHashData]. subst thisHash.
  set (thisHash := Sha256 _).
  destruct (firstFound receivedData (currentKeywords m)) as [found|].
  - rewrite bool_decide_eq_true_2 by (by eexists). reflexivity.
  - rewrite bool_decide_eq_false_2 by (by intros [? ?]).
    destruct (decide (lastHash m = thisHash)) as [Heq|Hneq].
    + rewrite bool_decide_eq_true_2 by exact Heq. reflexivity.
    + rewrite bool_decide_eq_false_2 by exact Hneq. reflexivity.
Qed.

End MonitorFacts.

(** ** Removing a monitor from its host/scheme *)

Lemma eraseNonResponsive_monitorIterator (w w' : World) (p : ptr) :
  eraseNonResponsive p w = Ok (tt, w') ->
  monitorIterator (hostScheme w') = monitorIterator (hostScheme w).
Proof.
  unfold eraseNonResponsive. monad.
  destruct (nonResponsiveMonitorsIterator (hostScheme w)) as [| |q]; simpl;
    [done|by intros [= <-]|].
  destruct (ckey _ _) as [k|]; simpl; [|done].
  destruct (bool_decide (k = p)); simpl.
  - destruct (cnext _ _); simpl; [|done]. by intros [= <-].
  - by intros [= <-].
Qed.

Lemma elem_of_order (byId : gmap Z ptr) (k : Z) :
  k ∈ (map_to_list byId).*1 <-> is_Some (byId !! k).
Proof.
  rewrite list_elem_of_fmap. split.
  - intros ([k' p] & -> & Hkp). apply elem_of_map_to_list in Hkp. by eexists.
  - intros [p Hp]. exists (k, p). split; [done|]. by apply elem_of_map_to_list.
Qed.

(** X26.  [monitorAboutToBeRemoved] on a monitor of the host/scheme takes
    it out of the map and out of the set of non-responsive monitors, and
    leaves both iterators usable: each is [end()] or designates a monitor
    that is still there.  The invariant of the suspect set holds after it
    as before. *)
Theorem monitorAboutToBeRemoved_unregisters (w : World) (id : Z) (p : ptr) :
  engineInvariant w ->
  directoryOk w ->
  registeredUnderOwnId w ->
  monitorsByMonitorId (hostScheme w) !! id = Some p ->
  exists w',
    monitorAboutToBeRemoved p w = Ok (tt, w')
    /\ monitors w' = monitors w
    /\ monitorsByMonitorId (hostScheme w') = delete id (monitorsByMonitorId (hostScheme w))
    /\ nonResponsiveMonitors (hostScheme w') = nonResponsiveMonitors (hostScheme w) ∖ {[ p ]}
    /\ engineInvariant w'
    /\ directoryOk w'
    /\ registeredUnderOwnId w'.
Proof.
  intros [(Hcust & Hnam & Hlive & Hcur) Hsus] [Hdir Hit] Hreg Hp.
  destruct (Hreg id p Hp) as (m & Hm & Hid).
  set (byId := monitorsByMonitorId (hostScheme w)) in *.
  (* the map and its iterator *)
  assert (Hmap : exists w1,
    (match byId !! id with
     | None => crash DerefEnd
     | Some _ =>
         if decide (monitorIterator (hostScheme w) = At id) then
           it ← liftR (cnext (map_to_list byId).*1 (At id));
           modify (withHostScheme (fun h =>
             setMonitorIterator (wrap_to_begin (map_to_list (delete id byId)).*1 it)
               (setMonitorsByMonitorId (delete id byId) h)))
         else modify (withHostScheme (setMonitorsByMonitorId (delete id byId)))
     end) w = Ok (tt, w1)
    /\ monitors w1 = monitors w
    /\ customer w1 = customer w
    /\ currentNetworkAccessManager (hostScheme w1) = currentNetworkAccessManager (hostScheme w)
    /\ monitorsByMonitorId (hostScheme w1) = delete id byId
    /\ nonResponsiveMonitors (hostScheme w1) = nonResponsiveMonitors (hostScheme w)
    /\ nonResponsiveMonitorsIterator (hostScheme w1)
       = nonResponsiveMonitorsIterator (hostScheme w)
    /\ match monitorIterator (hostScheme w1) with
       | At k => is_Some (delete id byId !! k)
       | AtEnd => True
       | Singular => False
       end).
  { rewrite Hp.
    destruct (decide (monitorIterator (hostScheme w) = At id)) as [Hat|Hat].
    - destruct (after_elem id (map_to_list byId).*1) as (c & Hc & Hcases).
      { apply elem_of_order. by eexists. }
      { apply NoDup_fst_map_to_list. }
      unfold cnext. rewrite Hc. eexists. split; [reflexivity|].
      repeat split. cbn.
      destruct Hcases as [->|(q & -> & Hq & Hne)]; cbn.
      + destruct (cbegin_cases (map_to_list (delete id byId)).*1)
          as [[_ ->]|(q & -> & Hq)]; [done|]. by apply elem_of_order.
      + apply elem_of_order in Hq. by rewrite lookup_delete_ne.
    - eexists. split; [reflexivity|]. repeat split. cbn.
      destruct (monitorIterator (hostScheme w)) as [| |k]; [done|done|].
      rewrite lookup_delete_ne by congruence. exact Hit. }
  destruct Hmap as (w1 & Hrun1 & Hmon1 & Hcust1 & Hnam1 & Hby1 & Hset1 & Hnit1 & Hit1).
  destruct (eraseNonResponsive_ok w1 p) as (w' & Hrun & Hmon & _ & Hsame & Hset & Hcur').
  { by rewrite Hset1, Hnit1. }
  destruct Hsame as (Hby & Hnam' & _ & _ & Hcust' & _).
  pose proof (eraseNonResponsive_monitorIterator w1 w' p Hrun) as Hit'.
  exists w'. split.
  { unfold monitorAboutToBeRemoved.
    rewrite (bind_ok _ _ w w m) by (unfold getMonitor; by rewrite Hm).
    cbv zeta. rewrite (bind_ok _ _ w w (hostScheme w)) by reflexivity.
    rewrite Hid. fold byId.
    rewrite (bind_ok _ _ w w1 tt) by exact Hrun1. exact Hrun. }
  rewrite Hmon, Hmon1, Hby, Hby1, Hset, Hset1.
  assert (Hregistered : forall id' p', delete id byId !! id' = Some p' ->
            id' <> id /\ byId !! id' = Some p' /\ p' <> p).
  { intros id' p' Hd. apply lookup_delete_Some in Hd as [Hne Hd].
    repeat split; [congruence|done|]. intros ->.
    destruct (Hreg id' p Hd) as (m' & Hm' & Hid'). congruence. }
  repeat split.
  - by rewrite Hcust', Hcust1.
  - by rewrite Hnam', Hnam1.
  - rewrite Hset, Hset1, Hmon, Hmon1. intros q Hq. apply Hlive. set_solver.
  - exact Hcur'.
  - intros id' p' Hd. rewrite Hby, Hby1 in Hd.
    destruct (Hregistered id' p' Hd) as (_ & Hd' & Hne).
    destruct (Hsus id' p' Hd') as (m' & Hm' & Hiff).
    exists m'. rewrite Hmon, Hmon1, Hset, Hset1. split; [done|].
    rewrite <- Hiff. set_solver.
  - intros id' p' Hd. rewrite Hby, Hby1 in Hd. rewrite Hmon, Hmon1.
    destruct (Hregistered id' p' Hd) as (_ & Hd' & _). by apply (Hdir id').
  - rewrite Hit', Hby, Hby1. exact Hit1.
  - intros id' p' Hd. rewrite Hby, Hby1 in Hd. rewrite Hmon, Hmon1.
    destruct (Hregistered id' p' Hd) as (_ & Hd' & _). by apply Hreg.
Qed.

(** X27.  [removeMonitor] of a monitor of the host/scheme deletes it and
    takes it out of the map, and out of nothing else: the two iterators
    and the set of non-responsive monitors are as before.  A monitor that
    was in the set is still there, deleted, and the host/scheme is no
    longer well formed. *)
Theorem removeMonitor_leaves_the_suspect_set (w : World) (id : Z) (p : ptr) :
  monitorsByMonitorId (hostScheme w) !! id = Some p ->
  is_Some (monitors w !! p) ->
  exists w',
    removeMonitor id w = Ok (true, w')
    /\ monitors w' = delete p (monitors w)
    /\ monitorsByMonitorId (hostScheme w') = delete id (monitorsByMonitorId (hostScheme w))
    /\ monitorIterator (hostScheme w') = monitorIterator (hostScheme w)
    /\ nonResponsiveMonitors (hostScheme w') = nonResponsiveMonitors (hostScheme w)
    /\ nonResponsiveMonitorsIterator (hostScheme w')
       = nonResponsiveMonitorsIterator (hostScheme w)
    /\ (p ∈ nonResponsiveMonitors (hostScheme w) -> ~ wellFormed w').
Proof.
  intros Hp [m Hm].
  unfold removeMonitor. rewrite (bind_ok _ _ w w (hostScheme w)) by reflexivity.
  rewrite Hp.
  rewrite (bind_ok _ _ w _ tt) by reflexivity.
  match goal with |- context [(get ≫= _) ?x] => set (w1 := x) end.
  rewrite (bind_ok _ _ w1 w1 w1) by reflexivity.
  assert (Hm1 : monitors w1 !! p = Some m) by exact Hm.
  rewrite (bind_ok _ _ w1 w1 tt).
  2:{ destruct (customer w1); [|reflexivity].
      rewrite (bind_ok _ _ w1 w1 m) by (unfold getMonitor; by rewrite Hm1). reflexivity. }
  rewrite Hm1.
  eexists. split; [reflexivity|]. cbn. repeat split.
  intros Hin (_ & _ & Hlive & _). cbn in Hlive.
  destruct (Hlive p Hin) as [m' Hm']. by rewrite lookup_delete_eq in Hm'.
Qed.

(** ** The trees of [customer/add] *)

Section CustomerTreeFacts.
Context `{QtText}.

Lemma monitorsLoop_wellFormed (hostSchemeId : Z) (url : QString) (members : QJsonObject) :
  forall (v : Verdict) (result : HostSchemeTree),
    treeHostSchemeId result = hostSchemeId ->
    treeUrl result = url ->
    map_Forall wellFormedMonitor (treeMonitors result) ->
    let result' := (monitorsLoop members v result).2 in
    treeHostSchemeId result' = hostSchemeId
    /\ treeUrl result' = url
    /\ map_Forall wellFormedMonitor (treeMonitors result').
Proof.
  induction members as [|[monitorIdString monitorValue] rest IH]; intros v result Hid Hurl Hall.
  { cbn. by split_and!. }
  cbn [monitorsLoop]. destruct (success v); [|cbn; by split_and!].
  destruct (toUInt monitorIdString) as [monitorId|]; [|by apply IH].
  destruct (decide (monitorId = 0)) as [?|Hne]; [by apply IH|].
  destruct monitorValue; try (by apply IH).
  destruct (generateMonitor _ monitorId _) as [v1 [m|]]; [|by apply IH].
  apply IH; [done|done|]. cbn. apply map_Forall_insert_2; [|exact Hall].
  by split.
Qed.

Lemma generateHostScheme_Some (v v' : Verdict) (hostSchemeId : Z) (jsonData : QJsonObject)
    (h : HostSchemeTree) :
  hostSchemeId <> 0 ->
  generateHostScheme v hostSchemeId jsonData = (v', Some h) ->
  wellFormedHostSchemeTree hostSchemeId h.
Proof.
  intros Hne. unfold generateHostScheme. cbv zeta.
  destruct (_ && _); [|done].
  destruct (jsonValue "monitors" jsonData); try done.
  destruct (urlIsValid _) eqn:Hurl; [|done].
  match goal with |- context [monitorsLoop ?a ?b ?c] =>
    pose proof (monitorsLoop_wellFormed hostSchemeId (treeUrl c) a b c
                  eq_refl eq_refl (map_Forall_empty _)) as Hloop;
    destruct (monitorsLoop a b c) as [v1 result]
  end.
  intros [= <- <-]. cbn in Hloop. destruct Hloop as (Hid & Hu & Hall).
  unfold wellFormedHostSchemeTree. split_and!; [exact Hne|exact Hid| |exact Hall].
  by rewrite Hu.
Qed.

Lemma hostSchemesLoop_wellFormed (customer : Customer) (members : QJsonObject) :
  forall (v : Verdict) (result : CustomerTree),
    treeCustomer result = customer ->
    map_Forall wellFormedHostSchemeTree (treeHostSchemes result) ->
    let result' := (hostSchemesLoop members v result).2 in
    treeCustomer result' = customer
    /\ map_Forall wellFormedHostSchemeTree (treeHostSchemes result').
Proof.
  induction members as [|[hostSchemeIdString hostSchemeValue] rest IH];
    intros v result Hc Hall.
  { cbn. by split. }
  cbn [hostSchemesLoop]. destruct (success v); [|cbn; by split].
  destruct (toUInt hostSchemeIdString) as [hostSchemeId|]; [|by apply IH].
  destruct (decide (hostSchemeId = 0)) as [?|Hne]; [by apply IH|].
  destruct hostSchemeValue; try (by apply IH).
  destruct (generateHostScheme _ hostSchemeId _) as [v1 [h|]] eqn:Hh; [|by apply IH].
  apply generateHostScheme_Some in Hh; [|done].
  apply IH; [done|]. cbn. by apply map_Forall_insert_2.
Qed.

Lemma generateCustomer_Some (v v' : Verdict) (customerId : Z) (jsonObject : QJsonObject)
    (c : CustomerTree) :
  customerId <> 0 ->
  generateCustomer v customerId jsonObject = (v', Some c) ->
  wellFormedCustomerTree c.
Proof.
  intros Hne. unfold generateCustomer. cbv zeta.
  destruct (_ && _); [|done].
  destruct (jsonValue "host_schemes" jsonObject); try done.
  destruct (bool_decide _) eqn:Hpoll; [|done].
  apply bool_decide_eq_true in Hpoll.
  match goal with |- context [hostSchemesLoop ?a ?b ?c] =>
    pose proof (hostSchemesLoop_wellFormed (treeCustomer c) a b c
                  eq_refl (map_Forall_empty _)) as Hloop;
    destruct (hostSchemesLoop a b c) as [v1 result]
  end.
  intros [= <- <-]. cbn in Hloop. destruct Hloop as (Hc & Hall).
  unfold wellFormedCustomerTree. rewrite Hc. by split_and!.
Qed.

Lemma customersLoop_wellFormed (members : QJsonObject) :
  forall (v : Verdict) (customers : list CustomerTree),
    Forall wellFormedCustomerTree customers ->
    Forall wellFormedCustomerTree (customersLoop members v customers).2.
Proof.
  induction members as [|[customerIdString customerDataValue] rest IH];
    intros v customers Hall; [done|].
  cbn [customersLoop]. destruct (success v); [|done].
  destruct (toUInt customerIdString) as [customerId|]; [|by apply IH].
  destruct (decide (customerId = 0)) as [?|Hne]; [by apply IH|].
  destruct customerDataValue; try (by apply IH).
  destruct (generateCustomer _ customerId _) as [v1 [c|]] eqn:Hc; [|by apply IH].
  apply generateCustomer_Some in Hc; [|done].
  apply IH. apply Forall_app. split; [done|]. by apply Forall_singleton.
Qed.

(** X28.  Whatever the request, every customer that the customer loop of
    [customer/add] builds is well formed: its id is not zero, its polling
    interval is 20 seconds at least, and it is not paused; each of its
    host/schemes is filed under its own id, which is not zero, and has a
    valid URL; each monitor is filed under an id that is not zero and
    belongs to its host/scheme.  This holds of the customers built before
    a validation failure too. *)
Theorem customerAdd_builds_well_formed_customers (requestObject : QJsonObject) :
  Forall wellFormedCustomerTree (customersLoop requestObject (mkVerdict true "OK") []).2.
Proof. apply customersLoop_wellFormed. constructor. Qed.

(** X29.  The names that [toString] gives are read back by [toMethod],
    [toContentCheckMode] and [toContentType], whenever [trimmed().toLower()]
    lower-cases a name in capital letters and underscores and
    [replace('-', '_')] leaves text without a dash as it is. *)
Theorem toString_round_trip :
  (forall s, capitalName s -> trimmedToLower s = mapString lowerAscii s) ->
  (forall s, dashFree s -> dashesToUnderscores s = s) ->
  (forall method, toMethod (methodToString method) = (method, true))
  /\ (forall contentCheckMode,
        toContentCheckMode (contentCheckModeToString contentCheckMode)
        = (contentCheckMode, true))
  /\ (forall contentType, toContentType (contentTypeToString contentType) = (contentType, true)).
Proof.
  intros Hlower Hdash. repeat split.
  - intros []; unfold toMethod; cbv zeta; cbn [methodToString];
      rewrite Hlower by (apply (bool_decide_unpack _); vm_compute; exact I);
      vm_compute; reflexivity.
  - intros []; unfold toContentCheckMode; cbv zeta; cbn [contentCheckModeToString];
      rewrite Hlower by (apply (bool_decide_unpack _); vm_compute; exact I);
      rewrite Hdash by (apply (bool_decide_unpack _); vm_compute; exact I);
      vm_compute; reflexivity.
  - intros []; unfold toContentType; cbv zeta; cbn [contentTypeToString];
      rewrite Hlower by (apply (bool_decide_unpack _); vm_compute; exact I);
      vm_compute; reflexivity.
Qed.

End CustomerTreeFacts.

(** ** The tracker under [customer/add] *)

Section TrackerFacts.
Context `{QtText}.
Variable bestHttpThread : ServiceThreadTracker -> nat.









End TrackerFacts.



(** ** The properties of the monitor and of the removals, on the example
       host/scheme *)

Lemma exampleWorld_registeredUnderOwnId (m : Monitor) (suspect : bool) (live : gset ptr) :
  currentMonitorId m = 7 -> registeredUnderOwnId (exampleWorld m suspect live).
Proof.
  intros Hid id p Hp. simpl in Hp. apply lookup_singleton_Some in Hp as [<- <-].
  exists m. split; [|exact Hid]. simpl. by rewrite lookup_singleton_eq.
Qed.

Lemma asciiText_dashFree (s : string) :
  dashFree s -> @dashesToUnderscores asciiText s = s.
Proof.
  unfold dashFree. simpl. induction s as [|c rest IH]; [done|].
  simpl. intros Hc. apply not_elem_of_cons in Hc as [Hne Hrest].
  rewrite bool_decide_eq_false_2 by congruence. f_equal. by apply IH.
Qed.

Lemma startCheck_idempotent_witness :
  startCheck 1%positive afterFirstCheck = Ok (tt, afterFirstCheck)
  /\ (length (sentRequests afterFirstCheck)
      <= S (length (sentRequests (exampleWorld workingMonitor false ∅))))%nat.
Proof.
  apply (startCheck_idempotent (exampleWorld workingMonitor false ∅) afterFirstCheck 1%positive).
  reflexivity.
Defined.

Lemma processErrorResponse_twice_witness :
  exists w',
    processErrorResponse 1%positive "Connection refused"
      (exampleWorld workingMonitor false ∅) = Ok (tt, w')
    /\ processErrorResponse 1%positive "Connection timed out" w' = Ok (tt, w')
    /\ reportedEvents w'
       = reportedEvents (exampleWorld workingMonitor false ∅)
         ++ (if decide (currentMonitorStatus workingMonitor = MonitorStatus.FAILED) then []
             else [mkEvent (currentMonitorId workingMonitor)
                     (clock (exampleWorld workingMonitor false ∅)) EventType.NO_RESPONSE
                     (currentMonitorStatus workingMonitor) [] "Connection refused"])
    /\ (exists m', monitors w' !! 1%positive = Some m'
                   /\ currentMonitorStatus m' = MonitorStatus.FAILED).
Proof.
  apply (processErrorResponse_twice (exampleWorld workingMonitor false ∅) 1%positive
           workingMonitor "Connection refused" "Connection timed out").
  - reflexivity.
  - reflexivity.
Defined.

Lemma checkContentChange_twice_witness :
  exists w1 m1,
    @checkContentChange plainExternal 1%positive alpha
      (exampleWorld contentMatchMonitor false ∅) = Ok (tt, w1)
    /\ monitors w1 !! 1%positive = Some m1
    /\ lastHash m1 = @Sha256 plainExternal (le32 (currentMonitorId contentMatchMonitor) ++ alpha)
    /\ reportedEvents w1
       = reportedEvents (exampleWorld contentMatchMonitor false ∅)
         ++ (if decide (lastHash contentMatchMonitor = []
                        \/ lastHash contentMatchMonitor
                           = @Sha256 plainExternal
                               (le32 (currentMonitorId contentMatchMonitor) ++ alpha))
             then []
             else [mkEvent (currentMonitorId contentMatchMonitor)
                     (clock (exampleWorld contentMatchMonitor false ∅))
                     EventType.CONTENT_CHANGED (currentMonitorStatus contentMatchMonitor)
                     (@Sha256 plainExternal
                        (le32 (currentMonitorId contentMatchMonitor) ++ alpha)) ""])
    /\ exists w2,
         @checkContentChange plainExternal 1%positive alpha w1 = Ok (tt, w2)
         /\ reportedEvents w2 = reportedEvents w1.
Proof.
  apply (@checkContentChange_twice plainExternal (exampleWorld contentMatchMonitor false ∅)
           1%positive contentMatchMonitor alpha).
  reflexivity.
Defined.

Lemma checkAnyKeywordMatch_scans_to_first_found_witness :
  @checkAnyKeywordMatch plainExternal 1%positive beta
    (exampleWorld anyKeywordsMonitor false ∅)
  = Ok (tt,
        withMonitors
          (alter (setLastHash
                    (@Sha256 plainExternal
                       ((le32 (currentMonitorId anyKeywordsMonitor) ++ beta)
                        ++ default [] (firstFound beta (currentKeywords anyKeywordsMonitor)))))
             1%positive)
          (match firstFound beta (currentKeywords anyKeywordsMonitor) with
           | Some _ => exampleWorld anyKeywordsMonitor false ∅
           | None =>
               if decide (lastHash anyKeywordsMonitor
                          = @Sha256 plainExternal
                              ((le32 (currentMonitorId anyKeywordsMonitor) ++ beta)
                               ++ default []
                                    (firstFound beta (currentKeywords anyKeywordsMonitor))))
               then exampleWorld anyKeywordsMonitor false ∅
               else withReportedEvents
                      (fun l => l ++ [mkEvent (currentMonitorId anyKeywordsMonitor)
                                        (clock (exampleWorld anyKeywordsMonitor false ∅))
                                        EventType.KEYWORDS
                                        (currentMonitorStatus anyKeywordsMonitor)
                                        (@Sha256 plainExternal
                                           ((le32 (currentMonitorId anyKeywordsMonitor) ++ beta)
                                            ++ default []
                                                 (firstFound beta
                                                    (currentKeywords anyKeywordsMonitor))))
                                        ""])
                      (exampleWorld anyKeywordsMonitor false ∅)
           end)).
Proof.
  apply (@checkAnyKeywordMatch_scans_to_first_found plainExternal
           (exampleWorld anyKeywordsMonitor false ∅) 1%positive anyKeywordsMonitor beta).
  - reflexivity.
  - simpl. intros E. discriminate E.
Defined.

Lemma monitorAboutToBeRemoved_unregisters_witness :
  exists w',
    monitorAboutToBeRemoved 1%positive (exampleWorld failedMonitor true ∅) = Ok (tt, w')
    /\ monitors w' = monitors (exampleWorld failedMonitor true ∅)
    /\ monitorsByMonitorId (hostScheme w')
       = delete 7 (monitorsByMonitorId (hostScheme (exampleWorld failedMonitor true ∅)))
    /\ nonResponsiveMonitors (hostScheme w')
       = nonResponsiveMonitors (hostScheme (exampleWorld failedMonitor true ∅))
         ∖ {[ 1%positive ]}
    /\ engineInvariant w'
    /\ directoryOk w'
    /\ registeredUnderOwnId w'.
Proof.
  apply (monitorAboutToBeRemoved_unregisters (exampleWorld failedMonitor true ∅) 7 1%positive).
  - exact (exampleWorld_engineInvariant failedMonitor ∅).
  - exact (exampleWorld_directoryOk failedMonitor true ∅).
  - apply exampleWorld_registeredUnderOwnId. reflexivity.
  - reflexivity.
Defined.

Lemma removeMonitor_leaves_the_suspect_set_witness :
  exists w',
    removeMonitor 7 (exampleWorld failedMonitor true ∅) = Ok (true, w')
    /\ monitors w' = delete 1%positive (monitors (exampleWorld failedMonitor true ∅))
    /\ monitorsByMonitorId (hostScheme w')
       = delete 7 (monitorsByMonitorId (hostScheme (exampleWorld failedMonitor true ∅)))
    /\ monitorIterator (hostScheme w')
       = monitorIterator (hostScheme (exampleWorld failedMonitor true ∅))
    /\ nonResponsiveMonitors (hostScheme w')
       = nonResponsiveMonitors (hostScheme (exampleWorld failedMonitor true ∅))
    /\ nonResponsiveMonitorsIterator (hostScheme w')
       = nonResponsiveMonitorsIterator (hostScheme (exampleWorld failedMonitor true ∅))
    /\ (1%positive ∈ nonResponsiveMonitors (hostScheme (exampleWorld failedMonitor true ∅))
        -> ~ wellFormed w').
Proof.
  apply (removeMonitor_leaves_the_suspect_set (exampleWorld failedMonitor true ∅) 7 1%positive).
  - reflexivity.
  - exists failedMonitor. reflexivity.
Defined.

Lemma toString_round_trip_witness :
  (forall method, @toMethod asciiText (methodToString method) = (method, true))
  /\ (forall contentCheckMode,
        @toContentCheckMode asciiText (contentCheckModeToString contentCheckMode)
        = (contentCheckMode, true))
  /\ (forall contentType,
        @toContentType asciiText (contentTypeToString contentType) = (contentType, true)).
Proof.
  apply (@toString_round_trip asciiText).
  - intros s _. reflexivity.
  - exact asciiText_dashFree.
Defined.
